(** * Gurukul MCP server: the tool-call dispatcher over the SQL proxy

    A shallow embedding of the server in [src/verify.js] ([index.ts]):
    the [SqlProxy] class, the [CallToolRequestSchema] handler with the
    cases the properties are about, the [ListToolsRequestSchema]
    declarations of those tools, the resource handlers, the [/messages]
    endpoint and the routes of the express application; then the
    properties C1 to C10 and, of more of the same code, X1 to X19.

    Conventions.
    - JavaScript values are [json]: what [JSON.parse] produces, plus
      [undefined].  Numbers are integers (identifiers, limits, offsets),
      printed by their decimal digits as the engine prints the safe
      integers; the arithmetic operators and [JSON.stringify] are left
      to the engine ([JsEngine]), so nothing depends on rounding or on
      the layout of the rendered text.
    - Code is a tree of effects ([free]).  A tool handler performs
      [pool.execute] ([poolE]); [SqlProxy.execute] reads the
      [AsyncLocalStorage] store and calls [axios.post] ([netE]); [lower]
      binds the one to the other.  [run] executes a program against an
      arbitrary network ([oracle]) and returns what it returned or threw
      together with the requests it sent, in order.
    - zod, the MCP SDK, axios, [AsyncLocalStorage] and the relational
      engine behind the proxy are not part of the repository; they are
      modelled after their documented behaviour, only as far as the code
      uses them.
    - The cases of the [switch] that are not modelled one by one are a
      parameter ([other_cases]): an arbitrary table of handlers that
      reach the proxy through [pool.execute], as every case of the
      source does. *)

From stdpp Require Import gmap strings list pretty.

#[local] Set Warnings "-register-all".
#[local] Open Scope Z_scope.

(** ** JavaScript values *)

Inductive json : Type :=
| JUndefined
| JNull
| JBool (b : bool)
| JNum (n : Z)
| JStr (s : string)
| JArr (items : list json)
| JObj (fields : gmap string json).

(** [o.k] on an object that is known to be one: a missing key reads
    [undefined]. *)
Definition fld (o : gmap string json) (k : string) : json :=
  default JUndefined (o !! k).

(** JavaScript truthiness, as tested by [if (x)] and [x || y]. *)
Definition truthy (v : json) : bool :=
  match v with
  | JUndefined | JNull => false
  | JBool b => b
  | JNum n => negb (n =? 0)
  | JStr s => negb (String.eqb s EmptyString)
  | JArr _ | JObj _ => true
  end.

(** [a || b] *)
Definition js_or (a b : json) : json := if truthy a then a else b.

(** [Array.isArray] *)
Definition is_array (v : json) : bool :=
  match v with JArr _ => true | _ => false end.

(** [v === s] for a string literal [s] *)
Definition is_string (v : json) (s : string) : bool :=
  match v with JStr s' => String.eqb s' s | _ => false end.

(** [String(v)], which is also what a template literal does to [${v}].
    A number is rendered by its decimal digits, which is what the engine
    prints for the safe integers (magnitude below 2^53); beyond them the
    engine rounds to a double and, from 1e21 on, prints an exponent
    ("1e+21").  A property that quotes the rendering of a number of the
    caller is therefore stated for safe integers ([safe_integer]). *)
Fixpoint js_String (v : json) : string :=
  match v with
  | JUndefined => "undefined"
  | JNull => "null"
  | JBool true => "true"
  | JBool false => "false"
  | JNum n => pretty n
  | JStr s => s
  | JArr l =>
      String.concat ","
        (map (fun x => match x with
                       | JUndefined | JNull => EmptyString
                       | _ => js_String x
                       end) l)
  | JObj _ => "[object Object]"
  end.

(** What the JavaScript engine provides and the code only calls:
    [JSON.stringify(v, null, 2)] and the operators [*], [-] and [+]
    (on numbers, IEEE doubles in the engine). *)
Class JsEngine := {
  JSON_stringify : json -> string;
  js_mul : json -> json -> json;
  js_sub : json -> json -> json;
  js_add : json -> json -> json
}.

(** ** Errors *)

Inductive js_error : Type :=
| ZodError (issues : list json)
| McpError (code : Z) (message : string)
| JsError (message : string)
| TypeError (message : string)
| Thrown (v : json).

Definition ErrorCode_InvalidRequest : Z := -32600.
Definition ErrorCode_MethodNotFound : Z := -32601.

(** [error instanceof Error ? error.message : String(error)].  A
    [ZodError] renders its issues; an [McpError] prefixes its code. *)
Definition error_message `{JsEngine} (e : js_error) : string :=
  match e with
  | ZodError issues => JSON_stringify (JArr issues)
  | McpError code message => "MCP error " +:+ pretty code +:+ ": " +:+ message
  | JsError message => message
  | TypeError message => message
  | Thrown v => js_String v
  end.

(** ** Programs

    Code that may return, throw, or perform an effect of the signature
    [E] and go on with its answer. *)

Inductive outcome (A : Type) : Type :=
| Returned (a : A)
| Raised (e : js_error).

Arguments Returned {A} a.
Arguments Raised {A} e.

Inductive free (E : Type -> Type) (A : Type) : Type :=
| Ret (a : A)
| Throw (e : js_error)
| Vis {X : Type} (ev : E X) (k : X -> free E A).

Arguments Ret {E A} a.
Arguments Throw {E A} e.
Arguments Vis {E A X} ev k.

Fixpoint bind {E : Type -> Type} {A B : Type}
    (p : free E A) (f : A -> free E B) : free E B :=
  match p with
  | Ret a => f a
  | Throw e => Throw e
  | Vis ev k => Vis ev (fun x => bind (k x) f)
  end.

#[global] Instance free_ret {E} : MRet (free E) := fun A => @Ret E A.
#[global] Instance free_bind {E} : MBind (free E) := fun A B f p => bind p f.

(** [try { p } catch (e) { h e }] *)
Fixpoint try_catch {E : Type -> Type} {A : Type}
    (p : free E A) (h : js_error -> free E A) : free E A :=
  match p with
  | Ret a => Ret a
  | Throw e => h e
  | Vis ev k => Vis ev (fun x => try_catch (k x) h)
  end.

(** Run [p] to its end and hand what it returned or threw to [k]. *)
Fixpoint attempt {E : Type -> Type} {A B : Type}
    (p : free E A) (k : outcome A -> free E B) : free E B :=
  match p with
  | Ret a => k (Returned a)
  | Throw e => k (Raised e)
  | Vis ev c => Vis ev (fun x => attempt (c x) k)
  end.

(** *** The effects of [SqlProxy.execute]: the request-scoped store and
    the HTTP call *)

Record http_request := HttpRequest {
  url : string;
  x_api_key : string;
  sql : string;
  params : list json
}.

(** [axios.post] either rejects with an error carrying a message
    (network failure, non-2xx status) or resolves with [response.data]. *)
Inductive http_result : Type :=
| Rejected (message : string)
| Resolved (data : json).

Inductive netE : Type -> Type :=
| GetStore : netE (option string)
| AxiosPost (req : http_request) : netE http_result.

(** [storage.getStore()] and [await axios.post(...)] *)
Definition getStore : free netE (option string) := Vis GetStore Ret.
Definition axios_post (req : http_request) : free netE http_result :=
  Vis (AxiosPost req) Ret.

(** *** The effect of a tool handler: [pool.execute] *)

Inductive poolE : Type -> Type :=
| Execute (sql : string) (params : list json) : poolE (outcome (json * json)).

(** [await pool.execute(sql, params)]: the pair it resolves with, or
    the error it rejects with, thrown at the call site. *)
Definition pool_execute (sql : string) (params : list json)
    : free poolE (json * json) :=
  Vis (Execute sql params)
    (fun r => match r with
              | Returned v => Ret v
              | Raised e => Throw e
              end).

(** [v.k] on an arbitrary value: reading a property of [null] or
    [undefined] throws; the names read by the code are not properties of
    the built-in prototypes, so every other non-object reads
    [undefined]. *)
Definition get_prop {E : Type -> Type} (v : json) (k : string) : free E json :=
  match v with
  | JUndefined =>
      Throw (TypeError ("Cannot read properties of undefined (reading '" +:+ k +:+ "')"))
  | JNull =>
      Throw (TypeError ("Cannot read properties of null (reading '" +:+ k +:+ "')"))
  | JObj o => Ret (fld o k)
  | _ => Ret JUndefined
  end.

(** ** Running one request *)

(** The network: the answer to a request may depend on everything sent
    so far (the request itself is the last element). *)
Definition oracle : Type := list http_request -> http_result.

Fixpoint run_from {A : Type} (store : option string) (net : oracle)
    (p : free netE A) (log : list http_request)
    : outcome A * list http_request :=
  match p with
  | Ret a => (Returned a, log)
  | Throw e => (Raised e, log)
  | Vis ev k =>
      match ev in netE X
            return (X -> free netE A) -> outcome A * list http_request with
      | GetStore => fun k => run_from store net (k store) log
      | AxiosPost req => fun k =>
          let log' := log ++ [req] in
          run_from store net (k (net log')) log'
      end k
  end.

Definition run {A : Type} (store : option string) (net : oracle)
    (p : free netE A) : outcome A * list http_request :=
  run_from store net p [].

(** A line break inside a template literal. *)
Definition nl : string := String (Ascii.ascii_of_nat 10) EmptyString.

(** ** zod, as far as the handlers use it *)

Inductive ztype : Type :=
| ZString
| ZNumber
| ZAny
| ZEnum (options : list string)
| ZArray (elem : ztype).

(** A key of [z.object({...})]: plain, [.optional()] or [.default(d)]. *)
Inductive zfield : Type :=
| ZRequired (t : ztype)
| ZOptional (t : ztype)
| ZDefault (t : ztype) (d : json).

Definition zshape : Type := list (string * zfield).

Definition parsed_type (v : json) : string :=
  match v with
  | JUndefined => "undefined"
  | JNull => "null"
  | JBool _ => "boolean"
  | JNum _ => "number"
  | JStr _ => "string"
  | JArr _ => "array"
  | JObj _ => "object"
  end.

(** The issues of a [ZodError] are plain objects with a [path]. *)
Definition invalid_type (expected : string) (v : json) (path : list json) : json :=
  JObj (list_to_map
    [("code", JStr "invalid_type");
     ("expected", JStr expected);
     ("received", JStr (parsed_type v));
     ("path", JArr path);
     ("message",
      JStr (match v with
            | JUndefined => "Required"
            | _ => "Expected " +:+ expected +:+ ", received " +:+ parsed_type v
            end))]).

Definition enum_expected (options : list string) : string :=
  String.concat " | " (map (fun o => "'" +:+ o +:+ "'") options).

Definition invalid_enum_value (options : list string) (s : string)
    (path : list json) : json :=
  JObj (list_to_map
    [("received", JStr s);
     ("code", JStr "invalid_enum_value");
     ("options", JArr (map JStr options));
     ("path", JArr path);
     ("message",
      JStr ("Invalid enum value. Expected " +:+ enum_expected options
            +:+ ", received '" +:+ s +:+ "'"))]).

Definition issue_path (issue : json) : json :=
  match issue with JObj o => fld o "path" | _ => JUndefined end.

(** The issues a value raises against a type; none means it is accepted. *)
Fixpoint check_type (t : ztype) (path : list json) (v : json) : list json :=
  match t with
  | ZString => match v with JStr _ => [] | _ => [invalid_type "string" v path] end
  | ZNumber => match v with JNum _ => [] | _ => [invalid_type "number" v path] end
  | ZAny => []
  | ZEnum options =>
      match v with
      | JStr s =>
          if bool_decide (s ∈ options) then []
          else [invalid_enum_value options s path]
      | _ => [invalid_type (enum_expected options) v path]
      end
  | ZArray elem =>
      match v with
      | JArr l =>
          concat (imap (fun i x => check_type elem (path ++ [JNum (Z.of_nat i)]) x) l)
      | _ => [invalid_type "array" v path]
      end
  end.

Definition check_field (k : string) (f : zfield) (v : json) : list json :=
  match f with
  | ZRequired t => check_type t [JStr k] v
  | ZOptional t | ZDefault t _ =>
      match v with
      | JUndefined => []
      | _ => check_type t [JStr k] v
      end
  end.

Definition field_value (f : zfield) (v : json) : json :=
  match f, v with
  | ZDefault _ d, JUndefined => d
  | _, _ => v
  end.

Definition shape_issues (shape : zshape) (o : gmap string json) : list json :=
  concat (map (fun kf => check_field kf.1 kf.2 (fld o kf.1)) shape).

(** The parsed object: the keys of the shape only, defaults filled in. *)
Definition shape_output (shape : zshape) (o : gmap string json) : gmap string json :=
  list_to_map (map (fun kf => (kf.1, field_value kf.2 (fld o kf.1))) shape).

(** [z.object(shape).parse(args)] *)
Definition z_object_parse {E : Type -> Type} (shape : zshape) (args : json)
    : free E (gmap string json) :=
  match args with
  | JObj o =>
      match shape_issues shape o with
      | [] => Ret (shape_output shape o)
      | issues => Throw (ZodError issues)
      end
  | _ => Throw (ZodError [invalid_type "object" args []])
  end.

(** ** The advertised tools ([ListToolsRequestSchema]) *)

Inductive schema_type : Type :=
| TString
| TNumber
| TArray
| TStringEnum (options : list string).

Record tool := Tool {
  tool_name : string;
  properties : list (string * schema_type);
  required : list string
}.

Definition reception_config_types : list string :=
  ["call_purpose"; "complaint_type"; "enquiry_reference"; "enquiry_response";
   "visitor_purpose"].

Definition tools : list tool :=
  [ Tool "create_inquiry"
      [("name", TString); ("mobile_no", TString); ("father_name", TString);
       ("mother_name", TString); ("email", TString); ("address", TString);
       ("date", TString); ("note", TString); ("response", TString);
       ("class_id", TNumber); ("source", TString); ("status", TString)]
      ["name"; "mobile_no"; "date"];
    Tool "update_inquiry"
      [("id", TNumber); ("name", TString); ("mobile_no", TString);
       ("father_name", TString); ("mother_name", TString); ("email", TString);
       ("address", TString); ("response", TString); ("note", TString);
       ("status", TString)]
      ["id"];
    Tool "list_reception_configs"
      [("type", TStringEnum reception_config_types); ("branch_id", TNumber)]
      ["type"];
    Tool "create_reception_config"
      [("type", TStringEnum reception_config_types); ("name", TString);
       ("branch_id", TNumber)]
      ["type"; "name"];
    Tool "delete_reception_config"
      [("type", TStringEnum reception_config_types); ("id", TNumber)]
      ["type"; "id"];
    Tool "list_inquiries"
      [("branch_id", TNumber); ("limit", TNumber); ("offset", TNumber);
       ("search", TString); ("status", TString); ("source_id", TNumber);
       ("class_id", TNumber); ("start_date", TString); ("end_date", TString);
       ("created_by", TNumber)]
      [];
    Tool "create_homework"
      [("class_id", TNumber); ("section_id", TNumber); ("subject_id", TNumber);
       ("homework_date", TString); ("submission_date", TString);
       ("description", TString); ("sms_notification", TNumber);
       ("created_by", TNumber)]
      ["class_id"; "section_id"; "subject_id"; "homework_date";
       "submission_date"; "description"];
    Tool "create_product_category"
      [("name", TString); ("branch_id", TNumber)]
      ["name"; "branch_id"];
    Tool "create_product_unit"
      [("name", TString); ("branch_id", TNumber)]
      ["name"; "branch_id"];
    Tool "create_purchase"
      [("bill_no", TString); ("supplier_id", TNumber); ("store_id", TNumber);
       ("date", TString); ("remarks", TString); ("items", TArray);
       ("prepared_by", TNumber); ("branch_id", TNumber)]
      ["bill_no"; "supplier_id"; "store_id"; "date"; "items"] ].

Definition find_tool (name : string) : option tool :=
  find (fun t => String.eqb (tool_name t) name) tools.

(** ** Requests and results of [tools/call] *)

Record CallToolRequest := {
  name : string;
  arguments : json
}.

(** [{ content: [{ type: "text", text }], isError }]; a result without
    [isError] has it [false]. *)
Record CallToolResult := {
  text : string;
  isError : bool
}.

Definition text_result (t : string) : CallToolResult :=
  {| text := t; isError := false |}.

(** [v === n] for a number literal [n] *)
Definition is_number (v : json) (n : Z) : bool :=
  match v with JNum m => m =? n | _ => false end.

(** The elements of a value that validation has shown to be an array. *)
Definition array_items (v : json) : list json :=
  match v with JArr l => l | _ => [] end.

(** ** SqlProxy *)

Record SqlProxy := {
  apiUrl : string;
  defaultApiKey : string
}.

(** [storage.getStore() || this.defaultApiKey] *)
Definition resolve_api_key (store : option string) (fallback : string) : string :=
  match store with
  | Some k => if truthy (JStr k) then k else fallback
  | None => fallback
  end.

Section Server.

Context `{JsEngine}.

Definition SqlProxy_execute (pool : SqlProxy) (sql : string) (params : list json)
    : free netE (json * json) :=
  store ← getStore;
  let apiKey := resolve_api_key store (defaultApiKey pool) in
  try_catch
    (response ← axios_post
       {| url := apiUrl pool; x_api_key := apiKey; sql := sql; params := params |};
     match response with
     | Rejected message => Throw (JsError message)
     | Resolved data =>
         status ← get_prop data "status";
         if is_string status "error" then
           message ← get_prop data "message";
           Throw (JsError (js_String (js_or message (JStr "Unknown database error"))))
         else if is_array data then Ret (data, JArr [])
         else Ret (data, JUndefined)
     end)
    (fun error =>
       Throw (JsError ("Database operation failed: " +:+ error_message error))).

(** A handler runs with [pool.execute] bound to the proxy. *)
Fixpoint lower {A : Type} (pool : SqlProxy) (p : free poolE A) : free netE A :=
  match p with
  | Ret a => Ret a
  | Throw e => Throw e
  | Vis ev k =>
      match ev in poolE X return (X -> free poolE A) -> free netE A with
      | Execute sql params => fun k =>
          attempt (SqlProxy_execute pool sql params) (fun r => lower pool (k r))
      end k
  end.

(** *** Admission inquiries *)

Definition create_inquiry_shape : zshape :=
  [("name", ZRequired ZString); ("mobile_no", ZRequired ZString);
   ("date", ZRequired ZString); ("father_name", ZOptional ZString);
   ("mother_name", ZOptional ZString); ("email", ZOptional ZString);
   ("address", ZOptional ZString); ("note", ZOptional ZString);
   ("response", ZOptional ZString); ("class_id", ZOptional ZNumber);
   ("source", ZOptional ZString); ("status", ZOptional ZString)].

Definition create_inquiry_sql : string :=
  "INSERT INTO enquiry " +:+ nl +:+
  "          (name, mobile_no, date, father_name, mother_name, email, address, note, response, class_id, reference_id, status, branch_id, created_by, created_at)" +:+ nl +:+
  "          VALUES (?, ?, ?, ?, ?, ?, ?, ?, ?, ?, ?, ?, ?, ?, NOW())".

Definition create_inquiry (args : json) : free poolE CallToolResult :=
  parsed ← z_object_parse create_inquiry_shape args;
  '(result, _) ← pool_execute create_inquiry_sql
    [fld parsed "name";
     fld parsed "mobile_no";
     fld parsed "date";
     js_or (fld parsed "father_name") JNull;
     js_or (fld parsed "mother_name") JNull;
     js_or (fld parsed "email") JNull;
     js_or (fld parsed "address") JNull;
     js_or (fld parsed "note") JNull;
     js_or (fld parsed "response") JNull;
     js_or (fld parsed "class_id") JNull;
     js_or (fld parsed "source") JNull;
     js_or (fld parsed "status") (JStr "active");
     JNum 1;
     JNum 1];
  insertId ← get_prop result "insertId";
  Ret (text_result ("Inquiry created successfully. ID: " +:+ js_String insertId)).

Definition update_inquiry_shape : zshape :=
  [("id", ZRequired ZNumber); ("name", ZOptional ZString);
   ("mobile_no", ZOptional ZString); ("father_name", ZOptional ZString);
   ("mother_name", ZOptional ZString); ("email", ZOptional ZString);
   ("address", ZOptional ZString); ("response", ZOptional ZString);
   ("note", ZOptional ZString); ("status", ZOptional ZString)].

(** [if (parsed.f) { updates.push("f = ?"); values.push(parsed.f); }] *)
Definition push_if_set (parsed : gmap string json) (f : string)
    (acc : list string * list json) : list string * list json :=
  if truthy (fld parsed f)
  then (acc.1 ++ [f +:+ " = ?"], acc.2 ++ [fld parsed f])
  else acc.

(** The arrays [updates] and [values] once the handler has gone through
    its [if]s and pushed the timestamp clause. *)
Definition update_inquiry_clauses (parsed : gmap string json)
    : list string * list json :=
  let acc := ([], []) in
  let acc := push_if_set parsed "name" acc in
  let acc := push_if_set parsed "mobile_no" acc in
  let acc := push_if_set parsed "father_name" acc in
  let acc := push_if_set parsed "mother_name" acc in
  let acc := push_if_set parsed "email" acc in
  let acc := push_if_set parsed "address" acc in
  let acc := push_if_set parsed "response" acc in
  let acc := push_if_set parsed "note" acc in
  (acc.1 ++ ["updated_at = NOW()"], acc.2).

Definition update_inquiry_sql (updates : list string) : string :=
  "UPDATE enquiry SET " +:+ String.concat ", " updates +:+ " WHERE id = ?".

Definition update_inquiry (args : json) : free poolE CallToolResult :=
  parsed ← z_object_parse update_inquiry_shape args;
  let '(updates, values) := update_inquiry_clauses parsed in
  if (length updates <=? 1)%nat then
    Ret (text_result "No fields to update provided.")
  else
    let values := values ++ [fld parsed "id"] in
    '(result, _) ← pool_execute (update_inquiry_sql updates) values;
    affectedRows ← get_prop result "affectedRows";
    if is_number affectedRows 0 then
      Throw (McpError ErrorCode_InvalidRequest
               ("Inquiry with ID " +:+ js_String (fld parsed "id") +:+ " not found"))
    else
      Ret (text_result
             ("Inquiry " +:+ js_String (fld parsed "id") +:+ " updated successfully.")).

Definition list_inquiries_shape : zshape :=
  [("branch_id", ZOptional ZNumber); ("limit", ZDefault ZNumber (JNum 50));
   ("offset", ZDefault ZNumber (JNum 0)); ("search", ZOptional ZString);
   ("status", ZOptional ZString); ("source_id", ZOptional ZNumber);
   ("class_id", ZOptional ZNumber); ("start_date", ZOptional ZString);
   ("end_date", ZOptional ZString); ("created_by", ZOptional ZNumber)].

Definition list_inquiries_base : string :=
  "SELECT e.*, c.name as class_name, er.name as source_name, resp.name as status_name " +:+ nl +:+
  "                             FROM enquiry e " +:+ nl +:+
  "                             LEFT JOIN class c ON e.class_id = c.id " +:+ nl +:+
  "                             LEFT JOIN enquiry_reference er ON e.reference_id = er.id " +:+ nl +:+
  "                             LEFT JOIN enquiry_response resp ON e.response = resp.id" +:+ nl +:+
  "                             WHERE 1=1".

(** [if (parsed.f) { query += clause; params.push(...vals); }] *)
Definition filter_if_set (v : json) (clause : string) (vals : list json)
    (acc : string * list json) : string * list json :=
  if truthy v then (acc.1 +:+ clause, acc.2 ++ vals) else acc.

(** [`%${s}%`] *)
Definition like_pattern (s : json) : json :=
  JStr ("%" +:+ js_String s +:+ "%").

Definition list_inquiries_order : string :=
  " ORDER BY e.date DESC, e.id DESC LIMIT ? OFFSET ?".

(** [query] and [params] as handed to [pool.execute]. *)
Definition list_inquiries_query (parsed : gmap string json) : string * list json :=
  let acc := (list_inquiries_base, []) in
  let acc := filter_if_set (fld parsed "branch_id")
               " AND e.branch_id = ?" [fld parsed "branch_id"] acc in
  let acc := filter_if_set (fld parsed "search")
               " AND (e.name LIKE ? OR e.mobile_no LIKE ? OR e.father_name LIKE ?)"
               [like_pattern (fld parsed "search"); like_pattern (fld parsed "search");
                like_pattern (fld parsed "search")] acc in
  let acc := filter_if_set (fld parsed "status")
               " AND e.status = ?" [fld parsed "status"] acc in
  let acc := filter_if_set (fld parsed "source_id")
               " AND e.reference_id = ?" [fld parsed "source_id"] acc in
  let acc := filter_if_set (fld parsed "class_id")
               " AND e.class_id = ?" [fld parsed "class_id"] acc in
  let acc := filter_if_set (fld parsed "start_date")
               " AND e.date >= ?" [fld parsed "start_date"] acc in
  let acc := filter_if_set (fld parsed "end_date")
               " AND e.date <= ?" [fld parsed "end_date"] acc in
  let acc := filter_if_set (fld parsed "created_by")
               " AND e.created_by = ?" [fld parsed "created_by"] acc in
  (acc.1 +:+ list_inquiries_order,
   acc.2 ++ [fld parsed "limit"; fld parsed "offset"]).

Definition list_inquiries (args : json) : free poolE CallToolResult :=
  parsed ← z_object_parse list_inquiries_shape args;
  let '(query, params) := list_inquiries_query parsed in
  '(rows, _) ← pool_execute query params;
  Ret (text_result (JSON_stringify rows)).

(** *** Inventory *)

Definition create_product_category_shape : zshape :=
  [("name", ZRequired ZString); ("branch_id", ZOptional ZNumber)].

Definition create_product_category (args : json) : free poolE CallToolResult :=
  parsed ← z_object_parse create_product_category_shape args;
  let branch_id := js_or (fld parsed "branch_id") (JNum 1) in
  '(result, _) ← pool_execute
    "INSERT INTO product_category (name, branch_id) VALUES (?, ?)"
    [fld parsed "name"; branch_id];
  insertId ← get_prop result "insertId";
  Ret (text_result ("Product category created. ID: " +:+ js_String insertId)).

Definition create_product_unit (args : json) : free poolE CallToolResult :=
  parsed ← z_object_parse create_product_category_shape args;
  let branch_id := js_or (fld parsed "branch_id") (JNum 1) in
  '(result, _) ← pool_execute
    "INSERT INTO product_unit (name, branch_id) VALUES (?, ?)"
    [fld parsed "name"; branch_id];
  insertId ← get_prop result "insertId";
  Ret (text_result ("Product unit created. ID: " +:+ js_String insertId)).

Definition create_purchase_shape : zshape :=
  [("bill_no", ZRequired ZString); ("supplier_id", ZRequired ZNumber);
   ("store_id", ZRequired ZNumber); ("date", ZRequired ZString);
   ("remarks", ZOptional ZString); ("items", ZRequired (ZArray ZAny));
   ("prepared_by", ZOptional ZNumber); ("branch_id", ZOptional ZNumber)].

(** [(item.quantity * item.unit_price) - (item.discount || 0)] *)
Definition item_subtotal (item : json) : free poolE json :=
  quantity ← get_prop item "quantity";
  unit_price ← get_prop item "unit_price";
  discount ← get_prop item "discount";
  Ret (js_sub (js_mul quantity unit_price) (js_or discount (JNum 0))).

(** The first loop: [total += subtotal] over the items. *)
Fixpoint purchase_total (items : list json) (total : json) : free poolE json :=
  match items with
  | [] => Ret total
  | item :: rest =>
      subtotal ← item_subtotal item;
      purchase_total rest (js_add total subtotal)
  end.

Definition purchase_bill_sql : string :=
  "INSERT INTO purchase_bill (bill_no, supplier_id, store_id, date, remarks, total, discount, paid, due, payment_status, purchase_status, prepared_by, branch_id) " +:+ nl +:+
  "         VALUES (?, ?, ?, ?, ?, ?, 0, 0, ?, 1, 1, ?, ?)".

Definition purchase_detail_sql : string :=
  "INSERT INTO purchase_bill_details (purchase_bill_id, product_id, unit_price, quantity, discount, sub_total) VALUES (?, ?, ?, ?, ?, ?)".

Definition stock_increment_sql : string :=
  "UPDATE product SET available_stock = available_stock + ? WHERE id = ?".

(** The second loop: per item, the detail row and then the stock. *)
Fixpoint purchase_details (billId : json) (items : list json) : free poolE unit :=
  match items with
  | [] => Ret ()
  | item :: rest =>
      subtotal ← item_subtotal item;
      product_id ← get_prop item "product_id";
      unit_price ← get_prop item "unit_price";
      quantity ← get_prop item "quantity";
      discount ← get_prop item "discount";
      _ ← pool_execute purchase_detail_sql
            [billId; product_id; unit_price; quantity; js_or discount (JNum 0);
             subtotal];
      _ ← pool_execute stock_increment_sql [quantity; product_id];
      purchase_details billId rest
  end.

Definition create_purchase (args : json) : free poolE CallToolResult :=
  parsed ← z_object_parse create_purchase_shape args;
  let branch_id := js_or (fld parsed "branch_id") (JNum 1) in
  let items := array_items (fld parsed "items") in
  total ← purchase_total items (JNum 0);
  '(billResult, _) ← pool_execute purchase_bill_sql
    [fld parsed "bill_no"; fld parsed "supplier_id"; fld parsed "store_id";
     fld parsed "date"; js_or (fld parsed "remarks") (JStr EmptyString);
     total; total; js_or (fld parsed "prepared_by") (JNum 1); branch_id];
  billId ← get_prop billResult "insertId";
  _ ← purchase_details billId items;
  Ret (text_result ("Purchase order created. Bill ID: " +:+ js_String billId)).

(** *** Reception configuration *)

Definition list_reception_configs (args : json) : free poolE CallToolResult :=
  parsed ← z_object_parse
    [("type", ZRequired (ZEnum reception_config_types));
     ("branch_id", ZOptional ZNumber)] args;
  let acc := ("SELECT id, name FROM " +:+ js_String (fld parsed "type"), []) in
  let '(query, params) :=
    filter_if_set (fld parsed "branch_id") " WHERE branch_id = ?"
      [fld parsed "branch_id"] acc in
  '(rows, _) ← pool_execute query params;
  Ret (text_result (JSON_stringify rows)).

Definition create_reception_config (args : json) : free poolE CallToolResult :=
  parsed ← z_object_parse
    [("type", ZRequired (ZEnum reception_config_types));
     ("name", ZRequired ZString);
     ("branch_id", ZOptional ZNumber)] args;
  let branch_id := js_or (fld parsed "branch_id") (JNum 1) in
  '(result, _) ← pool_execute
    ("INSERT INTO " +:+ js_String (fld parsed "type") +:+ " (name, branch_id) VALUES (?, ?)")
    [fld parsed "name"; branch_id];
  insertId ← get_prop result "insertId";
  Ret (text_result
         ("Configuration added to " +:+ js_String (fld parsed "type") +:+ ". ID: "
          +:+ js_String insertId)).

Definition delete_reception_config (args : json) : free poolE CallToolResult :=
  parsed ← z_object_parse
    [("type", ZRequired (ZEnum reception_config_types));
     ("id", ZRequired ZNumber)] args;
  _ ← pool_execute
    ("DELETE FROM " +:+ js_String (fld parsed "type") +:+ " WHERE id = ?")
    [fld parsed "id"];
  Ret (text_result
         ("Configuration " +:+ js_String (fld parsed "id") +:+ " deleted from "
          +:+ js_String (fld parsed "type") +:+ ".")).

(** *** The [switch] and its [try]/[catch] *)

(** The cases of the [switch] that are modelled, in source order. *)
Definition cases : list (string * (json -> free poolE CallToolResult)) :=
  [("create_inquiry", create_inquiry);
   ("update_inquiry", update_inquiry);
   ("list_inquiries", list_inquiries);
   ("create_product_category", create_product_category);
   ("create_product_unit", create_product_unit);
   ("create_purchase", create_purchase);
   ("list_reception_configs", list_reception_configs);
   ("create_reception_config", create_reception_config);
   ("delete_reception_config", delete_reception_config)].

(** The remaining cases of the [switch]: an arbitrary table of
    handlers, each free to send requests and to throw. *)
Variable other_cases : string -> option (json -> free poolE CallToolResult).

Definition find_case (name : string) : option (json -> free poolE CallToolResult) :=
  match find (fun c => String.eqb c.1 name) cases with
  | Some c => Some c.2
  | None => other_cases name
  end.

Definition dispatch (name : string) (args : json) : free poolE CallToolResult :=
  match find_case name with
  | Some handler => handler args
  | None => Throw (McpError ErrorCode_MethodNotFound ("Unknown tool: " +:+ name))
  end.

(** [server.setRequestHandler(CallToolRequestSchema, ...)] *)
Definition call_tool (request : CallToolRequest) : free poolE CallToolResult :=
  let name := name request in
  let args := arguments request in
  try_catch (dispatch name args)
    (fun error =>
       let errorMessage := error_message error in
       Ret {| text := "Error: " +:+ errorMessage; isError := true |}).

End Server.

(** ** The [/messages] endpoint and requests in flight

    Node runs one task at a time, up to its next [await]; tasks of
    different requests interleave at those points.  [AsyncLocalStorage]
    keeps one store per asynchronous context: [storage.run(store, f)]
    starts [f] in a context bound to [store], and whenever the event
    loop resumes a continuation it first restores the context the
    continuation was created in. *)

Inductive task_state : Type :=
| Ready (p : free netE CallToolResult)
| Awaiting (k : http_result -> free netE CallToolResult)
| Finished (o : outcome CallToolResult).

Record task := {
  context : option string;
  state : task_state
}.

Record server := {
  current_store : option string;
  tasks : list task;
  outbox : list (nat * http_request)
}.

(** A task runs until it returns, throws, or awaits the HTTP response;
    [getStore] reads the store of the context that is current. *)
Fixpoint advance (current : option string) (p : free netE CallToolResult)
    : task_state * list http_request :=
  match p with
  | Ret a => (Finished (Returned a), [])
  | Throw e => (Finished (Raised e), [])
  | Vis ev k =>
      match ev in netE X
            return (X -> free netE CallToolResult) -> task_state * list http_request with
      | GetStore => fun k => advance current (k current)
      | AxiosPost req => fun k => (Awaiting k, [req])
      end k
  end.

(** The event loop enters the asynchronous context of the continuation
    it is about to run. *)
Definition enter (store : option string) (s : server) : server :=
  {| current_store := store; tasks := tasks s; outbox := outbox s |}.

(** One turn of the event loop: task [i] is resumed in its own context,
    with [response] if it was awaiting one.  The requests it sends are
    recorded with the index of the task that sent them. *)
Definition resume (i : nat) (response : http_result) (s : server) : server :=
  match tasks s !! i with
  | None => s
  | Some t =>
      let s := enter (context t) s in
      let next :=
        match state t with
        | Ready p => Some (advance (current_store s) p)
        | Awaiting k => Some (advance (current_store s) (k response))
        | Finished _ => None
        end in
      match next with
      | None => s
      | Some (st, sent) =>
          {| current_store := current_store s;
             tasks := <[i := {| context := context t; state := st |}]> (tasks s);
             outbox := outbox s ++ map (pair i) sent |}
      end
  end.

Definition serve (schedule : list (nat * http_result)) (s : server) : server :=
  foldl (fun s turn => resume turn.1 turn.2 s) s schedule.

Section Endpoint.

Context `{JsEngine}.
Variable pool : SqlProxy.
Variable other_cases : string -> option (json -> free poolE CallToolResult).

(** A [tools/call] request served outside any endpoint: the handler
    bound to the proxy. *)
Definition handle (request : CallToolRequest) : free netE CallToolResult :=
  lower pool (call_tool other_cases request).

(** [app.post('/messages')] with a transport connected:
    [storage.run(apiKey, ...)] around the handling of the message, where
    [apiKey] is [req.query.api_key]. *)
Definition post_messages (apiKey : option string) (request : CallToolRequest)
    : task :=
  {| context := apiKey; state := Ready (handle request) |}.

Definition two_requests (keyA keyB : option string)
    (requestA requestB : CallToolRequest) : server :=
  {| current_store := None;
     tasks := [post_messages keyA requestA; post_messages keyB requestB];
     outbox := [] |}.

End Endpoint.

(** ** Stored rows

    The relational engine is not part of this code.  What an
    [UPDATE <table> SET c1, c2, ... WHERE id = ?] does to the row it
    applies to is read off the text of the statement itself: the SET
    list is the text between "UPDATE <table> SET " and " WHERE id = ?",
    cut at every ", "; its assignments take effect from left to right,
    [col = ?] storing the next bound value in [col] and [col = NOW()]
    the clock; the one value left over is that of [WHERE id = ?].  A
    text of another form, a clause of another form or a number of
    values that does not fit is given no meaning ([None]). *)

Definition strip_suffix (suffix s : string) : option string :=
  let n := (String.length s - String.length suffix)%nat in
  if (String.length suffix <=? String.length s)%nat
     && String.eqb (String.substring n (String.length suffix) s) suffix
  then Some (String.substring 0 n s)
  else None.

Definition strip_prefix (prefix s : string) : option string :=
  if String.prefix prefix s
  then Some (String.substring (String.length prefix)
               (String.length s - String.length prefix) s)
  else None.

(** The pieces of [s] between the occurrences of [sep], read from the
    left; [skip] counts the characters of a separator still to pass and
    [piece] is the piece read so far. *)
Fixpoint split_on (sep s : string) (skip : nat) (piece : string) : list string :=
  match s with
  | EmptyString => [piece]
  | String c rest =>
      match skip with
      | S k => split_on sep rest k piece
      | O =>
          if String.prefix sep s
          then piece :: split_on sep rest (String.length sep - 1) EmptyString
          else split_on sep rest 0 (piece +:+ String c EmptyString)
      end
  end.

(** A column name: lower-case letters, digits and underscores. *)
Definition is_column_char (c : Ascii.ascii) : bool :=
  let n := Ascii.nat_of_ascii c in
  ((97 <=? n) && (n <=? 122) || (48 <=? n) && (n <=? 57) || (n =? 95))%nat.

Definition is_column (s : string) : bool :=
  negb (String.eqb s EmptyString) && forallb is_column_char (String.list_ascii_of_string s).

(** An assignment of a SET list: [col = ?] or [col = NOW()]. *)
Inductive assignment : Type :=
| Bound (column : string)
| Clock (column : string).

#[global] Instance assignment_eq_dec : EqDecision assignment.
Proof. solve_decision. Defined.

Definition assigned_column (a : assignment) : string :=
  match a with Bound column | Clock column => column end.

Definition read_clause (clause : string) : option assignment :=
  match strip_suffix " = NOW()" clause with
  | Some col => if is_column col then Some (Clock col) else None
  | None =>
      match strip_suffix " = ?" clause with
      | Some col => if is_column col then Some (Bound col) else None
      | None => None
      end
  end.

(** The SET list of the text of an UPDATE of [table] by id. *)
Definition set_list (table text : string) : option (list assignment) :=
  rest ← strip_prefix ("UPDATE " +:+ table +:+ " SET ") text;
  body ← strip_suffix " WHERE id = ?" rest;
  mapM read_clause (split_on ", " body 0 EmptyString).

(** The columns the text assigns, in the order of its SET list. *)
Definition assigned_columns (table text : string) : option (list string) :=
  map assigned_column <$> set_list table text.

(** One assignment, on the row and the values not yet used. *)
Definition assign (now : json) (a : assignment)
    (acc : gmap string json * list json) : option (gmap string json * list json) :=
  match a, acc.2 with
  | Clock col, _ => Some (<[col := now]> acc.1, acc.2)
  | Bound col, v :: rest => Some (<[col := v]> acc.1, rest)
  | Bound _, [] => None
  end.

Definition assign_all (now : json) (assignments : list assignment)
    (acc : gmap string json * list json) : option (gmap string json * list json) :=
  foldl (fun acc a => acc ≫= assign now a) (Some acc) assignments.

(** The row after the statement [text] with the bound [values], run at
    the time [now] on the [row] its [WHERE id = ?] selects. *)
Definition update_row (table : string) (now : json) (text : string)
    (values : list json) (row : gmap string json) : option (gmap string json) :=
  assignments ← set_list table text;
  acc ← assign_all now assignments (row, values);
  match acc.2 with
  | [_] => Some acc.1
  | _ => None
  end.

(** [word] occurs in [text]. *)
Fixpoint mentions (word text : string) : bool :=
  String.prefix word text ||
  match text with
  | EmptyString => false
  | String _ rest => mentions word rest
  end.

(** ** More of the server

    The resource handlers, further cases of the [switch] (admission
    inquiries, accounting, call logs, inventory, fees, students) and the
    routes of the express application. *)

(** [v !== undefined] *)
Definition is_defined (v : json) : bool :=
  match v with JUndefined => false | _ => true end.

(** *** Resources ([ListResourcesRequestSchema], [ReadResourceRequestSchema]) *)

Record resource := {
  resource_uri : string;
  resource_name : string;
  resource_description : string;
  resource_mimeType : string
}.

Definition list_resources : list resource :=
  [ {| resource_uri := "inquiries://list";
       resource_name := "Admission Inquiries";
       resource_description := "List of all admission inquiries";
       resource_mimeType := "application/json" |};
    {| resource_uri := "staff://list";
       resource_name := "Staff Members";
       resource_description := "List of all staff members";
       resource_mimeType := "application/json" |};
    {| resource_uri := "students://list";
       resource_name := "Students";
       resource_description := "List of all enrolled students";
       resource_mimeType := "application/json" |} ].

(** [{ contents: [{ uri, mimeType, text }] }] *)
Record ReadResourceResult := {
  contents_uri : string;
  contents_mimeType : string;
  contents_text : string
}.

(** The [if]/[else if] chain that picks the query of a resource. *)
Definition resource_query {E : Type -> Type} (uri : string) : free E string :=
  if String.eqb uri "inquiries://list" then Ret "SELECT * FROM enquiry LIMIT 100"
  else if String.eqb uri "staff://list" then Ret "SELECT * FROM staff LIMIT 100"
  else if String.eqb uri "students://list" then Ret "SELECT * FROM student LIMIT 100"
  else Throw (McpError ErrorCode_InvalidRequest ("Unknown resource: " +:+ uri)).

(** [ids.map(() => '?').join(',')] *)
Definition placeholders (ids : list json) : string :=
  String.concat "," (map (fun _ => "?") ids).

(** [if (parsed.f !== undefined) { updates.push("f = ?"); values.push(parsed.f); }] *)
Definition push_if_defined (parsed : gmap string json) (f : string)
    (acc : list string * list json) : list string * list json :=
  if is_defined (fld parsed f)
  then (acc.1 ++ [f +:+ " = ?"], acc.2 ++ [fld parsed f])
  else acc.

(** The declaration of [create_student] in [ListToolsRequestSchema]. *)
Definition create_student_tool : tool :=
  Tool "create_student"
    [("first_name", TString); ("last_name", TString); ("register_no", TString);
     ("admission_date", TString); ("gender", TString); ("birthday", TString);
     ("mobileno", TString); ("email", TString); ("parent_id", TNumber);
     ("branch_id", TNumber); ("class_id", TNumber); ("section_id", TNumber);
     ("category_id", TNumber); ("religion", TString); ("caste", TString);
     ("blood_group", TString); ("current_address", TString);
     ("permanent_address", TString)]
    ["first_name"; "last_name"; "register_no"; "class_id"; "section_id"].

(** [if (parsed.f) { updates.push("c = ?"); params.push(parsed.f); }]
    where the column [c] is not named like the key [f] *)
Definition push_column_if_set (parsed : gmap string json) (f column : string)
    (acc : list string * list json) : list string * list json :=
  if truthy (fld parsed f)
  then (acc.1 ++ [column +:+ " = ?"], acc.2 ++ [fld parsed f])
  else acc.

Section MoreOfTheServer.

Context `{JsEngine}.

(** [server.setRequestHandler(ReadResourceRequestSchema, ...)]; there is
    no [try]/[catch] around it. *)
Definition read_resource (uri : string) : free poolE ReadResourceResult :=
  query ← resource_query uri;
  '(rows, _) ← pool_execute query [];
  Ret {| contents_uri := uri;
         contents_mimeType := "application/json";
         contents_text := JSON_stringify rows |}.

(** *** Admission inquiries, continued *)

Definition bulk_delete_inquiries (args : json) : free poolE CallToolResult :=
  parsed ← z_object_parse [("ids", ZRequired (ZArray ZNumber))] args;
  let ids := array_items (fld parsed "ids") in
  if (length ids =? 0)%nat then
    Ret (text_result "No IDs provided for deletion.")
  else
    _ ← pool_execute
          ("DELETE FROM enquiry_follow_up WHERE enquiry_id IN (" +:+ placeholders ids +:+ ")")
          ids;
    '(result, _) ← pool_execute
          ("DELETE FROM enquiry WHERE id IN (" +:+ placeholders ids +:+ ")")
          ids;
    affectedRows ← get_prop result "affectedRows";
    Ret (text_result (js_String affectedRows +:+ " inquiries deleted successfully.")).

Definition list_inquiry_sources (args : json) : free poolE CallToolResult :=
  parsed ← z_object_parse [("branch_id", ZOptional ZNumber)] args;
  '(rows, _) ← pool_execute "SELECT * FROM enquiry_reference WHERE branch_id = ?"
                 [js_or (fld parsed "branch_id") (JNum 1)];
  Ret (text_result (JSON_stringify rows)).

Definition list_inquiry_statuses (args : json) : free poolE CallToolResult :=
  parsed ← z_object_parse [("branch_id", ZOptional ZNumber)] args;
  '(rows, _) ← pool_execute "SELECT * FROM enquiry_response WHERE branch_id = ?"
                 [js_or (fld parsed "branch_id") (JNum 1)];
  Ret (text_result (JSON_stringify rows)).

Definition delete_inquiry (args : json) : free poolE CallToolResult :=
  parsed ← z_object_parse [("id", ZRequired ZNumber)] args;
  let id := fld parsed "id" in
  _ ← pool_execute "DELETE FROM enquiry_follow_up WHERE enquiry_id = ?" [id];
  '(result, _) ← pool_execute "DELETE FROM enquiry WHERE id = ?" [id];
  affectedRows ← get_prop result "affectedRows";
  if is_number affectedRows 0 then
    Throw (McpError ErrorCode_InvalidRequest
             ("Inquiry with ID " +:+ js_String id +:+ " not found"))
  else
    Ret (text_result ("Inquiry " +:+ js_String id +:+ " deleted successfully.")).

Definition create_inquiry_follow_up_shape : zshape :=
  [("enquiry_id", ZRequired ZNumber); ("date", ZRequired ZString);
   ("next_date", ZOptional ZString); ("response", ZOptional ZString);
   ("note", ZOptional ZString); ("status", ZOptional ZString)].

Definition create_inquiry_follow_up_sql : string :=
  "INSERT INTO enquiry_follow_up " +:+ nl +:+
  "                     (enquiry_id, date, next_date, response, note, status, created_at)" +:+ nl +:+
  "                     VALUES (?, ?, ?, ?, ?, ?, NOW())".

Definition create_inquiry_follow_up (args : json) : free poolE CallToolResult :=
  parsed ← z_object_parse create_inquiry_follow_up_shape args;
  '(result, _) ← pool_execute create_inquiry_follow_up_sql
    [fld parsed "enquiry_id";
     fld parsed "date";
     js_or (fld parsed "next_date") JNull;
     js_or (fld parsed "response") JNull;
     js_or (fld parsed "note") JNull;
     js_or (fld parsed "status") JNull];
  insertId ← get_prop result "insertId";
  Ret (text_result ("Follow-up created. ID: " +:+ js_String insertId)).

Definition list_inquiry_follow_ups (args : json) : free poolE CallToolResult :=
  parsed ← z_object_parse [("enquiry_id", ZRequired ZNumber)] args;
  '(rows, _) ← pool_execute
                 "SELECT * FROM enquiry_follow_up WHERE enquiry_id = ? ORDER BY date DESC"
                 [fld parsed "enquiry_id"];
  Ret (text_result (JSON_stringify rows)).

(** *** Accounting *)

Definition list_transactions_shape : zshape :=
  [("type", ZOptional ZString); ("start_date", ZOptional ZString);
   ("end_date", ZOptional ZString); ("limit", ZOptional ZNumber)].

Definition list_transactions_base : string :=
  "SELECT t.*, v.name as voucher_name FROM transactions t LEFT JOIN voucher_head v ON t.voucher_head_id = v.id WHERE 1=1".

(** [query] and [params] as handed to [pool.execute]. *)
Definition list_transactions_query (parsed : gmap string json) : string * list json :=
  let acc := (list_transactions_base, []) in
  let acc := filter_if_set (fld parsed "type") " AND t.type = ?" [fld parsed "type"] acc in
  let acc := filter_if_set (fld parsed "start_date")
               " AND t.date >= ?" [fld parsed "start_date"] acc in
  let acc := filter_if_set (fld parsed "end_date")
               " AND t.date <= ?" [fld parsed "end_date"] acc in
  let acc := (acc.1 +:+ " ORDER BY t.date DESC, t.id DESC", acc.2) in
  if truthy (fld parsed "limit")
  then (acc.1 +:+ " LIMIT ?", acc.2 ++ [fld parsed "limit"])
  else (acc.1 +:+ " LIMIT 50", acc.2).

Definition list_transactions (args : json) : free poolE CallToolResult :=
  parsed ← z_object_parse list_transactions_shape args;
  let '(query, params) := list_transactions_query parsed in
  '(rows, _) ← pool_execute query params;
  Ret (text_result (JSON_stringify rows)).

(** *** Call logs *)

Definition delete_call_log (args : json) : free poolE CallToolResult :=
  parsed ← z_object_parse [("id", ZRequired ZNumber)] args;
  let id := fld parsed "id" in
  _ ← pool_execute "DELETE FROM call_log WHERE id = ?" [id];
  Ret (text_result ("Call log " +:+ js_String id +:+ " deleted.")).

(** *** Inventory, continued *)

Definition create_product_issue_shape : zshape :=
  [("role_id", ZRequired ZNumber); ("user_id", ZRequired ZNumber);
   ("date_of_issue", ZRequired ZString); ("due_date", ZOptional ZString);
   ("remarks", ZOptional ZString); ("items", ZRequired (ZArray ZAny));
   ("prepared_by", ZOptional ZNumber); ("branch_id", ZOptional ZNumber)].

Definition product_issue_sql : string :=
  "INSERT INTO product_issues (role_id, user_id, date_of_issue, due_date, remarks, prepared_by, status, branch_id) " +:+ nl +:+
  "         VALUES (?, ?, ?, ?, ?, ?, 0, ?)".

Definition product_issue_detail_sql : string :=
  "INSERT INTO product_issues_details (issues_id, product_id, quantity) VALUES (?, ?, ?)".

Definition stock_decrement_sql : string :=
  "UPDATE product SET available_stock = available_stock - ? WHERE id = ?".

(** The loop: per item, the detail row and then the stock. *)
Fixpoint issue_details (issueId : json) (items : list json) : free poolE unit :=
  match items with
  | [] => Ret ()
  | item :: rest =>
      product_id ← get_prop item "product_id";
      quantity ← get_prop item "quantity";
      _ ← pool_execute product_issue_detail_sql [issueId; product_id; quantity];
      quantity' ← get_prop item "quantity";
      product_id' ← get_prop item "product_id";
      _ ← pool_execute stock_decrement_sql [quantity'; product_id'];
      issue_details issueId rest
  end.

Definition create_product_issue (args : json) : free poolE CallToolResult :=
  parsed ← z_object_parse create_product_issue_shape args;
  let branch_id := js_or (fld parsed "branch_id") (JNum 1) in
  '(issueResult, _) ← pool_execute product_issue_sql
    [fld parsed "role_id"; fld parsed "user_id"; fld parsed "date_of_issue";
     js_or (fld parsed "due_date") JNull;
     js_or (fld parsed "remarks") (JStr EmptyString);
     js_or (fld parsed "prepared_by") (JNum 1); branch_id];
  issueId ← get_prop issueResult "insertId";
  _ ← issue_details issueId (array_items (fld parsed "items"));
  Ret (text_result ("Product issue created. Issue ID: " +:+ js_String issueId)).

(** *** Fees *)

Definition update_fee_payment_shape : zshape :=
  [("id", ZRequired ZNumber); ("amount", ZOptional ZNumber);
   ("discount", ZOptional ZNumber); ("fine", ZOptional ZNumber);
   ("date", ZOptional ZString); ("remarks", ZOptional ZString)].

(** The arrays [updates] and [values] once the handler has gone through
    its [if]s. *)
Definition update_fee_payment_clauses (parsed : gmap string json)
    : list string * list json :=
  let acc := ([], []) in
  let acc := push_if_defined parsed "amount" acc in
  let acc := push_if_defined parsed "discount" acc in
  let acc := push_if_defined parsed "fine" acc in
  let acc := push_if_set parsed "date" acc in
  let acc := push_if_set parsed "remarks" acc in
  acc.

Definition update_fee_payment_sql (updates : list string) : string :=
  "UPDATE fee_payment_history SET " +:+ String.concat ", " updates +:+ " WHERE id = ?".

Definition update_fee_payment (args : json) : free poolE CallToolResult :=
  parsed ← z_object_parse update_fee_payment_shape args;
  let '(updates, values) := update_fee_payment_clauses parsed in
  if (0 <? length updates)%nat then
    let values := values ++ [fld parsed "id"] in
    _ ← pool_execute (update_fee_payment_sql updates) values;
    Ret (text_result ("Payment record " +:+ js_String (fld parsed "id") +:+ " updated."))
  else
    Ret (text_result "No updates provided.").

(** *** Students *)

Definition create_student_shape : zshape :=
  [("first_name", ZRequired ZString); ("last_name", ZRequired ZString);
   ("register_no", ZRequired ZString); ("admission_date", ZRequired ZString);
   ("gender", ZOptional ZString); ("birthday", ZOptional ZString);
   ("mobileno", ZOptional ZString); ("email", ZOptional ZString);
   ("parent_id", ZOptional ZNumber); ("branch_id", ZOptional ZNumber);
   ("class_id", ZRequired ZNumber); ("section_id", ZRequired ZNumber);
   ("category_id", ZOptional ZNumber); ("religion", ZOptional ZString);
   ("caste", ZOptional ZString); ("blood_group", ZOptional ZString);
   ("current_address", ZOptional ZString);
   ("permanent_address", ZOptional ZString)].

Definition create_student_sql : string :=
  "INSERT INTO student " +:+ nl +:+
  "                    (first_name, last_name, register_no, admission_date, gender, birthday, mobileno, email, parent_id, branch_id, class, section," +:+ nl +:+
  "                     category_id, religion, caste, blood_group, current_address, permanent_address) " +:+ nl +:+
  "                    VALUES (?, ?, ?, ?, ?, ?, ?, ?, ?, ?, ?, ?, ?, ?, ?, ?, ?, ?)".

Definition enroll_sql : string :=
  "INSERT INTO enroll (student_id, class_id, section_id, session_id, branch_id) VALUES (?, ?, ?, 4, ?)".

Definition student_login_sql : string :=
  "INSERT INTO login_credential (user_id, username, password, role, active) VALUES (?, ?, 'password', 6, 1)".

Definition create_student (args : json) : free poolE CallToolResult :=
  parsed ← z_object_parse create_student_shape args;
  let branch_id := js_or (fld parsed "branch_id") (JNum 1) in
  '(result, _) ← pool_execute create_student_sql
    [fld parsed "first_name"; fld parsed "last_name"; fld parsed "register_no";
     fld parsed "admission_date";
     js_or (fld parsed "gender") (JStr "male");
     js_or (fld parsed "birthday") JNull;
     js_or (fld parsed "mobileno") (JStr EmptyString);
     js_or (fld parsed "email") (JStr EmptyString);
     js_or (fld parsed "parent_id") JNull;
     branch_id;
     fld parsed "class_id"; fld parsed "section_id";
     js_or (fld parsed "category_id") JNull;
     js_or (fld parsed "religion") (JStr EmptyString);
     js_or (fld parsed "caste") (JStr EmptyString);
     js_or (fld parsed "blood_group") (JStr EmptyString);
     js_or (fld parsed "current_address") (JStr EmptyString);
     js_or (fld parsed "permanent_address") (JStr EmptyString)];
  studentId ← get_prop result "insertId";
  _ ← pool_execute enroll_sql
        [studentId; fld parsed "class_id"; fld parsed "section_id"; branch_id];
  let username :=
    js_or (fld parsed "email") (JStr ("student" +:+ js_String studentId)) in
  _ ← pool_execute student_login_sql [studentId; username];
  Ret (text_result ("Student created. ID: " +:+ js_String studentId)).

Definition update_student_shape : zshape :=
  [("id", ZRequired ZNumber); ("first_name", ZOptional ZString);
   ("last_name", ZOptional ZString); ("register_no", ZOptional ZString);
   ("admission_date", ZOptional ZString); ("gender", ZOptional ZString);
   ("birthday", ZOptional ZString); ("mobileno", ZOptional ZString);
   ("email", ZOptional ZString); ("parent_id", ZOptional ZNumber);
   ("class_id", ZOptional ZNumber); ("section_id", ZOptional ZNumber);
   ("category_id", ZOptional ZNumber); ("religion", ZOptional ZString);
   ("caste", ZOptional ZString); ("blood_group", ZOptional ZString);
   ("current_address", ZOptional ZString);
   ("permanent_address", ZOptional ZString)].

(** The arrays [updates] and [params] once the handler has gone through
    its [if]s. *)
Definition update_student_clauses (parsed : gmap string json)
    : list string * list json :=
  let acc := ([], []) in
  let acc := push_if_set parsed "first_name" acc in
  let acc := push_if_set parsed "last_name" acc in
  let acc := push_if_set parsed "register_no" acc in
  let acc := push_if_set parsed "admission_date" acc in
  let acc := push_if_set parsed "gender" acc in
  let acc := push_if_set parsed "birthday" acc in
  let acc := push_if_set parsed "mobileno" acc in
  let acc := push_if_set parsed "email" acc in
  let acc := push_if_set parsed "parent_id" acc in
  let acc := push_column_if_set parsed "class_id" "class" acc in
  let acc := push_column_if_set parsed "section_id" "section" acc in
  let acc := push_if_defined parsed "category_id" acc in
  let acc := push_if_set parsed "religion" acc in
  let acc := push_if_set parsed "caste" acc in
  let acc := push_if_set parsed "blood_group" acc in
  let acc := push_if_set parsed "current_address" acc in
  let acc := push_if_set parsed "permanent_address" acc in
  acc.

(** [enrollUpdates] and [enrollParams] *)
Definition update_enroll_clauses (parsed : gmap string json)
    : list string * list json :=
  let acc := ([], []) in
  let acc := push_if_set parsed "class_id" acc in
  let acc := push_if_set parsed "section_id" acc in
  acc.

Definition update_student_sql (updates : list string) : string :=
  "UPDATE student SET " +:+ String.concat ", " updates +:+ " WHERE id = ?".

Definition update_enroll_sql (enrollUpdates : list string) : string :=
  "UPDATE enroll SET " +:+ String.concat ", " enrollUpdates
  +:+ " WHERE student_id = ? AND session_id = 4".

Definition update_student (args : json) : free poolE CallToolResult :=
  parsed ← z_object_parse update_student_shape args;
  let '(updates, params) := update_student_clauses parsed in
  _ ← (if (0 <? length updates)%nat then
         _ ← pool_execute (update_student_sql updates) (params ++ [fld parsed "id"]);
         Ret ()
       else Ret ());
  _ ← (if truthy (js_or (fld parsed "class_id") (fld parsed "section_id")) then
         let '(enrollUpdates, enrollParams) := update_enroll_clauses parsed in
         _ ← pool_execute (update_enroll_sql enrollUpdates)
               (enrollParams ++ [fld parsed "id"]);
         Ret ()
       else Ret ());
  Ret (text_result ("Student " +:+ js_String (fld parsed "id") +:+ " updated.")).

(** *** The cases above, as part of the [switch] *)

Definition more_cases : list (string * (json -> free poolE CallToolResult)) :=
  [("bulk_delete_inquiries", bulk_delete_inquiries);
   ("list_inquiry_sources", list_inquiry_sources);
   ("list_inquiry_statuses", list_inquiry_statuses);
   ("delete_inquiry", delete_inquiry);
   ("create_inquiry_follow_up", create_inquiry_follow_up);
   ("list_inquiry_follow_ups", list_inquiry_follow_ups);
   ("list_transactions", list_transactions);
   ("delete_call_log", delete_call_log);
   ("create_product_issue", create_product_issue);
   ("update_fee_payment", update_fee_payment);
   ("create_student", create_student);
   ("update_student", update_student)].

(** A table for [other_cases] that holds the cases above and leaves the
    rest to [rest]. *)
Definition with_more_cases
    (rest : string -> option (json -> free poolE CallToolResult))
    (name : string) : option (json -> free poolE CallToolResult) :=
  match find (fun c => String.eqb c.1 name) more_cases with
  | Some c => Some c.2
  | None => rest name
  end.

End MoreOfTheServer.

(** *** The routes of the express application

    [transport] is one variable of the module: [GET /sse] assigns it and
    nothing clears it.  Each route reads or assigns it before its first
    [await], so the requests act on it in the order they arrive.  What is
    kept of a transport is the endpoint it was constructed with.  The
    routes do not read the body of a request: [POST /messages] passes
    [req] and [res] on to [handlePostMessage] of the transport, which
    belongs to the SDK, as do [server.connect] and the session id the
    transport adds to its endpoint. *)

Inductive http_call : Type :=
| GetHealth
| GetSse (api_key : option string)
| PostMessages (api_key : option string).

(** What a route does with a request: it answers a JSON body with a
    status; it calls [server.connect] on a new transport constructed
    with [endpoint]; or it calls [handlePostMessage(req, res)] of the
    transport [via] inside [storage.run(key, ...)]. *)
Inductive http_reply : Type :=
| JsonReply (status : Z) (body : json)
| Connect (endpoint : string)
| HandlePostMessage (via : string) (key : option string).

(** [`/messages?api_key=${apiKey || ''}`] *)
Definition sse_endpoint (apiKey : option string) : string :=
  "/messages?api_key=" +:+
  match apiKey with
  | Some k => if truthy (JStr k) then k else EmptyString
  | None => EmptyString
  end.

(** One request to the application: the transport afterwards and what
    the route does. *)
Definition route (transport : option string) (call : http_call)
    : option string * http_reply :=
  match call with
  | GetHealth =>
      (transport, JsonReply 200 (JObj (list_to_map [("status", JStr "ok")])))
  | GetSse apiKey =>
      let endpoint := sse_endpoint apiKey in
      (Some endpoint, Connect endpoint)
  | PostMessages apiKey =>
      match transport with
      | Some current => (transport, HandlePostMessage current apiKey)
      | None =>
          (transport,
           JsonReply 400 (JObj (list_to_map [("error", JStr "No active transport")])))
      end
  end.

(** The application from its start ([transport = null]) through a
    sequence of requests: the transport at the end and what the routes
    did. *)
Definition app_run (calls : list http_call) : option string * list http_reply :=
  foldl (fun st call =>
           let '(transport, reply) := route st.1 call in
           (transport, st.2 ++ [reply]))
        (None, []) calls.

(** ** A reference engine for the examples

    Integer arithmetic on numbers and a one-line rendering. *)

Definition int_op (op : Z -> Z -> Z) (a b : json) : json :=
  match a, b with
  | JNum x, JNum y => JNum (op x y)
  | _, _ => JUndefined
  end.

#[local] Instance reference_engine : JsEngine := {|
  JSON_stringify := js_String;
  js_mul := int_op Z.mul;
  js_sub := int_op Z.sub;
  js_add := int_op Z.add
|}.

Definition obj (l : list (string * json)) : json := JObj (list_to_map l).

Definition demo_pool : SqlProxy :=
  {| apiUrl := "http://localhost/ramom/mcp/sql_execute"; defaultApiKey := "env-key" |}.

Definition no_other_cases : string -> option (json -> free poolE CallToolResult) :=
  fun _ => None.

(** A backend that accepts every statement and numbers the rows it
    inserts by the position of the statement. *)
Definition demo_net : oracle :=
  fun log =>
    Resolved (obj [("insertId", JNum (Z.of_nat (length log)));
                   ("affectedRows", JNum 1)]).

Definition demo_purchase : gmap string json :=
  list_to_map
    [("bill_no", JStr "B-1"); ("supplier_id", JNum 2); ("store_id", JNum 3);
     ("date", JStr "2026-02-01");
     ("items",
      JArr [obj [("product_id", JNum 7); ("quantity", JNum 2);
                 ("unit_price", JNum 10); ("discount", JNum 1)];
            obj [("product_id", JNum 8); ("quantity", JNum 1);
                 ("unit_price", JNum 5)]])].

Definition demo_update : gmap string json :=
  list_to_map [("id", JNum 1); ("email", JStr "jane@example.org"); ("name", JStr "Jane")].


Definition demo_request : CallToolRequest :=
  {| name := "create_product_category";
     arguments := obj [("name", JStr "Books")] |}.

(** The request [demo_request] leads to under the credential [key]. *)
Definition demo_insert (key : string) : http_request :=
  {| url := apiUrl demo_pool;
     x_api_key := key;
     sql := "INSERT INTO product_category (name, branch_id) VALUES (?, ?)";
     params := [JStr "Books"; JNum 1] |}.

(** Arguments for the further cases. *)
Definition demo_ids : gmap string json :=
  list_to_map [("ids", JArr [JNum 3; JNum 4])].

Definition demo_no_ids : gmap string json :=
  list_to_map [("ids", JArr [])].

Definition demo_inquiry : gmap string json :=
  list_to_map [("id", JNum 9)].

(** A payment whose amount is set to 0 and whose remarks are given empty. *)
Definition demo_payment : gmap string json :=
  list_to_map [("id", JNum 7); ("amount", JNum 0); ("remarks", JStr EmptyString)].

(** An issue of the items of [demo_purchase]. *)
Definition demo_issue : gmap string json :=
  list_to_map
    [("role_id", JNum 3); ("user_id", JNum 5); ("date_of_issue", JStr "2026-02-02");
     ("items", fld demo_purchase "items")].

(** The income transactions, with the limit 0. *)
Definition demo_transactions : gmap string json :=
  list_to_map [("type", JStr "income"); ("limit", JNum 0)].

(** A student without an email, and a move of the student 4 to the
    class 6. *)
Definition demo_student : gmap string json :=
  list_to_map
    [("first_name", JStr "Asha"); ("last_name", JStr "Rao");
     ("register_no", JStr "R-1"); ("admission_date", JStr "2026-04-01");
     ("class_id", JNum 5); ("section_id", JNum 2)].

Definition demo_student_move : gmap string json :=
  list_to_map [("id", JNum 4); ("class_id", JNum 6)].

(** * Vocabulary of the properties

    The definitions below are not part of the server: they name what the
    properties speak about. *)

(** ** SqlProxy.execute *)

(** The request [SqlProxy.execute] sends for a statement. *)
Definition proxy_request (pool : SqlProxy) (store : option string)
    (sql : string) (params : list json) : http_request :=
  {| url := apiUrl pool;
     x_api_key := resolve_api_key store (defaultApiKey pool);
     sql := sql;
     params := params |}.

(** What [SqlProxy.execute] makes of the answer to its request. *)
Definition proxy_result (r : http_result) : outcome (json * json) :=
  match r with
  | Rejected message =>
      Raised (JsError ("Database operation failed: " +:+ message))
  | Resolved JUndefined =>
      Raised (JsError ("Database operation failed: " +:+
                       "Cannot read properties of undefined (reading 'status')"))
  | Resolved JNull =>
      Raised (JsError ("Database operation failed: " +:+
                       "Cannot read properties of null (reading 'status')"))
  | Resolved (JObj o) =>
      if is_string (fld o "status") "error" then
        Raised (JsError ("Database operation failed: " +:+
                         js_String (js_or (fld o "message")
                                          (JStr "Unknown database error"))))
      else Returned (JObj o, JUndefined)
  | Resolved (JArr rows) => Returned (JArr rows, JArr [])
  | Resolved data => Returned (data, JUndefined)
  end.

(** The outcomes of a run and the answers of the network the properties
    of [execute] tell apart. *)
Definition throws {A : Type} (res : outcome A * list http_request) : Prop :=
  exists e, res.1 = Raised e.

Definition post_fails (r : http_result) : Prop :=
  exists message, r = Rejected message.

Definition status_is_error (r : http_result) : Prop :=
  exists o, r = Resolved (JObj o) /\ fld o "status" = JStr "error".

Definition body_is_nullish (r : http_result) : Prop :=
  r = Resolved JNull \/ r = Resolved JUndefined.

(** "[execute] throws exactly when the POST fails or the response
    carries the status 'error'", for one call. *)
Definition throws_only_on_failure_or_error_status `{JsEngine}
    (pool : SqlProxy) (store : option string) (net : oracle)
    (sql : string) (params : list json) : Prop :=
  let r := net [proxy_request pool store sql params] in
  throws (run store net (SqlProxy_execute pool sql params)) <->
  post_fails r \/ status_is_error r.

(** ** The tool-call handler and validation *)

Section ErrorResult.

Context `{JsEngine}.

Definition error_result (e : js_error) : CallToolResult :=
  {| text := "Error: " +:+ error_message e; isError := true |}.

End ErrorResult.

(** [v] is not a value of the type [t]. *)
Definition mistyped (t : ztype) (v : json) : Prop :=
  match t, v with
  | ZString, JStr _ => False
  | ZNumber, JNum _ => False
  | ZEnum options, JStr s => s ∉ options
  | ZArray _, JArr _ => False
  | ZAny, _ => False
  | _, _ => True
  end.

(** Validation rejected the call and nothing was sent. *)
Definition rejected_unsent {A : Type} (res : outcome A * list http_request) : Prop :=
  res.2 = [] /\ exists issues, res.1 = Raised (ZodError issues).

(** ** Reception configuration *)

Definition reception_statement_texts (table : string) : list string :=
  ["SELECT id, name FROM " +:+ table;
   "SELECT id, name FROM " +:+ table +:+ " WHERE branch_id = ?";
   "INSERT INTO " +:+ table +:+ " (name, branch_id) VALUES (?, ?)";
   "DELETE FROM " +:+ table +:+ " WHERE id = ?"].

(** Every statement sent names an allow-listed table in a fixed
    template. *)
Definition tables_allow_listed (log : list http_request) : Prop :=
  forall req, req ∈ log ->
    exists table, table ∈ reception_config_types /\
                  sql req ∈ reception_statement_texts table.

(** The [type] argument is one of the five names. *)
Definition type_listed (args : json) : Prop :=
  exists o s, args = JObj o /\ fld o "type" = JStr s /\ s ∈ reception_config_types.

(** What is asked of each of the three handlers. *)
Definition table_from_allow_list {A : Type}
    (res : outcome A * list http_request) (args : json) : Prop :=
  tables_allow_listed res.2 /\ (~ type_listed args -> rejected_unsent res).

(** ** Optional arguments *)

(** The number of [?] in a statement text. *)
Fixpoint count_placeholders (s : string) : nat :=
  match s with
  | EmptyString => 0
  | String c rest =>
      ((if String.eqb (String c EmptyString) "?" then 1 else 0) + count_placeholders rest)%nat
  end.





(** "A supplied-but-falsy optional argument is treated as if it were
    absent": the call whose arguments hold [v] under [f] does what the
    call without [f] does. *)
Definition treated_as_absent `{JsEngine} (pool : SqlProxy)
    (handler : json -> free poolE CallToolResult) (f : string) (v : json) : Prop :=
  forall store net o,
    run store net (lower pool (handler (JObj (<[f := v]> o)))) =
    run store net (lower pool (handler (JObj (delete f o)))).

(** Two parsed objects agree on a key when they hold the same value
    there or a falsy value each. *)
Definition agree (p1 p2 : gmap string json) (k : string) : Prop :=
  fld p1 k = fld p2 k \/ (truthy (fld p1 k) = false /\ truthy (fld p2 k) = false).

(** The fields [update_inquiry] has an [if] for, and the filters of
    [list_inquiries]. *)
Definition updatable_fields : list string :=
  ["name"; "mobile_no"; "father_name"; "mother_name"; "email"; "address";
   "response"; "note"].

Definition list_inquiries_filters : list string :=
  ["branch_id"; "search"; "status"; "source_id"; "class_id"; "start_date";
   "end_date"; "created_by"].

(** The optional filters of [list_inquiries], each with the falsy value
    of its type, and the optional fields of [update_inquiry]. *)
Definition falsy_filters : list (string * json) :=
  [("branch_id", JNum 0); ("search", JStr EmptyString);
   ("status", JStr EmptyString); ("source_id", JNum 0); ("class_id", JNum 0);
   ("start_date", JStr EmptyString); ("end_date", JStr EmptyString);
   ("created_by", JNum 0)].

Definition update_inquiry_optional_fields : list string :=
  updatable_fields ++ ["status"].

(** ** Updating an inquiry *)

(** The updatable fields the arguments give a truthy value. *)
Definition written (p : gmap string json) : list string :=
  List.filter (fun f => truthy (fld p f)) updatable_fields.

(** The assignment pushed for a field. *)
Definition set_clause (f : string) : string := f +:+ " = ?".

Definition no_update_result : CallToolResult :=
  text_result "No fields to update provided.".

(** The UPDATE [update_inquiry] sends for arguments [o]. *)
Definition update_inquiry_request (pool : SqlProxy) (store : option string)
    (o : gmap string json) : http_request :=
  proxy_request pool store
    (update_inquiry_sql (map set_clause (written o) ++ ["updated_at = NOW()"]))
    (map (fld o) (written o) ++ [fld o "id"]).

(** "Every supplied optional field's stored value becomes the supplied
    value", for the arguments [o]: the call sends an UPDATE after which
    the row holds, under each optional field the arguments supply, the
    value they supply. *)
Definition supplied_fields_are_stored `{JsEngine} (pool : SqlProxy)
    (o : gmap string json) : Prop :=
  forall store net f v,
    f ∈ update_inquiry_optional_fields -> o !! f = Some v ->
    exists req,
      (run store net (lower pool (update_inquiry (JObj o)))).2 = [req] /\
      forall now row, exists row',
        update_row "enquiry" now (sql req) (params req) row = Some row' /\
        row' !! f = Some v.

(** The row after the UPDATE of [update_inquiry] for the arguments [o]:
    an updatable field supplied with a truthy value (a string that is
    not empty) holds that value, [updated_at] holds the clock, and every
    other column, whatever it is, holds what it held. *)
Definition updated_inquiry (o : gmap string json) (now : json)
    (row : gmap string json) (column : string) : option json :=
  if bool_decide (column ∈ updatable_fields) && truthy (fld o column)
  then Some (fld o column)
  else if bool_decide (column = "updated_at") then Some now
  else row !! column.

(** What C6, as amended, asks of [update_inquiry] called with the
    arguments [o]. *)
Definition partial_update `{JsEngine} (pool : SqlProxy)
    (store : option string) (net : oracle) (o : gmap string json) : Prop :=
  let res := run store net (lower pool (update_inquiry (JObj o))) in
  let req := update_inquiry_request pool store o in
  ((forall f, f ∈ updatable_fields -> truthy (fld o f) = false) ->
   res = (Returned no_update_result, [])) /\
  ((exists f, f ∈ updatable_fields /\ truthy (fld o f) = true) ->
   res.2 = [req] /\
   forall now row, exists row',
     update_row "enquiry" now (sql req) (params req) row = Some row' /\
     forall column, row' !! column = updated_inquiry o now row column).

(** The sublists of a list, for what is checked on each of them. *)
Fixpoint sublists {A : Type} (l : list A) : list (list A) :=
  match l with
  | [] => [[]]
  | x :: rest => map (cons x) (sublists rest) ++ sublists rest
  end.

(** ** Creating a purchase *)

(** [v == null] *)
Definition nullish (v : json) : bool :=
  match v with JUndefined | JNull => true | _ => false end.

(** [v.k] where [v] is neither [null] nor [undefined]. *)
Definition prop (v : json) (k : string) : json :=
  match v with JObj o => fld o k | _ => JUndefined end.

(** A statement: its text and the values bound to its placeholders. *)
Definition statement : Type := string * list json.

Definition statement_of (req : http_request) : statement := (sql req, params req).

Section PurchaseStatements.

Context `{JsEngine}.

(** quantity times unit_price minus discount *)
Definition subtotal_of (item : json) : json :=
  js_sub (js_mul (prop item "quantity") (prop item "unit_price"))
         (js_or (prop item "discount") (JNum 0)).

(** the sum of the subtotals, added up from 0 in the order of the items *)
Definition total_of (items : list json) : json :=
  fold_left (fun total item => js_add total (subtotal_of item)) items (JNum 0).

(** the purchase_bill insert *)
Definition bill_statement (o : gmap string json) : statement :=
  let total := total_of (array_items (fld o "items")) in
  (purchase_bill_sql,
   [fld o "bill_no"; fld o "supplier_id"; fld o "store_id"; fld o "date";
    js_or (fld o "remarks") (JStr EmptyString); total; total;
    js_or (fld o "prepared_by") (JNum 1); js_or (fld o "branch_id") (JNum 1)]).

(** per item: the purchase_bill_details insert referencing the bill,
    then the stock increment of the item's product *)
Definition item_statements (billId : json) (item : json) : list statement :=
  [(purchase_detail_sql,
    [billId; prop item "product_id"; prop item "unit_price";
     prop item "quantity"; js_or (prop item "discount") (JNum 0);
     subtotal_of item]);
   (stock_increment_sql, [prop item "quantity"; prop item "product_id"])].

Definition purchase_statements (o : gmap string json) (billId : json)
    : list statement :=
  bill_statement o :: flat_map (item_statements billId) (array_items (fld o "items")).

End PurchaseStatements.

(** Sending statements strictly in order, each once, stopping at the
    first that fails; nothing is sent after a failure. *)
Fixpoint send_in_order (pool : SqlProxy) (store : option string) (net : oracle)
    (statements : list statement) (log : list http_request)
    : option js_error * list http_request :=
  match statements with
  | [] => (None, log)
  | s :: rest =>
      let log' := log ++ [proxy_request pool store s.1 s.2] in
      match proxy_result (net log') with
      | Returned _ => send_in_order pool store net rest log'
      | Raised e => (Some e, log')
      end
  end.


(** ** Credentials of requests in flight *)

(** Every request [p] can send, in a context whose store is [store],
    carries [key]. *)
Fixpoint keyed {A : Type} (store : option string) (key : string)
    (p : free netE A) : Prop :=
  match p with
  | Ret _ | Throw _ => True
  | Vis ev k =>
      match ev in netE X return (X -> free netE A) -> Prop with
      | GetStore => fun k => keyed store key (k store)
      | AxiosPost req => fun k => x_api_key req = key /\ forall r, keyed store key (k r)
      end k
  end.

(** A task sends, now and after any answer, under the credential of its
    own context. *)
Definition task_keyed (fallback : string) (t : task) : Prop :=
  let key := resolve_api_key (context t) fallback in
  match state t with
  | Ready p => keyed (context t) key p
  | Awaiting k => forall r, keyed (context t) key (k r)
  | Finished _ => True
  end.

(** The invariant of the server: what a task may still send carries the
    credential of its own context, and so does what it has sent. *)
Definition isolated (fallback : string) (contexts : list (option string))
    (s : server) : Prop :=
  map context (tasks s) = contexts /\
  Forall (task_keyed fallback) (tasks s) /\
  forall i req, (i, req) ∈ outbox s ->
    exists c, contexts !! i = Some c /\ x_api_key req = resolve_api_key c fallback.

(** ** Numbers in answers *)

(** [Number.isSafeInteger]: the numbers a template literal prints digit
    for digit, as [js_String] renders every number. *)
Definition safe_integer (v : json) : bool :=
  match v with
  | JNum n => (- 2 ^ 53 <? n) && (n <? 2 ^ 53)
  | _ => false
  end.

(** ** The statements a handler can send *)

(** Every statement [p] can hand to [pool.execute], whatever the
    answers to the statements before it, satisfies [P]. *)
Fixpoint every_statement {A : Type} (P : statement -> Prop) (p : free poolE A)
    : Prop :=
  match p with
  | Ret _ | Throw _ => True
  | Vis ev k =>
      match ev in poolE X return (X -> free poolE A) -> Prop with
      | Execute sql params => fun k =>
          P (sql, params) /\ forall r, every_statement P (k r)
      end k
  end.

(** As many values are bound as the text has placeholders. *)
Definition binds_every_placeholder (s : statement) : Prop :=
  count_placeholders s.1 = length s.2.

(** Whatever its arguments, the proxy's answers and the credential, a
    handler sends only statements that satisfy [P]. *)
Definition sends_only `{JsEngine} (P : statement -> Prop)
    (handler : json -> free poolE CallToolResult) : Prop :=
  forall pool store net args,
    Forall (fun req => P (statement_of req))
           (run store net (lower pool (handler args))).2.

(** ** Updating a fee payment *)

Definition payment_fields : list string :=
  ["amount"; "discount"; "fine"; "date"; "remarks"].

(** The columns [update_fee_payment] writes: the amounts that are
    given, zero included, and the texts that are given and not empty. *)
Definition payment_fields_written (p : gmap string json) : list string :=
  List.filter (fun f => is_defined (fld p f)) ["amount"; "discount"; "fine"] ++
  List.filter (fun f => truthy (fld p f)) ["date"; "remarks"].

(** ** Resources *)

(** The tables behind the resources. *)
Definition resource_tables : list string := ["enquiry"; "staff"; "student"].

(** What reading a readable resource comes to: one statement without
    values, and either its rows under the URI and media type of the
    resource or the error of the proxy, thrown. *)
Definition reads_table `{JsEngine} (pool : SqlProxy) (store : option string)
    (net : oracle) (r : resource) (table : string) : Prop :=
  let req := proxy_request pool store ("SELECT * FROM " +:+ table +:+ " LIMIT 100") [] in
  run store net (lower pool (read_resource (resource_uri r))) =
  (match proxy_result (net [req]) with
   | Returned (rows, _) =>
       Returned {| contents_uri := resource_uri r;
                   contents_mimeType := resource_mimeType r;
                   contents_text := JSON_stringify rows |}
   | Raised e => Raised e
   end, [req]).

(** ** The sources and statuses of inquiries *)

(** [list_inquiry_sources] and [list_inquiry_statuses] each send their
    one query for the rows of [branch]. *)
Definition lookups_ask_for `{JsEngine} (pool : SqlProxy)
    (store : option string) (net : oracle) (o : gmap string json)
    (branch : Z) : Prop :=
  (run store net (lower pool (list_inquiry_sources (JObj o)))).2 =
  [proxy_request pool store
     "SELECT * FROM enquiry_reference WHERE branch_id = ?" [JNum branch]] /\
  (run store net (lower pool (list_inquiry_statuses (JObj o)))).2 =
  [proxy_request pool store
     "SELECT * FROM enquiry_response WHERE branch_id = ?" [JNum branch]].

(** ** Deleting inquiries *)

Definition delete_follow_ups_in (ids : list json) : statement :=
  ("DELETE FROM enquiry_follow_up WHERE enquiry_id IN (" +:+ placeholders ids +:+ ")", ids).

Definition delete_inquiries_in (ids : list json) : statement :=
  ("DELETE FROM enquiry WHERE id IN (" +:+ placeholders ids +:+ ")", ids).

(** The two deletes of [bulk_delete_inquiries], follow-ups first; the
    second is not sent when the first fails. *)
Definition bulk_delete_outcome `{JsEngine} (pool : SqlProxy)
    (store : option string) (net : oracle) (ids : list json)
    : outcome CallToolResult * list http_request :=
  let r1 := proxy_request pool store (delete_follow_ups_in ids).1 ids in
  let r2 := proxy_request pool store (delete_inquiries_in ids).1 ids in
  match proxy_result (net [r1]) with
  | Raised e => (Raised e, [r1])
  | Returned _ =>
      match proxy_result (net [r1; r2]) with
      | Raised e => (Raised e, [r1; r2])
      | Returned (result, _) =>
          (Returned (text_result (js_String (prop result "affectedRows")
                                  +:+ " inquiries deleted successfully.")),
           [r1; r2])
      end
  end.

(** What a [tools/call] of [delete_inquiry] for the inquiry [n] comes
    to. *)
Definition delete_inquiry_outcome `{JsEngine} (pool : SqlProxy)
    (store : option string) (net : oracle) (n : Z)
    : outcome CallToolResult * list http_request :=
  let r1 := proxy_request pool store
              "DELETE FROM enquiry_follow_up WHERE enquiry_id = ?" [JNum n] in
  let r2 := proxy_request pool store "DELETE FROM enquiry WHERE id = ?" [JNum n] in
  match proxy_result (net [r1]) with
  | Raised e => (Returned (error_result e), [r1])
  | Returned _ =>
      match proxy_result (net [r1; r2]) with
      | Raised e => (Returned (error_result e), [r1; r2])
      | Returned (result, _) =>
          if is_number (prop result "affectedRows") 0 then
            (Returned {| text := "Error: MCP error -32600: Inquiry with ID "
                                 +:+ pretty n +:+ " not found";
                         isError := true |}, [r1; r2])
          else
            (Returned (text_result ("Inquiry " +:+ pretty n +:+ " deleted successfully.")),
             [r1; r2])
      end
  end.

(** ** The text of a list query *)

(** The optional predicates of [list_inquiries], in the order of its
    [if]s. *)
Definition list_inquiries_clauses : list string :=
  [" AND e.branch_id = ?";
   " AND (e.name LIKE ? OR e.mobile_no LIKE ? OR e.father_name LIKE ?)";
   " AND e.status = ?";
   " AND e.reference_id = ?";
   " AND e.class_id = ?";
   " AND e.date >= ?";
   " AND e.date <= ?";
   " AND e.created_by = ?"].

(** The pieces of a text, one after the other. *)
Definition join (pieces : list string) : string :=
  foldr String.append EmptyString pieces.

(** A text made of [base], some of [clauses] in their order, and
    [order]: no part of it comes from an argument. *)
Definition built_from (base : string) (clauses : list string) (order : string)
    (s : statement) : Prop :=
  exists picked, picked `sublist_of` clauses /\ s.1 = base +:+ join picked +:+ order.

(** The optional predicates of [list_transactions], in the order of its
    [if]s, and its ordering. *)
Definition list_transactions_clauses : list string :=
  [" AND t.type = ?"; " AND t.date >= ?"; " AND t.date <= ?"].

Definition list_transactions_order : string := " ORDER BY t.date DESC, t.id DESC".

(** What the [limit] of [list_transactions] called with the arguments
    [o] comes to.  The call sends one query.  Up to its ordering the
    text is fixed pieces and binds a value for each of its placeholders.
    Without [limit], or with the limit 0, the text ends in "LIMIT 50" and
    nothing more is bound; with a limit [n] other than 0 it ends in
    "LIMIT ?" and [n] is bound last, to that placeholder. *)
Definition row_limited `{JsEngine} (pool : SqlProxy) (store : option string)
    (net : oracle) (o : gmap string json) : Prop :=
  let sent :=
    map statement_of (run store net (lower pool (list_transactions (JObj o)))).2 in
  exists body values,
    built_from list_transactions_base list_transactions_clauses
      list_transactions_order (body, values) /\
    count_placeholders body = length values /\
    (o !! "limit" = None \/ o !! "limit" = Some (JNum 0) ->
     sent = [(body +:+ " LIMIT 50", values)]) /\
    (forall n, o !! "limit" = Some (JNum n) -> n <> 0 ->
     sent = [(body +:+ " LIMIT ?", values ++ [JNum n])]).

(** ** Updating a fee payment, continued *)

(** What [update_fee_payment] called with the arguments [o] comes to. *)
Definition payment_update `{JsEngine} (pool : SqlProxy)
    (store : option string) (net : oracle) (o : gmap string json) : Prop :=
  let res := run store net (lower pool (update_fee_payment (JObj o))) in
  let w := payment_fields_written o in
  let updates := map set_clause w in
  let values := map (fld o) w ++ [fld o "id"] in
  let req := proxy_request pool store (update_fee_payment_sql updates) values in
  (forall f, f ∈ ["amount"; "discount"; "fine"] -> fld o f = JNum 0 -> f ∈ w) /\
  (w = [] -> res = (Returned (text_result "No updates provided."), [])) /\
  (w <> [] ->
   res = (match proxy_result (net [req]) with
          | Returned _ =>
              Returned (text_result ("Payment record " +:+ js_String (fld o "id")
                                     +:+ " updated."))
          | Raised e => Raised e
          end, [req]) /\
   forall now row, exists row',
     update_row "fee_payment_history" now (sql req) (params req) row = Some row' /\
     forall column,
       row' !! column =
       if bool_decide (column ∈ w) then Some (fld o column) else row !! column).

(** ** Issuing products *)

(** [item.k] throws on [null] and [undefined]. *)
Definition null_read (v : json) (k : string) : js_error :=
  TypeError ("Cannot read properties of " +:+ js_String v +:+ " (reading '" +:+ k +:+ "')").

(** the product_issues insert *)
Definition issue_statement (o : gmap string json) : statement :=
  (product_issue_sql,
   [fld o "role_id"; fld o "user_id"; fld o "date_of_issue";
    js_or (fld o "due_date") JNull; js_or (fld o "remarks") (JStr EmptyString);
    js_or (fld o "prepared_by") (JNum 1); js_or (fld o "branch_id") (JNum 1)]).

(** per item: the product_issues_details insert referencing the issue,
    then the stock decrement of the item's product by the same
    quantity *)
Definition issue_item_statements (issueId : json) (item : json) : list statement :=
  [(product_issue_detail_sql, [issueId; prop item "product_id"; prop item "quantity"]);
   (stock_decrement_sql, [prop item "quantity"; prop item "product_id"])].

(** What [create_product_issue] comes to when its items are [good]
    followed by [tail], where [good] holds no [null] and [tail] is empty
    or starts with one. *)
Definition issue_sequence `{JsEngine} (pool : SqlProxy)
    (store : option string) (net : oracle) (o : gmap string json)
    (good tail : list json) : Prop :=
  let res := run store net (lower pool (create_product_issue (JObj o))) in
  let first := proxy_request pool store (issue_statement o).1 (issue_statement o).2 in
  match proxy_result (net [first]) with
  | Raised e => res = (Raised e, [first])
  | Returned (issueResult, _) =>
      let issueId := prop issueResult "insertId" in
      match send_in_order pool store net
              (flat_map (issue_item_statements issueId) good) [first] with
      | (Some e, log) => res = (Raised e, log)
      | (None, log) =>
          match tail with
          | [] =>
              res = (Returned (text_result ("Product issue created. Issue ID: "
                                            +:+ js_String issueId)), log)
          | bad :: _ => res = (Raised (null_read bad "product_id"), log)
          end
      end
  end.

(** ** The routes *)


Definition no_active_transport : http_reply :=
  JsonReply 400 (JObj (list_to_map [("error", JStr "No active transport")])).

(** ** Stock statements *)

(** The values bound by the statements of [log] whose text is [text],
    in the order sent. *)
Definition bound_by (text : string) (log : list http_request) : list (list json) :=
  map params (List.filter (fun req => String.eqb (sql req) text) log).

(** The quantity and the product of each item. *)
Definition stock_changes (items : list json) : list (list json) :=
  map (fun item => [prop item "quantity"; prop item "product_id"]) items.

(** ** Creating a student *)

(** the student insert *)
Definition student_statement (o : gmap string json) : statement :=
  (create_student_sql,
   [fld o "first_name"; fld o "last_name"; fld o "register_no";
    fld o "admission_date";
    js_or (fld o "gender") (JStr "male");
    js_or (fld o "birthday") JNull;
    js_or (fld o "mobileno") (JStr EmptyString);
    js_or (fld o "email") (JStr EmptyString);
    js_or (fld o "parent_id") JNull;
    js_or (fld o "branch_id") (JNum 1);
    fld o "class_id"; fld o "section_id";
    js_or (fld o "category_id") JNull;
    js_or (fld o "religion") (JStr EmptyString);
    js_or (fld o "caste") (JStr EmptyString);
    js_or (fld o "blood_group") (JStr EmptyString);
    js_or (fld o "current_address") (JStr EmptyString);
    js_or (fld o "permanent_address") (JStr EmptyString)]).

(** the enrolment in the session 4, then the login: its user name is the
    email or, without one, "student" followed by the generated id; its
    password is the constant written in the text *)
Definition student_followers (o : gmap string json) (studentId : json)
    : list statement :=
  [("INSERT INTO enroll (student_id, class_id, section_id, session_id, branch_id) VALUES (?, ?, ?, 4, ?)",
    [studentId; fld o "class_id"; fld o "section_id";
     js_or (fld o "branch_id") (JNum 1)]);
   ("INSERT INTO login_credential (user_id, username, password, role, active) VALUES (?, ?, 'password', 6, 1)",
    [studentId;
     if truthy (fld o "email") then fld o "email"
     else JStr ("student" +:+ js_String studentId)])].

(** What [create_student] called with the arguments [o] comes to. *)
Definition student_sequence `{JsEngine} (pool : SqlProxy)
    (store : option string) (net : oracle) (o : gmap string json) : Prop :=
  let res := run store net (lower pool (create_student (JObj o))) in
  let first := proxy_request pool store (student_statement o).1 (student_statement o).2 in
  match proxy_result (net [first]) with
  | Raised e => res = (Raised e, [first])
  | Returned (result, _) =>
      let studentId := prop result "insertId" in
      match send_in_order pool store net (student_followers o studentId) [first] with
      | (Some e, log) => res = (Raised e, log)
      | (None, log) =>
          res = (Returned (text_result ("Student created. ID: "
                                        +:+ js_String studentId)), log)
      end
  end.

(** The declaration of a tool lets a call go without the key [k] that
    its properties list. *)
Definition declared_optional (t : tool) (k : string) : Prop :=
  k ∈ map fst (properties t) /\ k ∉ required t.

(** ** Updating a student *)

(** The keys of [update_student] with the column each is written to;
    [true] marks the key that is written whenever it is given, 0
    included, [false] those written when given and truthy. *)
Definition student_columns : list (string * string * bool) :=
  [("first_name", "first_name", false); ("last_name", "last_name", false);
   ("register_no", "register_no", false);
   ("admission_date", "admission_date", false);
   ("gender", "gender", false); ("birthday", "birthday", false);
   ("mobileno", "mobileno", false); ("email", "email", false);
   ("parent_id", "parent_id", false); ("class_id", "class", false);
   ("section_id", "section", false); ("category_id", "category_id", true);
   ("religion", "religion", false); ("caste", "caste", false);
   ("blood_group", "blood_group", false);
   ("current_address", "current_address", false);
   ("permanent_address", "permanent_address", false)].

Definition supplied (o : gmap string json) (c : string * string * bool) : bool :=
  if c.2 then is_defined (fld o c.1.1) else truthy (fld o c.1.1).

Definition column_clause (c : string * string * bool) : string :=
  c.1.2 +:+ " = ?".

Definition push_column (p : gmap string json) (c : string * string * bool)
    (acc : list string * list json) : list string * list json :=
  if supplied p c
  then (acc.1 ++ [column_clause c], acc.2 ++ [fld p c.1.1])
  else acc.

(** The columns of student and the keys of enroll a call writes. *)
Definition student_written (o : gmap string json) : list (string * string * bool) :=
  List.filter (supplied o) student_columns.

Definition enroll_written (o : gmap string json) : list string :=
  List.filter (fun f => truthy (fld o f)) ["class_id"; "section_id"].

(** The statements of [update_student]: the UPDATE of student when a
    column is written, then the UPDATE of the enrolment of the session 4
    when the class or the section is. *)
Definition student_updates (o : gmap string json) : list statement :=
  match student_written o with
  | [] => []
  | w =>
      [(update_student_sql (map column_clause w),
        map (fun c => fld o c.1.1) w ++ [fld o "id"])]
  end ++
  match enroll_written o with
  | [] => []
  | e => [(update_enroll_sql (map set_clause e), map (fld o) e ++ [fld o "id"])]
  end.

(** What [update_student] called with the arguments [o] comes to. *)
Definition student_update `{JsEngine} (pool : SqlProxy)
    (store : option string) (net : oracle) (o : gmap string json) : Prop :=
  let res := run store net (lower pool (update_student (JObj o))) in
  let updated :=
    text_result ("Student " +:+ js_String (fld o "id") +:+ " updated.") in
  res = match send_in_order pool store net (student_updates o) [] with
        | (None, log) => (Returned updated, log)
        | (Some e, log) => (Raised e, log)
        end /\
  ((forall c, c ∈ student_columns -> supplied o c = false) ->
   res = (Returned updated, [])) /\
  (truthy (fld o "class_id") = true ->
   exists w e,
     map fst (student_updates o) =
     [update_student_sql (map column_clause w); update_enroll_sql (map set_clause e)] /\
     ("class_id", "class", false) ∈ w /\ "class_id" ∈ e).

(** ** Updating an inquiry: the answer *)

(** What a [tools/call] of [update_inquiry] that writes a field comes
    to. *)
Definition update_inquiry_outcome `{JsEngine} (pool : SqlProxy)
    (store : option string) (net : oracle) (o : gmap string json)
    : outcome CallToolResult * list http_request :=
  let req := update_inquiry_request pool store o in
  match proxy_result (net [req]) with
  | Raised e => (Returned (error_result e), [req])
  | Returned (result, _) =>
      if is_number (prop result "affectedRows") 0 then
        (Returned {| text := "Error: MCP error -32600: Inquiry with ID "
                             +:+ js_String (fld o "id") +:+ " not found";
                     isError := true |}, [req])
      else
        (Returned (text_result ("Inquiry " +:+ js_String (fld o "id")
                                +:+ " updated successfully.")), [req])
  end.

(** * Properties *)

(** ** Running composed programs *)

Section Running.

Context {A B : Type}.
Variables (store : option string) (net : oracle).

Lemma run_from_bind (p : free netE A) (f : A -> free netE B) log :
  run_from store net (bind p f) log =
  match run_from store net p log with
  | (Returned a, log') => run_from store net (f a) log'
  | (Raised e, log') => (Raised e, log')
  end.
Proof.
  revert log. induction p as [a | e | X ev k IH]; intros log; simpl; try done.
  destruct ev; simpl; apply IH.
Qed.

Lemma run_from_attempt (p : free netE A) (k : outcome A -> free netE B) log :
  run_from store net (attempt p k) log =
  run_from store net (k (run_from store net p log).1) (run_from store net p log).2.
Proof.
  revert log. induction p as [a | e | X ev c IH]; intros log; simpl; try done.
  destruct ev; simpl; apply IH.
Qed.

End Running.

Lemma run_from_try_catch {A : Type} store net (p : free netE A) h log :
  run_from store net (try_catch p h) log =
  match run_from store net p log with
  | (Returned a, log') => (Returned a, log')
  | (Raised e, log') => run_from store net (h e) log'
  end.
Proof.
  revert log. induction p as [a | e | X ev k IH]; intros log; simpl; try done.
  destruct ev; simpl; apply IH.
Qed.

(** ** SqlProxy.execute *)

Section Proxy.

Context `{JsEngine}.
Variable pool : SqlProxy.

Lemma run_from_execute store net sql params log :
  run_from store net (SqlProxy_execute pool sql params) log =
  (proxy_result (net (log ++ [proxy_request pool store sql params])),
   log ++ [proxy_request pool store sql params]).
Proof.
  unfold SqlProxy_execute, proxy_request. simpl.
  destruct (net _) as [message | data]; simpl; [done |].
  destruct data; simpl; try done.
  destruct (is_string (fld fields "status") "error"); done.
Qed.

(** A handler that calls [pool.execute] and goes on with [k]. *)
Lemma run_from_pool_execute {A : Type} store net sql params
    (k : json * json -> free poolE A) log :
  run_from store net (lower pool (pool_execute sql params ≫= k)) log =
  let log' := log ++ [proxy_request pool store sql params] in
  match proxy_result (net log') with
  | Returned v => run_from store net (lower pool (k v)) log'
  | Raised e => (Raised e, log')
  end.
Proof.
  unfold mbind, free_bind, pool_execute. cbn [bind lower].
  rewrite run_from_attempt, run_from_execute. cbn [fst snd].
  destruct (proxy_result _); done.
Qed.

Lemma run_from_lower_try_catch {A : Type} store net (p : free poolE A) h log :
  run_from store net (lower pool (try_catch p h)) log =
  match run_from store net (lower pool p) log with
  | (Returned a, log') => (Returned a, log')
  | (Raised e, log') => run_from store net (lower pool (h e)) log'
  end.
Proof.
  revert log. induction p as [a | e | X ev k IH]; intros log; [done | done |].
  destruct ev. cbn [try_catch lower]. rewrite !run_from_attempt. apply IH.
Qed.

End Proxy.

Lemma is_string_true v s : is_string v s = true <-> v = JStr s.
Proof.
  destruct v; simpl; try (split; [done | congruence]).
  rewrite String.eqb_eq. split; congruence.
Qed.

Lemma throws_proxy_result (r : http_result) log :
  throws (proxy_result r, log) <->
  post_fails r \/ body_is_nullish r \/ status_is_error r.
Proof.
  unfold throws, post_fails, body_is_nullish, status_is_error. simpl.
  destruct r as [message | data]; simpl; [split; eauto |].
  assert (Hno : forall (a : json * json) d,
            (d <> JNull) -> (d <> JUndefined) -> (forall o, d <> JObj o) ->
            (exists e, Returned a = Raised e) <->
            (exists m, Resolved d = Rejected m) \/
            (Resolved d = Resolved JNull \/ Resolved d = Resolved JUndefined) \/
            (exists o, Resolved d = Resolved (JObj o) /\ fld o "status" = JStr "error")).
  { intros a d H1 H2 H3. split; [intros [e He]; done |].
    intros [[m Hm] | [[Hn | Hn] | [o [Ho _]]]]; [done | | |].
    - injection Hn as ->. done.
    - injection Hn as ->. done.
    - injection Ho as ->. by destruct (H3 o). }
  destruct data; try (apply Hno; done).
  - split; [intros _; right; left; by right | eauto].
  - split; [intros _; right; left; by left | eauto].
  - destruct (is_string (fld fields "status") "error") eqn:Hs.
    + apply is_string_true in Hs. split; [| eauto]. intros _. right. right. eauto.
    + split; [intros [e He]; done |].
      intros [[m Hm] | [[Hn | Hn] | [o [Ho Hst]]]]; try done.
      injection Ho as <-. apply is_string_true in Hst. congruence.
Qed.

(** C4, counterexample: a 200 response whose body is [null] makes
    [execute] throw although the POST did not fail and no status
    'error' was sent. *)
Lemma execute_throws_on_null_body :
  ~ throws_only_on_failure_or_error_status
      demo_pool None (fun _ => Resolved JNull) "SELECT 1" [].
Proof.
  unfold throws_only_on_failure_or_error_status. intros [Hthrows _].
  destruct Hthrows as [[m Hm] | [o [Ho _]]]; [| done | done].
  unfold throws. eexists. vm_compute. reflexivity.
Qed.

(** C4, as amended: [SqlProxy.execute] sends exactly one request.  It
    throws exactly when the POST fails, the body of the response is
    [null] (or missing), or the body carries the status 'error'; what it
    throws is an [Error] whose message is "Database operation failed: "
    followed by the underlying message.  Otherwise it returns
    [[data, []]] for an array and [[data, undefined]] for anything
    else. *)
Theorem execute_outcome `{JsEngine} (pool : SqlProxy) (store : option string)
    (net : oracle) (sql : string) (params : list json) :
  let req := proxy_request pool store sql params in
  let r := net [req] in
  let res := run store net (SqlProxy_execute pool sql params) in
  res.2 = [req] /\
  (throws res <-> post_fails r \/ body_is_nullish r \/ status_is_error r) /\
  (forall e, res.1 = Raised e ->
     exists message, e = JsError ("Database operation failed: " +:+ message)) /\
  (forall message, r = Rejected message ->
     res.1 = Raised (JsError ("Database operation failed: " +:+ message))) /\
  (forall o, r = Resolved (JObj o) -> fld o "status" = JStr "error" ->
     res.1 = Raised (JsError ("Database operation failed: " +:+
                js_String (js_or (fld o "message") (JStr "Unknown database error"))))) /\
  (forall data, r = Resolved data -> ~ throws res ->
     res.1 = Returned (data, if is_array data then JArr [] else JUndefined)).
Proof.
  intros req r res. subst res. unfold run. rewrite run_from_execute.
  change ([] ++ [proxy_request pool store sql params]) with [req].
  fold r. cbn [fst snd].
  split; [done |]. split; [apply throws_proxy_result |].
  split; [| split; [| split]].
  - intros e He. destruct r as [m | data]; simpl in He.
    + injection He as <-. eauto.
    + destruct data; simpl in He; try done; try (injection He as <-; eauto).
      destruct (is_string _ _); [injection He as <-; eauto | done].
  - intros m ->. done.
  - intros o -> Hst. simpl. apply is_string_true in Hst. by rewrite Hst.
  - intros data -> Hno. destruct data; simpl; try done.
    + exfalso. apply Hno. eexists. reflexivity.
    + exfalso. apply Hno. eexists. reflexivity.
    + destruct (is_string (fld fields "status") "error") eqn:Hs; [| done].
      exfalso. apply Hno. unfold throws. simpl. rewrite Hs. eauto.
Qed.

(** ** The tool-call handler *)

Section Handler.

Context `{JsEngine}.
Variable pool : SqlProxy.
Variable other_cases : string -> option (json -> free poolE CallToolResult).

Lemma run_handle store net request :
  run store net (handle pool other_cases request) =
  match run store net
          (lower pool (dispatch other_cases (name request) (arguments request))) with
  | (Returned result, log) => (Returned result, log)
  | (Raised e, log) => (Returned (error_result e), log)
  end.
Proof.
  unfold run, handle, call_tool. rewrite run_from_lower_try_catch.
  destruct (run_from _ _ _ _) as [[result | e] log]; done.
Qed.

(** C1: the tool-call handler always returns a result and never throws.
    Whatever [dispatch] or a handler throws (an unknown tool name, a
    validation failure, a failure of the remote execution, anything a
    handler of the [switch] raises) comes back as the result whose text
    is "Error: " followed by the message of the error, with [isError]
    set; that text is never empty.  The requests sent are those the
    handler had sent when it threw. *)
Theorem call_tool_never_throws (store : option string) (net : oracle)
    (request : CallToolRequest) :
  let served := run store net (handle pool other_cases request) in
  let inner :=
    run store net
      (lower pool (dispatch other_cases (name request) (arguments request))) in
  (exists result, served.1 = Returned result) /\
  served.2 = inner.2 /\
  (forall result, inner.1 = Returned result -> served.1 = Returned result) /\
  (forall e, inner.1 = Raised e ->
     served.1 = Returned {| text := "Error: " +:+ error_message e; isError := true |} /\
     "Error: " +:+ error_message e <> EmptyString) /\
  (find_case other_cases (name request) = None ->
     served =
     (Returned {| text := "Error: MCP error -32601: Unknown tool: " +:+ name request;
                  isError := true |}, [])).
Proof.
  intros served inner. subst served inner. rewrite run_handle.
  split; [| split; [| split; [| split]]].
  - destruct (run _ _ _) as [[result | e] log]; eauto.
  - destruct (run _ _ _) as [[result | e] log]; done.
  - intros result. destruct (run _ _ _) as [[result' | e] log]; simpl; congruence.
  - intros e. destruct (run _ _ _) as [[result' | e'] log]; simpl; [done |].
    intros [= ->]. split; done.
  - intros Hnone. unfold dispatch. rewrite Hnone. done.
Qed.

End Handler.

(** ** Validation *)

Lemma issue_path_invalid_type expected v path :
  issue_path (invalid_type expected v path) = JArr path.
Proof. reflexivity. Qed.

Lemma issue_path_invalid_enum_value options s path :
  issue_path (invalid_enum_value options s path) = JArr path.
Proof. reflexivity. Qed.

Lemma check_type_mistyped t path v :
  mistyped t v ->
  exists issue, check_type t path v = [issue] /\ issue_path issue = JArr path.
Proof.
  destruct t, v; simpl; try done; eauto using issue_path_invalid_type.
  intros Hs. rewrite bool_decide_eq_false_2 by done.
  eauto using issue_path_invalid_enum_value.
Qed.

Lemma shape_issues_elem shape o k f issue :
  (k, f) ∈ shape -> issue ∈ check_field k f (fld o k) ->
  issue ∈ shape_issues shape o.
Proof.
  intros Hin Hissue. unfold shape_issues.
  apply list_elem_of_In, in_concat.
  exists (check_field k f (fld o k)). split; [| by apply list_elem_of_In].
  apply in_map_iff. exists (k, f). split; [done | by apply list_elem_of_In].
Qed.

(** Where validation rejects, the handler ends there: whatever follows
    the [parse] is not run and nothing is sent. *)
Lemma rejected_before_any_request `{JsEngine} {A : Type} pool store net
    shape args (body : gmap string json -> free poolE A) issues :
  z_object_parse (E := poolE) shape args = Throw (ZodError issues) ->
  run store net (lower pool (z_object_parse shape args ≫= body)) =
  (Raised (ZodError issues), []).
Proof. intros Hparse. unfold mbind, free_bind. by rewrite Hparse. Qed.

(** A handler's validator rejects arguments that omit a key it requires
    or that give a key a value of the wrong kind, and the error names the
    key. *)
Lemma validator_rejects {E : Type -> Type} shape o k f :
  (k, f) ∈ shape ->
  (exists t, f = ZRequired t /\ mistyped t (fld o k)) \/
  (exists t, (f = ZOptional t \/ exists d, f = ZDefault t d) /\
             fld o k <> JUndefined /\ mistyped t (fld o k)) ->
  exists issues issue,
    z_object_parse (E := E) shape (JObj o) = Throw (ZodError issues) /\
    issue ∈ issues /\ issue_path issue = JArr [JStr k].
Proof.
  intros Hin Hbad.
  assert (exists issue, issue ∈ check_field k f (fld o k) /\
                        issue_path issue = JArr [JStr k]) as [issue [Hissue Hpath]].
  { destruct Hbad as [[t [-> Hm]] | [t [Hf [Hdef Hm]]]].
    - destruct (check_type_mistyped t [JStr k] _ Hm) as [issue [Hc Hp]].
      exists issue. simpl. rewrite Hc. split; [apply list_elem_of_singleton |]; done.
    - destruct (check_type_mistyped t [JStr k] _ Hm) as [issue [Hc Hp]].
      exists issue. split; [| done].
      destruct Hf as [-> | [d ->]]; simpl;
        destruct (fld o k); try done; rewrite Hc; by apply list_elem_of_singleton. }
  pose proof (shape_issues_elem shape o k f issue Hin Hissue) as Hmem.
  unfold z_object_parse. destruct (shape_issues shape o) as [| i rest] eqn:Hs.
  - by apply elem_of_nil in Hmem.
  - eauto.
Qed.

Section DeclaredContract.

Context `{JsEngine}.
Variable pool : SqlProxy.
Variable other_cases : string -> option (json -> free poolE CallToolResult).

(** C2, at the input where the code departs from it: the tool
    [create_product_category] declares [branch_id] as required, yet a
    call that omits [branch_id] passes validation and sends the INSERT,
    with [branch_id] replaced by 1. *)
Theorem create_product_category_without_branch_id
    (store : option string) (net : oracle) :
  let args := obj [("name", JStr "Books")] in
  let request := {| name := "create_product_category"; arguments := args |} in
  (exists t, find_tool "create_product_category" = Some t /\
             "branch_id" ∈ required t) /\
  (exists o, args = JObj o /\ o !! "branch_id" = None) /\
  (run store net (handle pool other_cases request)).2 =
  [proxy_request pool store
     "INSERT INTO product_category (name, branch_id) VALUES (?, ?)"
     [JStr "Books"; JNum 1]].
Proof.
  intros args request. split; [| split].
  - eexists. split; [reflexivity |]. simpl. set_solver.
  - eexists. split; [reflexivity |]. done.
  - rewrite run_handle. unfold run, dispatch, find_case. simpl find.
    cbn [snd]. unfold create_product_category.
    replace (z_object_parse create_product_category_shape (arguments request))
      with (Ret (E := poolE) (shape_output create_product_category_shape
                    (list_to_map [("name", JStr "Books")])))
      by reflexivity.
    change (Ret ?x ≫= ?f) with (f x). cbv beta zeta.
    rewrite run_from_pool_execute. cbv zeta.
    set (req := proxy_request _ _ _ _).
    assert (req = proxy_request pool store
              "INSERT INTO product_category (name, branch_id) VALUES (?, ?)"
              [JStr "Books"; JNum 1]) as -> by reflexivity.
    destruct (proxy_result _) as [[result fields] | e]; [| done].
    destruct result; done.
Qed.

End DeclaredContract.

(** ** What a successful [parse] tells *)

Lemma z_object_parse_cases {E : Type -> Type} shape args :
  (exists o, args = JObj o /\ shape_issues shape o = [] /\
             z_object_parse (E := E) shape args = Ret (shape_output shape o)) \/
  (exists issues, z_object_parse (E := E) shape args = Throw (ZodError issues)).
Proof.
  unfold z_object_parse. destruct args; eauto.
  destruct (shape_issues shape fields) eqn:Hs; eauto.
Qed.

Lemma shape_issues_nil shape o k f :
  shape_issues shape o = [] -> (k, f) ∈ shape -> check_field k f (fld o k) = [].
Proof.
  unfold shape_issues. intros Hnil Hin.
  apply concat_nil_Forall in Hnil. rewrite List.Forall_forall in Hnil.
  apply Hnil, in_map_iff. exists (k, f). split; [done | by apply list_elem_of_In].
Qed.

Lemma check_enum_nil options path v :
  check_type (ZEnum options) path v = [] -> exists s, v = JStr s /\ s ∈ options.
Proof.
  destruct v; simpl; try done. case_bool_decide; [eauto | done].
Qed.

(** ** Reception configuration: the table name *)

Section Reception.

Context `{JsEngine}.
Variable pool : SqlProxy.

Lemma sends_one {A : Type} store net sql params
    (k : json * json -> free poolE A) :
  (forall v log, (run_from store net (lower pool (k v)) log).2 = log) ->
  (run store net (lower pool (pool_execute sql params ≫= k))).2 =
  [proxy_request pool store sql params].
Proof.
  intros Hk. unfold run. rewrite run_from_pool_execute. cbv zeta.
  destruct (proxy_result _); [apply Hk | done].
Qed.

Lemma get_prop_sends_nothing {A : Type} store net v key
    (k : json -> free poolE A) log :
  (forall x, (run_from store net (lower pool (k x)) log).2 = log) ->
  (run_from store net (lower pool (get_prop v key ≫= k)) log).2 = log.
Proof. intros Hk. destruct v; simpl; try done; apply Hk. Qed.

Lemma type_enum_checked shape o (rest : zshape) :
  shape = ("type", ZRequired (ZEnum reception_config_types)) :: rest ->
  shape_issues shape o = [] ->
  exists s, fld o "type" = JStr s /\ s ∈ reception_config_types.
Proof.
  intros -> Hnil. apply check_enum_nil with (path := [JStr "type"]).
  apply (shape_issues_nil _ o "type" (ZRequired (ZEnum reception_config_types)) Hnil).
  apply list_elem_of_here.
Qed.

End Reception.

Section ReceptionTables.

Context `{JsEngine}.
Variable pool : SqlProxy.

Lemma one_listed_statement (table text : string) (req : http_request) :
  table ∈ reception_config_types ->
  text ∈ reception_statement_texts table ->
  sql req = text ->
  tables_allow_listed [req].
Proof.
  intros Htable Htext Hsql r Hr. apply list_elem_of_singleton in Hr as ->.
  exists table. by rewrite Hsql.
Qed.

Lemma nothing_sent_allow_listed : tables_allow_listed [].
Proof. intros r Hr. by apply elem_of_nil in Hr. Qed.

Lemma rejected_allow_listed {A : Type} store net shape args
    (body : gmap string json -> free poolE A) issues :
  z_object_parse (E := poolE) shape args = Throw (ZodError issues) ->
  table_from_allow_list
    (run store net (lower pool (z_object_parse shape args ≫= body))) args.
Proof.
  intros Hparse. rewrite (rejected_before_any_request _ _ _ _ _ _ _ Hparse).
  split; [apply nothing_sent_allow_listed |]. intros _. split; [done | eauto].
Qed.

Ltac listed_text :=
  unfold reception_statement_texts;
  repeat first [apply list_elem_of_here | apply list_elem_of_further].

Lemma list_reception_configs_tables store net args :
  table_from_allow_list
    (run store net (lower pool (list_reception_configs args))) args.
Proof.
  unfold list_reception_configs.
  destruct (z_object_parse_cases (E := poolE)
    [("type", ZRequired (ZEnum reception_config_types));
     ("branch_id", ZOptional ZNumber)] args)
    as [[o [-> [Hnil Hparse]]] | [issues Hparse]];
    [| by eapply rejected_allow_listed].
  destruct (type_enum_checked _ o _ eq_refl Hnil) as [s [Hs Hin]].
  split; [| intros Hno; destruct Hno; by exists o, s].
  rewrite Hparse. change (Ret ?x ≫= ?f) with (f x). cbv beta.
  change (fld (shape_output _ o) "type") with (fld o "type").
  rewrite Hs. cbn [js_String]. unfold filter_if_set.
  destruct (truthy _); cbn [fst snd]; rewrite sends_one by (by intros [? ?] ?);
    (eapply one_listed_statement; [done | | reflexivity]); listed_text.
Qed.

Lemma create_reception_config_tables store net args :
  table_from_allow_list
    (run store net (lower pool (create_reception_config args))) args.
Proof.
  unfold create_reception_config.
  destruct (z_object_parse_cases (E := poolE)
    [("type", ZRequired (ZEnum reception_config_types));
     ("name", ZRequired ZString);
     ("branch_id", ZOptional ZNumber)] args)
    as [[o [-> [Hnil Hparse]]] | [issues Hparse]];
    [| by eapply rejected_allow_listed].
  destruct (type_enum_checked _ o _ eq_refl Hnil) as [s [Hs Hin]].
  split; [| intros Hno; destruct Hno; by exists o, s].
  rewrite Hparse. change (Ret ?x ≫= ?f) with (f x). cbv beta zeta.
  change (fld (shape_output _ o) "type") with (fld o "type").
  rewrite Hs. cbn [js_String].
  rewrite sends_one.
  - eapply one_listed_statement; [done | | reflexivity]. listed_text.
  - intros [result fields] log. by apply get_prop_sends_nothing.
Qed.

Lemma delete_reception_config_tables store net args :
  table_from_allow_list
    (run store net (lower pool (delete_reception_config args))) args.
Proof.
  unfold delete_reception_config.
  destruct (z_object_parse_cases (E := poolE)
    [("type", ZRequired (ZEnum reception_config_types));
     ("id", ZRequired ZNumber)] args)
    as [[o [-> [Hnil Hparse]]] | [issues Hparse]];
    [| by eapply rejected_allow_listed].
  destruct (type_enum_checked _ o _ eq_refl Hnil) as [s [Hs Hin]].
  split; [| intros Hno; destruct Hno; by exists o, s].
  rewrite Hparse. change (Ret ?x ≫= ?f) with (f x). cbv beta zeta.
  change (fld (shape_output _ o) "type") with (fld o "type").
  rewrite Hs. cbn [js_String].
  rewrite sends_one by done.
  eapply one_listed_statement; [done | | reflexivity]. listed_text.
Qed.

(** C8: whatever the arguments and whatever the proxy answers, every
    statement sent by [list_reception_configs], [create_reception_config]
    and [delete_reception_config] is one of the fixed templates with the
    name of one of the five allow-listed tables in it; when the [type]
    argument is anything else, validation rejects the call and no
    statement is sent at all. *)
Theorem reception_config_tables_allow_listed (store : option string)
    (net : oracle) (args : json) :
  table_from_allow_list
    (run store net (lower pool (list_reception_configs args))) args /\
  table_from_allow_list
    (run store net (lower pool (create_reception_config args))) args /\
  table_from_allow_list
    (run store net (lower pool (delete_reception_config args))) args.
Proof.
  split; [apply list_reception_configs_tables |].
  split; [apply create_reception_config_tables |].
  apply delete_reception_config_tables.
Qed.

End ReceptionTables.

(** ** Listing inquiries: pagination *)

Section Pagination.

Context `{JsEngine}.
Variable pool : SqlProxy.


End Pagination.


(** ** Truthiness of optional arguments *)

Lemma fld_insert o k v : fld (<[k := v]> o) k = v.
Proof. unfold fld. by rewrite lookup_insert_eq. Qed.

Lemma fld_insert_ne o k k' v : k <> k' -> fld (<[k := v]> o) k' = fld o k'.
Proof. intros Hne. unfold fld. by rewrite lookup_insert_ne. Qed.

Lemma fld_delete o k : fld (delete k o) k = JUndefined.
Proof. unfold fld. by rewrite lookup_delete_eq. Qed.

Lemma fld_delete_ne o k k' : k <> k' -> fld (delete k o) k' = fld o k'.
Proof. intros Hne. unfold fld. by rewrite lookup_delete_ne. Qed.

Lemma fld_list_to_map_here k v (l : list (string * json)) :
  fld (list_to_map ((k, v) :: l)) k = v.
Proof. unfold fld. simpl. by rewrite lookup_insert_eq. Qed.

Lemma fld_list_to_map_further k k' v (l : list (string * json)) :
  k <> k' -> fld (list_to_map ((k, v) :: l)) k' = fld (list_to_map l) k'.
Proof. intros Hne. unfold fld. simpl. by rewrite lookup_insert_ne. Qed.

Lemma fld_list_to_map_nil k : fld (list_to_map []) k = JUndefined.
Proof. reflexivity. Qed.

(** Reading a literal key of the arguments or of a parsed object. *)
Ltac read_fields :=
  repeat first
    [ rewrite fld_list_to_map_nil
    | rewrite fld_insert
    | rewrite fld_delete
    | rewrite fld_insert_ne by done
    | rewrite fld_delete_ne by done
    | rewrite fld_list_to_map_here
    | rewrite fld_list_to_map_further by done ].

Ltac read_parsed shape :=
  unfold shape_output; cbn [map shape fst snd]; read_fields.

Lemma push_if_set_agree p1 p2 f acc :
  agree p1 p2 f -> push_if_set p1 f acc = push_if_set p2 f acc.
Proof.
  unfold push_if_set. intros [-> | [-> ->]]; done.
Qed.

Lemma filter_if_set_agree p1 p2 k clause (vals : json -> list json) acc :
  agree p1 p2 k ->
  filter_if_set (fld p1 k) clause (vals (fld p1 k)) acc =
  filter_if_set (fld p2 k) clause (vals (fld p2 k)) acc.
Proof.
  unfold filter_if_set. intros [-> | [-> ->]]; done.
Qed.

Lemma update_inquiry_clauses_agree p1 p2 :
  Forall (agree p1 p2) updatable_fields ->
  update_inquiry_clauses p1 = update_inquiry_clauses p2.
Proof.
  intros Hall. unfold update_inquiry_clauses. cbv zeta.
  repeat (apply Forall_cons_1 in Hall as [Hk Hall];
          rewrite (push_if_set_agree p1 p2 _ _ Hk); clear Hk).
  done.
Qed.

Lemma list_inquiries_query_agree p1 p2 :
  Forall (agree p1 p2) list_inquiries_filters ->
  fld p1 "limit" = fld p2 "limit" ->
  fld p1 "offset" = fld p2 "offset" ->
  list_inquiries_query p1 = list_inquiries_query p2.
Proof.
  intros Hall Hlimit Hoffset. unfold list_inquiries_query. cbv zeta.
  rewrite Hlimit, Hoffset.
  apply Forall_cons_1 in Hall as [Hk Hall].
  rewrite (filter_if_set_agree p1 p2 "branch_id" _ (fun v => [v]) _ Hk).
  apply Forall_cons_1 in Hall as [Hs Hall].
  rewrite (filter_if_set_agree p1 p2 "search" _
             (fun v => [like_pattern v; like_pattern v; like_pattern v]) _ Hs).
  repeat (apply Forall_cons_1 in Hall as [Hk' Hall];
          rewrite (filter_if_set_agree p1 p2 _ _ (fun v => [v]) _ Hk'); clear Hk').
  done.
Qed.

(** Validation does not tell a valid value of an optional key from a
    missing one. *)
Lemma shape_issues_optional shape o f v :
  (forall ff, (f, ff) ∈ shape ->
     check_field f ff v = [] /\ check_field f ff JUndefined = []) ->
  shape_issues shape (<[f := v]> o) = shape_issues shape (delete f o).
Proof.
  unfold shape_issues. induction shape as [| [k fk] rest IH]; intros Hf; [done |].
  cbn [map concat fst snd]. rewrite IH.
  - f_equal. destruct (decide (f = k)) as [<- | Hne].
    + rewrite fld_insert, fld_delete.
      destruct (Hf fk) as [-> ->]; [apply list_elem_of_here | done].
    + by rewrite fld_insert_ne, fld_delete_ne.
  - intros ff Hin. apply Hf. by apply list_elem_of_further.
Qed.

Lemma shape_output_agree shape o f v k :
  f <> k ->
  fld (shape_output shape (<[f := v]> o)) k =
  fld (shape_output shape (delete f o)) k.
Proof.
  intros Hne. unfold shape_output, fld. f_equal.
  induction shape as [| [k' fk] rest IH]; [done |].
  cbn [map list_to_map foldr fst snd curry].
  destruct (decide (k' = k)) as [-> | Hne'].
  - rewrite !lookup_insert_eq.
    change (default JUndefined (<[f:=v]> o !! k)) with (fld (<[f:=v]> o) k).
    change (default JUndefined (delete f o !! k)) with (fld (delete f o) k).
    by rewrite fld_insert_ne, fld_delete_ne.
  - by rewrite !lookup_insert_ne.
Qed.

Section Truthiness.

Context `{JsEngine}.

(** The entries of a literal shape under one key. *)
Ltac entries_of_key :=
  let ff := fresh "ff" in
  let Hin := fresh "Hin" in
  intros ff Hin;
  repeat (apply elem_of_cons in Hin as [Hin | Hin]; [simplify_eq; by split |]);
  by apply elem_of_nil in Hin.

Ltac agree_on shape :=
  first [ left; apply shape_output_agree; done
        | right; split; read_parsed shape; reflexivity ].

Lemma list_inquiries_falsy f v o :
  (f, v) ∈ falsy_filters ->
  list_inquiries (JObj (<[f := v]> o)) = list_inquiries (JObj (delete f o)).
Proof.
  intros Hin. unfold list_inquiries, z_object_parse.
  assert (shape_issues list_inquiries_shape (<[f := v]> o) =
          shape_issues list_inquiries_shape (delete f o)) as ->.
  { apply shape_issues_optional. unfold falsy_filters in Hin.
    repeat (apply elem_of_cons in Hin as [Hin | Hin];
            [simplify_eq; entries_of_key |]).
    by apply elem_of_nil in Hin. }
  destruct (shape_issues _ _); [| done].
  change (Ret ?x ≫= ?f) with (f x). cbv beta.
  rewrite (list_inquiries_query_agree
             (shape_output list_inquiries_shape (<[f := v]> o))
             (shape_output list_inquiries_shape (delete f o))); [done | ..].
  - unfold falsy_filters in Hin.
    repeat (apply elem_of_cons in Hin as [Hin | Hin];
            [simplify_eq;
             repeat apply Forall_cons_2; [.. | apply Forall_nil_2];
             agree_on list_inquiries_shape |]).
    by apply elem_of_nil in Hin.
  - unfold falsy_filters in Hin.
    repeat (apply elem_of_cons in Hin as [Hin | Hin];
            [simplify_eq; by apply shape_output_agree |]).
    by apply elem_of_nil in Hin.
  - unfold falsy_filters in Hin.
    repeat (apply elem_of_cons in Hin as [Hin | Hin];
            [simplify_eq; by apply shape_output_agree |]).
    by apply elem_of_nil in Hin.
Qed.

Lemma update_inquiry_falsy f o :
  f ∈ update_inquiry_optional_fields ->
  update_inquiry (JObj (<[f := JStr EmptyString]> o)) =
  update_inquiry (JObj (delete f o)).
Proof.
  intros Hin. unfold update_inquiry, z_object_parse.
  assert (shape_issues update_inquiry_shape (<[f := JStr EmptyString]> o) =
          shape_issues update_inquiry_shape (delete f o)) as ->.
  { apply shape_issues_optional.
    unfold update_inquiry_optional_fields, updatable_fields in Hin. simpl in Hin.
    repeat (apply elem_of_cons in Hin as [Hin | Hin];
            [simplify_eq; entries_of_key |]).
    by apply elem_of_nil in Hin. }
  destruct (shape_issues _ _); [| done].
  change (Ret ?x ≫= ?f) with (f x). cbv beta.
  rewrite (update_inquiry_clauses_agree
             (shape_output update_inquiry_shape (<[f := JStr EmptyString]> o))
             (shape_output update_inquiry_shape (delete f o))).
  - rewrite (shape_output_agree update_inquiry_shape o f _ "id"); [done |].
    unfold update_inquiry_optional_fields, updatable_fields in Hin. simpl in Hin.
    repeat (apply elem_of_cons in Hin as [Hin | Hin]; [by simplify_eq |]).
    by apply elem_of_nil in Hin.
  - unfold update_inquiry_optional_fields, updatable_fields in Hin. simpl in Hin.
    repeat (apply elem_of_cons in Hin as [Hin | Hin];
            [simplify_eq;
             repeat apply Forall_cons_2; [.. | apply Forall_nil_2];
             agree_on update_inquiry_shape |]).
    by apply elem_of_nil in Hin.
Qed.

(** C10, as amended: an optional argument that the handler tests by
    truthiness is, when supplied with a falsy value, treated as if it
    were absent.  So it is with every optional filter of
    [list_inquiries] and every optional field of [update_inquiry].
    [list_inquiries] given an optional filter equal to 0 (a number) or
    to the empty string is the same program as [list_inquiries] without
    that filter: same validation, same query, same parameters; so
    [branch_id] 0 adds no branch predicate.  [update_inquiry] given an
    optional field equal to the empty string is the same program as
    [update_inquiry] without it: the field is not written and does not
    count as supplied.  ([limit] and [offset] of [list_inquiries] are
    not tested by truthiness: they have a default, taken only when the
    key is missing.) *)
Theorem falsy_argument_like_absent :
  Forall (fun fv => forall o,
            list_inquiries (JObj (<[fv.1 := fv.2]> o)) =
            list_inquiries (JObj (delete fv.1 o)))
         falsy_filters /\
  Forall (fun f => forall o,
            update_inquiry (JObj (<[f := JStr EmptyString]> o)) =
            update_inquiry (JObj (delete f o)))
         update_inquiry_optional_fields.
Proof.
  split; apply List.Forall_forall.
  - intros [f v] Hin o. apply list_inquiries_falsy. by apply list_elem_of_In.
  - intros f Hin o. apply update_inquiry_falsy. by apply list_elem_of_In.
Qed.

End Truthiness.

(** C10, counterexample: [limit] is an optional argument of
    [list_inquiries] by its declaration and 0 is falsy; yet the call
    with the limit 0 binds 0 to "LIMIT ?" where the call without [limit]
    binds 50. *)
Lemma list_inquiries_limit_zero_is_not_absent :
  (exists t, find_tool "list_inquiries" = Some t /\
             (("limit", TNumber) ∈ properties t) /\ ("limit" ∉ required t)) /\
  truthy (JNum 0) = false /\
  map params
    (run None demo_net (lower demo_pool (list_inquiries (obj [("limit", JNum 0)])))).2 =
  [[JNum 0; JNum 0]] /\
  map params (run None demo_net (lower demo_pool (list_inquiries (obj [])))).2 =
  [[JNum 50; JNum 0]] /\
  ~ treated_as_absent demo_pool list_inquiries "limit" (JNum 0).
Proof.
  split; [| split; [| split; [| split]]].
  - eexists. split; [reflexivity |]. split.
    + cbn [properties]. repeat first [apply list_elem_of_here | apply list_elem_of_further].
    + cbn [required]. apply not_elem_of_nil.
  - reflexivity.
  - reflexivity.
  - reflexivity.
  - intros Hsame. specialize (Hsame None demo_net ∅).
    apply (f_equal (fun res => map params res.2)) in Hsame.
    vm_compute in Hsame. discriminate Hsame.
Qed.

(** ** Updating an inquiry *)

Lemma foldl_push_if_set p fields updates values :
  foldl (fun acc f => push_if_set p f acc) (updates, values) fields =
  (updates ++ map set_clause (List.filter (fun f => truthy (fld p f)) fields),
   values ++ map (fld p) (List.filter (fun f => truthy (fld p f)) fields)).
Proof.
  revert updates values. induction fields as [| f rest IH]; intros updates values.
  - simpl. by rewrite !app_nil_r.
  - cbn [foldl List.filter]. unfold push_if_set at 2.
    destruct (truthy (fld p f)); cbn [fst snd]; rewrite IH; [| done].
    cbn [map]. by rewrite <- !app_assoc.
Qed.

Lemma update_inquiry_clauses_written p :
  update_inquiry_clauses p =
  (map set_clause (written p) ++ ["updated_at = NOW()"], map (fld p) (written p)).
Proof.
  change (update_inquiry_clauses p)
    with (let acc := foldl (fun acc f => push_if_set p f acc) ([], [])
                       updatable_fields in
          (acc.1 ++ ["updated_at = NOW()"], acc.2)).
  cbv zeta. by rewrite foldl_push_if_set.
Qed.

Lemma fld_parsed_written o f :
  f ∈ updatable_fields -> fld (shape_output update_inquiry_shape o) f = fld o f.
Proof.
  unfold updatable_fields. intros Hin.
  repeat (apply elem_of_cons in Hin as [-> | Hin];
          [by read_parsed update_inquiry_shape |]).
  by apply elem_of_nil in Hin.
Qed.

Lemma written_parsed o :
  written (shape_output update_inquiry_shape o) = written o.
Proof.
  unfold written. apply List.filter_ext_in. intros f Hin.
  by rewrite fld_parsed_written by by apply list_elem_of_In.
Qed.

Lemma written_updatable p f : f ∈ written p -> f ∈ updatable_fields.
Proof.
  unfold written. rewrite !list_elem_of_In. intros Hin.
  by apply List.filter_In in Hin as [Hin _].
Qed.

Lemma written_truthy p f :
  f ∈ written p <-> f ∈ updatable_fields /\ truthy (fld p f) = true.
Proof. unfold written. rewrite !list_elem_of_In. apply List.filter_In. Qed.

(** *** The UPDATE applied to a row *)

Lemma filter_sublists {A : Type} (f : A -> bool) (l : list A) :
  List.filter f l ∈ sublists l.
Proof.
  induction l as [| x l IH]; [apply list_elem_of_here |].
  cbn [List.filter sublists]. apply elem_of_app. destruct (f x); [left | by right].
  apply list_elem_of_fmap. by exists (List.filter f l).
Qed.

(** Whichever updatable fields it writes, the text of the UPDATE is read
    as their assignments followed by that of the clock, and the word
    "status" is nowhere in it. *)
Lemma update_inquiry_sql_read w :
  w ∈ sublists updatable_fields ->
  set_list "enquiry"
    (update_inquiry_sql (map set_clause w ++ ["updated_at = NOW()"])) =
  Some (map Bound w ++ [Clock "updated_at"]) /\
  mentions "status"
    (update_inquiry_sql (map set_clause w ++ ["updated_at = NOW()"])) = false.
Proof.
  revert w. apply Forall_forall.
  apply (bool_decide_unpack _). by vm_compute.
Qed.

Lemma assign_all_bound now (p : gmap string json) fields tail row extra :
  assign_all now (map Bound fields ++ tail) (row, map (fld p) fields ++ extra) =
  assign_all now tail (foldl (fun r f => <[f := fld p f]> r) row fields, extra).
Proof.
  unfold assign_all. revert row.
  induction fields as [| f rest IH]; intros row; [done |].
  cbn [map app foldl]. apply IH.
Qed.

Lemma foldl_insert_lookup (p : gmap string json) fields (row : gmap string json) c :
  foldl (fun r f => <[f := fld p f]> r) row fields !! c =
  if bool_decide (c ∈ fields) then Some (fld p c) else row !! c.
Proof.
  revert row. induction fields as [| f rest IH]; intros row; [done |].
  cbn [foldl]. rewrite IH. destruct (decide (c = f)) as [-> | Hne].
  - rewrite lookup_insert_eq.
    rewrite (bool_decide_eq_true_2 (f ∈ f :: rest)) by apply list_elem_of_here.
    by case_bool_decide.
  - rewrite lookup_insert_ne by done.
    case_bool_decide as Hin; case_bool_decide as Hin'; try done.
    + destruct Hin'. by apply list_elem_of_further.
    + apply elem_of_cons in Hin' as [? | ?]; done.
Qed.

(** The row after the UPDATE of [update_inquiry]. *)
Lemma update_row_update_inquiry now o id row :
  update_row "enquiry" now
    (update_inquiry_sql (map set_clause (written o) ++ ["updated_at = NOW()"]))
    (map (fld o) (written o) ++ [id]) row =
  Some (<["updated_at" := now]>
          (foldl (fun r f => <[f := fld o f]> r) row (written o))).
Proof.
  unfold update_row.
  destruct (update_inquiry_sql_read (written o)) as [-> _];
    [apply filter_sublists |].
  cbn [mbind option_bind]. by rewrite assign_all_bound.
Qed.

Section UpdateInquiry.

Context `{JsEngine}.
Variable pool : SqlProxy.

Lemma update_inquiry_valid o :
  shape_issues update_inquiry_shape o = [] ->
  update_inquiry (JObj o) =
  match written o with
  | [] => Ret no_update_result
  | _ =>
      '(result, _) ← pool_execute
        (update_inquiry_sql (map set_clause (written o) ++ ["updated_at = NOW()"]))
        (map (fld o) (written o) ++ [fld o "id"]);
      affectedRows ← get_prop result "affectedRows";
      if is_number affectedRows 0 then
        Throw (McpError ErrorCode_InvalidRequest
                 ("Inquiry with ID " +:+ js_String (fld o "id") +:+ " not found"))
      else
        Ret (text_result
               ("Inquiry " +:+ js_String (fld o "id") +:+ " updated successfully."))
  end.
Proof.
  intros Hvalid. unfold update_inquiry, z_object_parse. rewrite Hvalid.
  change (Ret ?x ≫= ?f) with (f x). cbv beta.
  rewrite update_inquiry_clauses_written, written_parsed.
  assert (fld (shape_output update_inquiry_shape o) "id" = fld o "id") as ->
    by by read_parsed update_inquiry_shape.
  assert (map (fld (shape_output update_inquiry_shape o)) (written o) =
          map (fld o) (written o)) as ->.
  { apply map_ext_in. intros f Hin. apply fld_parsed_written.
    apply list_elem_of_In in Hin. by eapply written_updatable. }
  destruct (written o) as [| f rest]; [done |].
  replace (length (map set_clause (f :: rest) ++ ["updated_at = NOW()"]) <=? 1)%nat
    with false; [done |].
  symmetry. apply Nat.leb_gt. rewrite length_app, length_map. simpl. lia.
Qed.

Lemma update_inquiry_rejected o store net :
  shape_issues update_inquiry_shape o <> [] ->
  (run store net (lower pool (update_inquiry (JObj o)))).2 = [].
Proof.
  intros Hbad. unfold update_inquiry, z_object_parse.
  destruct (shape_issues update_inquiry_shape o); done.
Qed.

Lemma run_update_inquiry store net o :
  shape_issues update_inquiry_shape o = [] ->
  let res := run store net (lower pool (update_inquiry (JObj o))) in
  (written o = [] -> res = (Returned no_update_result, [])) /\
  (written o <> [] -> res.2 = [update_inquiry_request pool store o]).
Proof.
  intros Hvalid res. subst res. rewrite (update_inquiry_valid o Hvalid).
  split; intros Hw.
  - by rewrite Hw.
  - destruct (written o) as [| f rest] eqn:Hwr; [done |].
    unfold update_inquiry_request. rewrite Hwr.
    apply sends_one. intros [result fields] log.
    apply get_prop_sends_nothing. intros x. by destruct (is_number x 0).
Qed.

End UpdateInquiry.

Lemma filter_nil {A : Type} (f : A -> bool) (l : list A) :
  (forall x, x ∈ l -> f x = false) -> List.filter f l = [].
Proof.
  induction l as [| x l IH]; intros Hall; [done |].
  simpl. rewrite (Hall x) by apply list_elem_of_here.
  apply IH. intros y Hy. apply Hall. by apply list_elem_of_further.
Qed.

Lemma updatable_not_updated_at f : f ∈ updatable_fields -> f <> "updated_at".
Proof.
  unfold updatable_fields. intros Hin.
  repeat (apply elem_of_cons in Hin as [-> | Hin]; [done |]).
  by apply elem_of_nil in Hin.
Qed.

Lemma status_not_updatable : "status" ∉ updatable_fields.
Proof.
  unfold updatable_fields. intros Hin.
  repeat (apply elem_of_cons in Hin as [? | Hin]; [done |]).
  by apply elem_of_nil in Hin.
Qed.

Lemma written_lookup o now row column :
  <["updated_at" := now]>
    (foldl (fun r f => <[f := fld o f]> r) row (written o)) !! column =
  updated_inquiry o now row column.
Proof.
  unfold updated_inquiry.
  destruct (bool_decide (column ∈ updatable_fields) && truthy (fld o column))
    eqn:Hstored.
  - apply andb_true_iff in Hstored as [Hin Htruthy].
    apply bool_decide_eq_true_1 in Hin.
    rewrite lookup_insert_ne by (symmetry; by apply updatable_not_updated_at).
    rewrite foldl_insert_lookup, bool_decide_eq_true_2; [done |].
    by apply written_truthy.
  - destruct (decide (column = "updated_at")) as [-> | Hclock];
      [by rewrite lookup_insert_eq |].
    rewrite (bool_decide_eq_false_2 _ Hclock), lookup_insert_ne by done.
    rewrite foldl_insert_lookup, bool_decide_eq_false_2; [done |].
    intros Hin. apply written_truthy in Hin as [Hin Htruthy].
    by rewrite (bool_decide_eq_true_2 _ Hin), Htruthy in Hstored.
Qed.

(** C6, counterexample: [name] supplied as the empty string is not
    stored, and the call sends no statement at all; neither is a
    [status] that is supplied, nor a [name] supplied in a call that does
    not pass validation (here for want of an [id]). *)
Lemma update_inquiry_empty_name_not_stored :
  ~ supplied_fields_are_stored demo_pool
      (list_to_map [("id", JNum 1); ("name", JStr EmptyString)]) /\
  ~ supplied_fields_are_stored demo_pool
      (list_to_map [("id", JNum 1); ("status", JStr "closed")]) /\
  ~ supplied_fields_are_stored demo_pool (list_to_map [("name", JStr "Jane")]).
Proof.
  split; [| split]; intros Hstored.
  - destruct (Hstored None demo_net "name" (JStr EmptyString)) as [req [Hsent _]].
    + unfold update_inquiry_optional_fields, updatable_fields. simpl.
      apply list_elem_of_here.
    + reflexivity.
    + vm_compute in Hsent. discriminate Hsent.
  - destruct (Hstored None demo_net "status" (JStr "closed")) as [req [Hsent _]].
    + unfold update_inquiry_optional_fields, updatable_fields. simpl.
      repeat first [apply list_elem_of_here | apply list_elem_of_further].
    + reflexivity.
    + vm_compute in Hsent. discriminate Hsent.
  - destruct (Hstored None demo_net "name" (JStr "Jane")) as [req [Hsent _]].
    + unfold update_inquiry_optional_fields, updatable_fields. simpl.
      apply list_elem_of_here.
    + reflexivity.
    + vm_compute in Hsent. discriminate Hsent.
Qed.

Section PartialUpdate.

Context `{JsEngine}.
Variable pool : SqlProxy.

(** C6, as amended: the clause list of [update_inquiry] is built from
    the updatable fields ([name], [mobile_no], [father_name],
    [mother_name], [email], [address], [response], [note]) that are
    supplied with a non-empty value.  For valid arguments: when no
    updatable field is supplied with a non-empty value, no statement is
    sent and the result is "No fields to update provided."; when some
    updatable field is, exactly one UPDATE is sent, and the row it
    applies to holds afterwards the supplied value under every updatable
    field supplied non-empty, the time of the update under [updated_at],
    and under every other column, whatever it is, the value it held: no
    unsupplied field is changed, and neither is a field supplied empty
    nor [status]. *)
Theorem update_inquiry_partial_update (store : option string) (net : oracle)
    (o : gmap string json) :
  shape_issues update_inquiry_shape o = [] ->
  partial_update pool store net o.
Proof.
  intros Hvalid. unfold partial_update.
  destruct (run_update_inquiry pool store net o Hvalid) as [Hnone Hsome].
  split.
  - intros Hfalsy. apply Hnone. by apply filter_nil.
  - intros [f [Hf Htruthy]]. split.
    + apply Hsome. intros Hw.
      assert (f ∈ written o) as Hin by by apply written_truthy.
      rewrite Hw in Hin. by apply elem_of_nil in Hin.
    + intros now row. eexists. split.
      * unfold update_inquiry_request, proxy_request. cbn [sql params].
        apply update_row_update_inquiry.
      * intros column. apply written_lookup.
Qed.

(** C9: [update_inquiry] never writes [status].  The advertised schema
    and the validator both take an optional [status]; yet, whatever the
    arguments, the text of an UPDATE the handler sends does not hold the
    word "status" at all: its SET list, read from that text, assigns
    columns none of which is [status], and [status] keeps its value in
    the row the UPDATE applies to.  A call with only [id] and [status]
    returns "No fields to update provided." without sending anything. *)
Theorem update_inquiry_never_writes_status (store : option string)
    (net : oracle) (args : json) :
  (exists t, find_tool "update_inquiry" = Some t /\
             (("status", TString) ∈ properties t) /\ ("status" ∉ required t)) /\
  ("status", ZOptional ZString) ∈ update_inquiry_shape /\
  (forall req, req ∈ (run store net (lower pool (update_inquiry args))).2 ->
     mentions "status" (sql req) = false /\
     (exists columns,
        assigned_columns "enquiry" (sql req) = Some columns /\
        "status" ∉ columns) /\
     forall now row, exists row',
       update_row "enquiry" now (sql req) (params req) row = Some row' /\
       row' !! "status" = row !! "status") /\
  (forall id status,
     run store net
       (lower pool (update_inquiry (obj [("id", JNum id); ("status", JStr status)]))) =
     (Returned no_update_result, [])).
Proof.
  split; [| split; [| split]].
  - eexists. split; [reflexivity |]. split.
    + cbn [properties]. repeat first [apply list_elem_of_here | apply list_elem_of_further].
    + cbn [required]. intros Hin. apply list_elem_of_singleton in Hin. done.
  - unfold update_inquiry_shape.
    repeat first [apply list_elem_of_here | apply list_elem_of_further].
  - intros req Hreq.
    destruct args as [| | | | | | o];
      try (by apply elem_of_nil in Hreq).
    destruct (shape_issues update_inquiry_shape o) as [| i l] eqn:Hvalid;
      [| rewrite update_inquiry_rejected in Hreq by (by rewrite Hvalid);
         by apply elem_of_nil in Hreq].
    destruct (run_update_inquiry pool store net o Hvalid) as [Hnone Hsome].
    destruct (written o) as [| f rest] eqn:Hw.
    { rewrite Hnone in Hreq by done. by apply elem_of_nil in Hreq. }
    rewrite Hsome in Hreq by done. apply list_elem_of_singleton in Hreq as ->.
    unfold update_inquiry_request, proxy_request. cbn [sql params].
    destruct (update_inquiry_sql_read (written o)) as [Hread Hword];
      [apply filter_sublists |].
    split; [exact Hword |]. split.
    + exists (written o ++ ["updated_at"]). unfold assigned_columns.
      rewrite Hread. cbn [fmap option_fmap option_map]. split.
      * f_equal. rewrite map_app, map_map. cbn [map assigned_column].
        f_equal. apply map_id.
      * intros Hin. apply elem_of_app in Hin as [Hin | Hin].
        -- apply written_updatable in Hin. by apply status_not_updatable.
        -- by apply list_elem_of_singleton in Hin.
    + intros now row. eexists. split; [apply update_row_update_inquiry |].
      rewrite written_lookup. unfold updated_inquiry.
      rewrite (bool_decide_eq_false_2 _ status_not_updatable).
      by cbn [andb].
  - intros id status. unfold obj.
    set (o := list_to_map [("id", JNum id); ("status", JStr status)]).
    assert (shape_issues update_inquiry_shape o = []) as Hvalid.
    { unfold shape_issues, o. cbn [map update_inquiry_shape concat fst snd].
      read_fields. reflexivity. }
    destruct (run_update_inquiry pool store net o Hvalid) as [Hnone _].
    apply Hnone. apply filter_nil. unfold updatable_fields. intros f Hin.
    repeat (apply elem_of_cons in Hin as [-> | Hin];
            [unfold o; by read_fields |]).
    by apply elem_of_nil in Hin.
Qed.

End PartialUpdate.

(** ** Creating a purchase: the statement sequence *)

Section Purchase.

Context `{JsEngine}.
Variable pool : SqlProxy.
Variables (store : option string) (net : oracle).

Lemma run_from_lower_bind {A B : Type} (p : free poolE A) (f : A -> free poolE B) log :
  run_from store net (lower pool (p ≫= f)) log =
  match run_from store net (lower pool p) log with
  | (Returned a, log') => run_from store net (lower pool (f a)) log'
  | (Raised e, log') => (Raised e, log')
  end.
Proof.
  unfold mbind, free_bind.
  revert log. induction p as [a | e | X ev k IH]; intros log; [done | done |].
  destruct ev. cbn [bind lower]. rewrite !run_from_attempt. apply IH.
Qed.

Lemma run_from_lower_execute sql params log :
  run_from store net (lower pool (pool_execute sql params)) log =
  (proxy_result (net (log ++ [proxy_request pool store sql params])),
   log ++ [proxy_request pool store sql params]).
Proof.
  unfold pool_execute. cbn [lower]. rewrite run_from_attempt, run_from_execute.
  cbn [fst snd]. by destruct (proxy_result _).
Qed.

Lemma get_prop_prop {E : Type -> Type} v k :
  nullish v = false -> get_prop (E := E) v k = Ret (prop v k).
Proof. by destruct v. Qed.

Lemma run_from_item_subtotal item log :
  nullish item = false ->
  run_from store net (lower pool (item_subtotal item)) log =
  (Returned (subtotal_of item), log).
Proof.
  intros Hitem. unfold item_subtotal. by rewrite !get_prop_prop by done.
Qed.

Lemma run_from_purchase_total items total log :
  Forall (fun item => nullish item = false) items ->
  run_from store net (lower pool (purchase_total items total)) log =
  (Returned (fold_left (fun total item => js_add total (subtotal_of item)) items total),
   log).
Proof.
  revert total. induction items as [| item rest IH]; intros total Hall; [done |].
  apply Forall_cons_1 in Hall as [Hitem Hall].
  cbn [purchase_total fold_left].
  rewrite run_from_lower_bind, run_from_item_subtotal by done. by apply IH.
Qed.

Lemma run_from_purchase_details billId items log :
  Forall (fun item => nullish item = false) items ->
  run_from store net (lower pool (purchase_details billId items)) log =
  match send_in_order pool store net (flat_map (item_statements billId) items) log with
  | (None, log') => (Returned (), log')
  | (Some e, log') => (Raised e, log')
  end.
Proof.
  revert log. induction items as [| item rest IH]; intros log Hall; [done |].
  apply Forall_cons_1 in Hall as [Hitem Hall].
  cbn [purchase_details flat_map item_statements app send_in_order fst snd].
  rewrite run_from_lower_bind, run_from_item_subtotal by done.
  rewrite !get_prop_prop by done.
  repeat (progress change (Ret ?x ≫= ?f) with (f x); cbv beta).
  rewrite run_from_lower_bind, run_from_lower_execute.
  destruct (proxy_result _) as [v | e]; [| done].
  rewrite run_from_lower_bind, run_from_lower_execute.
  destruct (proxy_result _) as [v' | e]; [| done].
  by apply IH.
Qed.

Lemma proxy_result_not_nullish r data fields :
  proxy_result r = Returned (data, fields) -> nullish data = false.
Proof.
  destruct r as [m | d]; [done |].
  destruct d; simpl; try done; try by intros [= <- <-].
  destruct (is_string _ _); [done | by intros [= <- <-]].
Qed.


End Purchase.

Section PurchaseSequence.

Context `{JsEngine}.
Variable pool : SqlProxy.



Lemma run_create_purchase store net o :
  shape_issues create_purchase_shape o = [] ->
  Forall (fun item => nullish item = false) (array_items (fld o "items")) ->
  let first := proxy_request pool store (bill_statement o).1 (bill_statement o).2 in
  run store net (lower pool (create_purchase (JObj o))) =
  match proxy_result (net [first]) with
  | Raised e => (Raised e, [first])
  | Returned (billResult, _) =>
      let billId := prop billResult "insertId" in
      match send_in_order pool store net
              (flat_map (item_statements billId) (array_items (fld o "items")))
              [first] with
      | (None, log) =>
          (Returned (text_result ("Purchase order created. Bill ID: "
                                  +:+ js_String billId)), log)
      | (Some e, log) => (Raised e, log)
      end
  end.
Proof.
  intros Hvalid Hitems first. subst first.
  unfold create_purchase, z_object_parse. rewrite Hvalid.
  change (Ret ?x ≫= ?f) with (f x). cbv beta zeta.
  read_parsed create_purchase_shape. cbn [field_value].
  unfold run. rewrite run_from_lower_bind, run_from_purchase_total by done.
  rewrite run_from_lower_bind, run_from_lower_execute.
  change ([] ++ ?l) with l. unfold bill_statement, total_of. cbn [fst snd].
  destruct (proxy_result _) as [[billResult fields] | e] eqn:Hfirst; [| done].
  rewrite (get_prop_prop billResult) by (by eapply proxy_result_not_nullish).
  change (Ret ?x ≫= ?f) with (f x). cbv beta zeta.
  rewrite run_from_lower_bind, run_from_purchase_details by done.
  by destruct (send_in_order _ _ _ _ _) as [[e |] log].
Qed.




End PurchaseSequence.

(** ** Credentials of requests in flight *)

Section Isolation.

Context `{JsEngine}.
Variable pool : SqlProxy.

Lemma keyed_attempt {A B : Type} store key (p : free netE A)
    (k : outcome A -> free netE B) :
  keyed store key p -> (forall o, keyed store key (k o)) ->
  keyed store key (attempt p k).
Proof.
  intros Hp Hk. induction p as [a | e | X ev c IH]; [apply Hk | apply Hk |].
  destruct ev; cbn [attempt keyed] in *.
  - by apply IH.
  - destruct Hp as [Hkey Hp]. split; [done |]. intros r. by apply IH.
Qed.

Lemma keyed_execute store sql params :
  keyed store (resolve_api_key store (defaultApiKey pool))
        (SqlProxy_execute pool sql params).
Proof.
  unfold SqlProxy_execute. simpl. split; [done |].
  intros [message | data]; simpl; [done |].
  destruct data; simpl; try done.
  by destruct (is_string _ _).
Qed.

(** A handler reaches the network through [pool.execute] only. *)
Lemma keyed_lower {A : Type} store (p : free poolE A) :
  keyed store (resolve_api_key store (defaultApiKey pool)) (lower pool p).
Proof.
  induction p as [a | e | X ev k IH]; [done | done |].
  destruct ev. cbn [lower]. apply keyed_attempt; [apply keyed_execute | done].
Qed.

Lemma advance_keyed current key p :
  keyed current key p ->
  Forall (fun req => x_api_key req = key) (advance current p).2 /\
  match (advance current p).1 with
  | Ready q => keyed current key q
  | Awaiting k => forall r, keyed current key (k r)
  | Finished _ => True
  end.
Proof.
  induction p as [a | e | X ev k IH]; [done | done |].
  destruct ev; cbn [advance keyed].
  - apply IH.
  - intros [Hkey Hk]. split; [by apply Forall_singleton | done].
Qed.

Lemma resume_isolated contexts i response s :
  isolated (defaultApiKey pool) contexts s ->
  isolated (defaultApiKey pool) contexts (resume i response s).
Proof.
  intros (Hctx & Htasks & Hsent). unfold resume.
  destruct (tasks s !! i) as [t |] eqn:Hi; [| done].
  assert (task_keyed (defaultApiKey pool) t) as Ht
    by (by eapply Forall_lookup_1 in Htasks).
  assert (contexts !! i = Some (context t)) as Hci
    by (by rewrite <- Hctx, list_lookup_fmap, Hi).
  set (key := resolve_api_key (context t) (defaultApiKey pool)).
  assert (forall p, keyed (context t) key p ->
            isolated (defaultApiKey pool) contexts
              {| current_store := context t;
                 tasks := <[i := {| context := context t;
                                    state := (advance (context t) p).1 |}]> (tasks s);
                 outbox := outbox s ++ map (pair i) (advance (context t) p).2 |})
    as Hstep.
  { intros p Hp. destruct (advance_keyed _ _ _ Hp) as [Hout Hst].
    split; [| split]; cbn [tasks outbox].
    - rewrite <- Hctx. apply list_eq. intros j.
      rewrite !list_lookup_fmap. destruct (decide (i = j)) as [<- | Hne].
      + rewrite list_lookup_insert_eq by by eapply lookup_lt_Some. by rewrite Hi.
      + by rewrite list_lookup_insert_ne.
    - apply Forall_insert; [done |]. unfold task_keyed. cbn [context state].
      fold key. by destruct (advance (context t) p).1.
    - intros j req Hin. apply elem_of_app in Hin as [Hin | Hin]; [by apply Hsent |].
      apply list_elem_of_fmap in Hin as [r [[= -> ->] Hr]].
      exists (context t). split; [done |].
      rewrite List.Forall_forall in Hout. apply Hout. by apply list_elem_of_In. }
  unfold task_keyed in Ht. fold key in Ht. cbn [enter current_store tasks outbox].
  destruct (state t) as [p | k | o] eqn:Hstate.
  - destruct (advance (context t) p) as [st sent] eqn:Hadv.
    specialize (Hstep p Ht). by rewrite Hadv in Hstep.
  - destruct (advance (context t) (k response)) as [st sent] eqn:Hadv.
    specialize (Hstep (k response) (Ht response)). by rewrite Hadv in Hstep.
  - done.
Qed.

Lemma serve_isolated contexts schedule s :
  isolated (defaultApiKey pool) contexts s ->
  isolated (defaultApiKey pool) contexts (serve schedule s).
Proof.
  unfold serve. revert s. induction schedule as [| [i r] rest IH]; intros s Hs; [done |].
  cbn [foldl]. apply IH. by apply resume_isolated.
Qed.

Variable other_cases : string -> option (json -> free poolE CallToolResult).

Lemma two_requests_isolated keyA keyB requestA requestB :
  isolated (defaultApiKey pool) [keyA; keyB]
    (two_requests pool other_cases keyA keyB requestA requestB).
Proof.
  split; [done |]. split.
  - repeat apply Forall_cons_2; [| | apply Forall_nil_2];
      unfold task_keyed, post_messages, handle; cbn [context state];
      apply keyed_lower.
  - intros i req Hin. by apply elem_of_nil in Hin.
Qed.

(** Whatever the interleaving and whatever the proxy answers, a request
    sent on behalf of one of two requests in flight carries the
    credential resolved from that request's own key. *)
Lemma outbound_credential_own keyA keyB requestA requestB schedule i req :
  (i, req) ∈ outbox (serve schedule
                       (two_requests pool other_cases keyA keyB requestA requestB)) ->
  (i = 0%nat /\ x_api_key req = resolve_api_key keyA (defaultApiKey pool)) \/
  (i = 1%nat /\ x_api_key req = resolve_api_key keyB (defaultApiKey pool)).
Proof.
  intros Hin.
  destruct (serve_isolated [keyA; keyB] schedule _
              (two_requests_isolated keyA keyB requestA requestB))
    as (_ & _ & Hsent).
  destruct (Hsent i req Hin) as [c [Hc Hkey]].
  destruct i as [| [| i]]; simpl in Hc; [left | right | done];
    injection Hc as <-; done.
Qed.

(** C3: two requests carrying different (non-empty) api_key values are
    served concurrently, in any interleaving of their steps and with any
    answers of the proxy.  Every proxy call made while serving one of
    them carries that request's own key, read from the store of its own
    asynchronous context when [execute] is called, and never the key of
    the other. *)
Theorem credential_isolation (keyA keyB : string)
    (requestA requestB : CallToolRequest)
    (schedule : list (nat * http_result)) (i : nat) (req : http_request) :
  keyA <> EmptyString -> keyB <> EmptyString -> keyA <> keyB ->
  (i, req) ∈ outbox (serve schedule
                       (two_requests pool other_cases (Some keyA) (Some keyB)
                          requestA requestB)) ->
  (i = 0%nat /\ x_api_key req = keyA /\ x_api_key req <> keyB) \/
  (i = 1%nat /\ x_api_key req = keyB /\ x_api_key req <> keyA).
Proof.
  intros HA HB Hdiff Hin.
  assert (forall k, k <> EmptyString ->
            resolve_api_key (Some k) (defaultApiKey pool) = k) as Hown.
  { intros k Hk. unfold resolve_api_key, truthy.
    destruct (String.eqb k EmptyString) eqn:Heq; [| done].
    by apply String.eqb_eq in Heq. }
  destruct (outbound_credential_own _ _ _ _ _ _ _ Hin) as [[-> Hkey] | [-> Hkey]];
    rewrite Hown in Hkey by done; [left | right]; (split; [done |]);
    (split; [done |]); congruence.
Qed.

End Isolation.

(** ** Reading a parsed object *)

Lemma fld_shape_output shape o k :
  fld (shape_output shape o) k =
  match find (fun kf => String.eqb kf.1 k) shape with
  | Some kf => field_value kf.2 (fld o kf.1)
  | None => JUndefined
  end.
Proof.
  unfold shape_output. induction shape as [| [k' f] rest IH]; [done |].
  cbn [map list_to_map foldr find fst snd curry].
  destruct (String.eqb_spec k' k) as [-> | Hne].
  - apply fld_insert.
  - by rewrite fld_insert_ne.
Qed.

(** Reading the keys of a parsed object, one lookup in the shape each. *)
Ltac read_shape shape :=
  repeat match goal with
         | |- context [fld (shape_output shape ?o) ?k] =>
             rewrite (fld_shape_output shape o k);
             match goal with
             | |- context [find ?f shape] =>
                 let r := eval vm_compute in (find f shape) in
                 change (find f shape) with r
             end;
             cbv beta iota; cbn [fst snd field_value]
         end.

(** ** The statements a handler can send *)

Lemma every_statement_bind {A B : Type} P (p : free poolE A) (f : A -> free poolE B) :
  every_statement P p -> (forall a, every_statement P (f a)) ->
  every_statement P (p ≫= f).
Proof.
  unfold mbind, free_bind. intros Hp Hf.
  induction p as [a | e | X ev k IH]; [apply Hf | done |].
  destruct ev. cbn [bind every_statement] in *. destruct Hp as [Hs Hk].
  split; [done |]. intros r. by apply IH.
Qed.

Lemma every_statement_execute P sql params :
  P (sql, params) -> every_statement P (pool_execute sql params).
Proof. intros HP. split; [done |]. by intros [v | e]. Qed.

Lemma every_statement_get_prop P v k : every_statement P (get_prop (E := poolE) v k).
Proof. by destruct v. Qed.

Lemma every_statement_parse P shape args :
  every_statement P (z_object_parse (E := poolE) shape args).
Proof.
  unfold z_object_parse. destruct args; try done.
  by destruct (shape_issues shape fields).
Qed.

(** What holds of every statement of a handler holds of every request
    its run sends. *)
Lemma every_statement_sent `{JsEngine} {A : Type} P pool store net
    (p : free poolE A) log :
  every_statement P p ->
  Forall (fun req => P (statement_of req)) log ->
  Forall (fun req => P (statement_of req)) (run_from store net (lower pool p) log).2.
Proof.
  revert log. induction p as [a | e | X ev k IH]; intros log Hp Hlog; [done | done |].
  destruct ev. cbn [lower]. rewrite run_from_attempt, run_from_execute.
  cbn [fst snd]. destruct Hp as [Hs Hk]. apply IH; [done |].
  apply Forall_app. split; [done |]. by apply Forall_singleton.
Qed.

Lemma count_placeholders_app a b :
  count_placeholders (a +:+ b) = (count_placeholders a + count_placeholders b)%nat.
Proof.
  induction a as [| c a IH]; [done |]. simpl. rewrite IH. lia.
Qed.

Lemma count_placeholders_concat sep l :
  count_placeholders sep = 0%nat ->
  count_placeholders (String.concat sep l) =
  foldr (fun s n => (count_placeholders s + n)%nat) 0%nat l.
Proof.
  intros Hsep. induction l as [| s l IH]; [done |].
  destruct l as [| s' l]; [simpl; lia |].
  change (String.concat sep (s :: s' :: l))
    with (s +:+ sep +:+ String.concat sep (s' :: l)).
  rewrite !count_placeholders_app, Hsep, IH. done.
Qed.

Lemma every_statement_parsed {A : Type} P shape args
    (body : gmap string json -> free poolE A) :
  (forall o, args = JObj o -> shape_issues shape o = [] ->
             every_statement P (body (shape_output shape o))) ->
  every_statement P (z_object_parse shape args ≫= body).
Proof.
  intros Hbody.
  destruct (z_object_parse_cases (E := poolE) shape args)
    as [[o [-> [Hnil ->]]] | [issues ->]]; [| done].
  by apply Hbody.
Qed.

Lemma sends_only_intro `{JsEngine} P (handler : json -> free poolE CallToolResult) :
  (forall args, every_statement P (handler args)) -> sends_only P handler.
Proof.
  intros Hall pool store net args. unfold run.
  apply every_statement_sent; [apply Hall | apply Forall_nil_2].
Qed.

(** *** Placeholders and bound values *)

Lemma count_placeholders_placeholders ids :
  count_placeholders (placeholders ids) = length ids.
Proof.
  unfold placeholders. rewrite count_placeholders_concat by done.
  induction ids as [| id ids IH]; [done |]. simpl. by rewrite IH.
Qed.

Lemma count_placeholders_set_clauses fields rest :
  Forall (fun f => count_placeholders f = 0%nat) fields ->
  foldr (fun s n => (count_placeholders s + n)%nat) 0%nat
        (map set_clause fields ++ rest) =
  (length fields +
   foldr (fun s n => (count_placeholders s + n)%nat) 0%nat rest)%nat.
Proof.
  induction fields as [| f fields IH]; intros Hall; [done |].
  apply Forall_cons_1 in Hall as [Hf Hall]. cbn [map app foldr length].
  rewrite IH by done. unfold set_clause. rewrite count_placeholders_app, Hf.
  simpl. lia.
Qed.

Lemma filter_if_set_binds v clause vals acc :
  count_placeholders clause = length vals ->
  binds_every_placeholder acc ->
  binds_every_placeholder (filter_if_set v clause vals acc).
Proof.
  unfold binds_every_placeholder, filter_if_set. intros Hc Hacc.
  destruct (truthy v); [| done]. cbn [fst snd].
  rewrite count_placeholders_app, length_app. lia.
Qed.

Lemma list_inquiries_query_binds parsed :
  binds_every_placeholder (list_inquiries_query parsed).
Proof.
  unfold list_inquiries_query. cbv zeta.
  match goal with
  | |- binds_every_placeholder (?a.1 +:+ _, ?a.2 ++ _) =>
      assert (binds_every_placeholder a) as Hacc; [| set (acc := a) in *]
  end.
  { repeat lazymatch goal with
           | |- binds_every_placeholder (filter_if_set _ _ _ _) =>
               apply filter_if_set_binds; [reflexivity |]
           end.
    reflexivity. }
  unfold binds_every_placeholder in *. cbn [fst snd].
  rewrite count_placeholders_app, length_app, Hacc. reflexivity.
Qed.

Lemma list_transactions_query_binds parsed :
  binds_every_placeholder (list_transactions_query parsed).
Proof.
  unfold list_transactions_query. cbv zeta.
  match goal with
  | |- binds_every_placeholder
         (if _ then ((?a.1 +:+ _, _).1 +:+ _, _) else _) =>
      assert (binds_every_placeholder a) as Hacc; [| set (acc := a) in *]
  end.
  { repeat lazymatch goal with
           | |- binds_every_placeholder (filter_if_set _ _ _ _) =>
               apply filter_if_set_binds; [reflexivity |]
           end.
    reflexivity. }
  unfold binds_every_placeholder in *.
  destruct (truthy _); cbn [fst snd];
    rewrite !count_placeholders_app, ?length_app, Hacc; simpl; lia.
Qed.

(** ** Listing inquiries: the default page *)

Section DefaultPagination.

Context `{JsEngine}.
Variable pool : SqlProxy.


End DefaultPagination.

Lemma written_no_placeholder p :
  Forall (fun f => count_placeholders f = 0%nat) (written p).
Proof.
  apply List.Forall_forall. intros f Hin. apply list_elem_of_In in Hin.
  apply written_updatable in Hin. unfold updatable_fields in Hin.
  repeat (apply elem_of_cons in Hin as [-> | Hin]; [reflexivity |]).
  by apply elem_of_nil in Hin.
Qed.

Lemma update_inquiry_statement_binds p :
  binds_every_placeholder
    (update_inquiry_sql (map set_clause (written p) ++ ["updated_at = NOW()"]),
     map (fld p) (written p) ++ [fld p "id"]).
Proof.
  unfold binds_every_placeholder, update_inquiry_sql. cbn [fst snd].
  rewrite !count_placeholders_app, count_placeholders_concat by done.
  rewrite count_placeholders_set_clauses by apply written_no_placeholder.
  rewrite length_app, length_map. simpl. lia.
Qed.

Lemma foldl_push_if_defined p fields updates values :
  foldl (fun acc f => push_if_defined p f acc) (updates, values) fields =
  (updates ++ map set_clause (List.filter (fun f => is_defined (fld p f)) fields),
   values ++ map (fld p) (List.filter (fun f => is_defined (fld p f)) fields)).
Proof.
  revert updates values. induction fields as [| f rest IH]; intros updates values.
  - simpl. by rewrite !app_nil_r.
  - cbn [foldl List.filter]. unfold push_if_defined at 2.
    destruct (is_defined (fld p f)); cbn [fst snd]; rewrite IH; [| done].
    cbn [map]. by rewrite <- !app_assoc.
Qed.

Lemma update_fee_payment_clauses_written p :
  update_fee_payment_clauses p =
  (map set_clause (payment_fields_written p),
   map (fld p) (payment_fields_written p)).
Proof.
  change (update_fee_payment_clauses p)
    with (foldl (fun acc f => push_if_set p f acc)
            (foldl (fun acc f => push_if_defined p f acc) ([], [])
               ["amount"; "discount"; "fine"])
            ["date"; "remarks"]).
  rewrite foldl_push_if_defined, foldl_push_if_set.
  unfold payment_fields_written. by rewrite !map_app.
Qed.

Lemma payment_fields_written_fields p f :
  f ∈ payment_fields_written p -> f ∈ payment_fields.
Proof.
  unfold payment_fields_written, payment_fields.
  rewrite elem_of_app, !list_elem_of_In, !List.filter_In.
  intros [[Hin _] | [Hin _]]; simpl in *; tauto.
Qed.

Lemma payment_fields_no_placeholder p :
  Forall (fun f => count_placeholders f = 0%nat) (payment_fields_written p).
Proof.
  apply List.Forall_forall. intros f Hin. apply list_elem_of_In in Hin.
  apply payment_fields_written_fields in Hin. unfold payment_fields in Hin.
  repeat (apply elem_of_cons in Hin as [-> | Hin]; [reflexivity |]).
  by apply elem_of_nil in Hin.
Qed.

(** A step of a handler: what it sends has as many values as
    placeholders. *)
Ltac binds_step :=
  first
    [ lazymatch goal with
      | |- every_statement _ (let '(_, _) := ?a in _) => destruct a
      end
    | apply every_statement_parse
    | apply every_statement_get_prop
    | apply every_statement_execute;
        unfold binds_every_placeholder; cbn [fst snd length]; reflexivity
    | apply every_statement_bind; [| intros ?] ].

Ltac binds := repeat binds_step; try done.

Section Placeholders.

Context `{JsEngine}.

Lemma create_inquiry_binds args :
  every_statement binds_every_placeholder (create_inquiry args).
Proof. unfold create_inquiry. binds. Qed.

Lemma update_inquiry_binds args :
  every_statement binds_every_placeholder (update_inquiry args).
Proof.
  unfold update_inquiry. apply every_statement_bind; [binds | intros parsed].
  rewrite update_inquiry_clauses_written.
  destruct (_ <=? 1)%nat; [done |].
  apply every_statement_bind.
  - apply every_statement_execute, update_inquiry_statement_binds.
  - intros [result fields]. apply every_statement_bind; [binds | intros x].
    by destruct (is_number x 0).
Qed.

Lemma list_inquiries_binds args :
  every_statement binds_every_placeholder (list_inquiries args).
Proof.
  unfold list_inquiries. apply every_statement_bind; [binds | intros parsed].
  pose proof (list_inquiries_query_binds parsed) as Hq.
  destruct (list_inquiries_query parsed) as [query params].
  apply every_statement_bind; [by apply every_statement_execute |].
  by intros [rows fields].
Qed.

Lemma create_product_category_binds args :
  every_statement binds_every_placeholder (create_product_category args).
Proof. unfold create_product_category. binds. Qed.

Lemma create_product_unit_binds args :
  every_statement binds_every_placeholder (create_product_unit args).
Proof. unfold create_product_unit. binds. Qed.

Lemma item_subtotal_silent P item : every_statement P (item_subtotal item).
Proof.
  unfold item_subtotal.
  repeat (apply every_statement_bind; [apply every_statement_get_prop | intros ?]).
  done.
Qed.

Lemma purchase_total_silent P items total :
  every_statement P (purchase_total items total).
Proof.
  revert total. induction items as [| item rest IH]; intros total; [done |].
  cbn [purchase_total]. apply every_statement_bind; [apply item_subtotal_silent | done].
Qed.

Lemma purchase_details_binds billId items :
  every_statement binds_every_placeholder (purchase_details billId items).
Proof.
  induction items as [| item rest IH]; [done |]. cbn [purchase_details].
  apply every_statement_bind; [apply item_subtotal_silent | intros subtotal].
  binds.
Qed.

Lemma create_purchase_binds args :
  every_statement binds_every_placeholder (create_purchase args).
Proof.
  unfold create_purchase. apply every_statement_bind; [binds | intros parsed].
  cbv zeta.
  apply every_statement_bind; [apply purchase_total_silent | intros total].
  apply every_statement_bind; [binds | intros [billResult fields]].
  apply every_statement_bind; [binds | intros billId].
  apply every_statement_bind; [apply purchase_details_binds | done].
Qed.

Lemma listed_table_no_placeholder s :
  s ∈ reception_config_types -> count_placeholders s = 0%nat.
Proof.
  unfold reception_config_types. intros Hin.
  repeat (apply elem_of_cons in Hin as [-> | Hin]; [reflexivity |]).
  by apply elem_of_nil in Hin.
Qed.

Lemma list_reception_configs_binds args :
  every_statement binds_every_placeholder (list_reception_configs args).
Proof.
  unfold list_reception_configs. apply every_statement_parsed. intros o _ Hnil.
  destruct (type_enum_checked _ o _ eq_refl Hnil) as [s [Hs Hin]].
  change (fld (shape_output _ o) "type") with (fld o "type").
  rewrite Hs. cbn [js_String].
  match goal with
  | |- context [filter_if_set ?v ?c ?vals ?acc] =>
      pose proof (filter_if_set_binds v c vals acc eq_refl) as Hq;
      destruct (filter_if_set v c vals acc) as [query params]
  end.
  apply every_statement_bind; [| by intros [rows fields]].
  apply every_statement_execute, Hq.
  unfold binds_every_placeholder. cbn [fst snd].
  rewrite count_placeholders_app, (listed_table_no_placeholder s); done.
Qed.

Lemma create_reception_config_binds args :
  every_statement binds_every_placeholder (create_reception_config args).
Proof.
  unfold create_reception_config. apply every_statement_parsed. intros o _ Hnil.
  destruct (type_enum_checked _ o _ eq_refl Hnil) as [s [Hs Hin]].
  change (fld (shape_output _ o) "type") with (fld o "type").
  rewrite Hs. cbn [js_String]. cbv zeta.
  apply every_statement_bind; [| intros [result fields]; binds].
  apply every_statement_execute. unfold binds_every_placeholder. cbn [fst snd].
  rewrite !count_placeholders_app, (listed_table_no_placeholder s); done.
Qed.

Lemma delete_reception_config_binds args :
  every_statement binds_every_placeholder (delete_reception_config args).
Proof.
  unfold delete_reception_config. apply every_statement_parsed. intros o _ Hnil.
  destruct (type_enum_checked _ o _ eq_refl Hnil) as [s [Hs Hin]].
  change (fld (shape_output _ o) "type") with (fld o "type").
  rewrite Hs. cbn [js_String].
  apply every_statement_bind; [| done].
  apply every_statement_execute. unfold binds_every_placeholder. cbn [fst snd].
  rewrite !count_placeholders_app, (listed_table_no_placeholder s); done.
Qed.

Lemma bulk_delete_inquiries_binds args :
  every_statement binds_every_placeholder (bulk_delete_inquiries args).
Proof.
  unfold bulk_delete_inquiries. apply every_statement_bind; [binds | intros parsed].
  cbv zeta. set (ids := array_items (fld parsed "ids")).
  destruct (length ids =? 0)%nat; [done |].
  assert (forall text,
            count_placeholders text = 0%nat ->
            binds_every_placeholder (text +:+ placeholders ids +:+ ")", ids)) as Hin.
  { intros text Htext. unfold binds_every_placeholder. cbn [fst snd].
    rewrite !count_placeholders_app, count_placeholders_placeholders, Htext.
    simpl. lia. }
  apply every_statement_bind; [by apply every_statement_execute, Hin | intros _].
  apply every_statement_bind; [by apply every_statement_execute, Hin |].
  intros [result fields]. binds.
Qed.

Lemma list_inquiry_sources_binds args :
  every_statement binds_every_placeholder (list_inquiry_sources args).
Proof. unfold list_inquiry_sources. binds. Qed.

Lemma list_inquiry_statuses_binds args :
  every_statement binds_every_placeholder (list_inquiry_statuses args).
Proof. unfold list_inquiry_statuses. binds. Qed.

Lemma delete_inquiry_binds args :
  every_statement binds_every_placeholder (delete_inquiry args).
Proof. unfold delete_inquiry. binds. by destruct (is_number _ 0). Qed.

Lemma create_inquiry_follow_up_binds args :
  every_statement binds_every_placeholder (create_inquiry_follow_up args).
Proof. unfold create_inquiry_follow_up. binds. Qed.

Lemma list_inquiry_follow_ups_binds args :
  every_statement binds_every_placeholder (list_inquiry_follow_ups args).
Proof. unfold list_inquiry_follow_ups. binds. Qed.

Lemma list_transactions_binds args :
  every_statement binds_every_placeholder (list_transactions args).
Proof.
  unfold list_transactions. apply every_statement_bind; [binds | intros parsed].
  pose proof (list_transactions_query_binds parsed) as Hq.
  destruct (list_transactions_query parsed) as [query params].
  apply every_statement_bind; [by apply every_statement_execute |].
  by intros [rows fields].
Qed.

Lemma delete_call_log_binds args :
  every_statement binds_every_placeholder (delete_call_log args).
Proof. unfold delete_call_log. binds. Qed.

Lemma issue_details_binds issueId items :
  every_statement binds_every_placeholder (issue_details issueId items).
Proof.
  induction items as [| item rest IH]; [done |]. cbn [issue_details]. binds.
Qed.

Lemma create_product_issue_binds args :
  every_statement binds_every_placeholder (create_product_issue args).
Proof.
  unfold create_product_issue. apply every_statement_bind; [binds | intros parsed].
  cbv zeta.
  apply every_statement_bind; [binds | intros [issueResult fields]].
  apply every_statement_bind; [binds | intros issueId].
  apply every_statement_bind; [apply issue_details_binds | done].
Qed.

Lemma update_fee_payment_binds args :
  every_statement binds_every_placeholder (update_fee_payment args).
Proof.
  unfold update_fee_payment. apply every_statement_bind; [binds | intros parsed].
  rewrite update_fee_payment_clauses_written.
  destruct (0 <? _)%nat; [| done].
  apply every_statement_bind; [| done].
  apply every_statement_execute.
  unfold binds_every_placeholder, update_fee_payment_sql. cbn [fst snd].
  rewrite !count_placeholders_app, count_placeholders_concat by done.
  rewrite <- (app_nil_r (map set_clause _)).
  rewrite count_placeholders_set_clauses by apply payment_fields_no_placeholder.
  rewrite length_app, length_map. simpl. lia.
Qed.

Lemma create_student_binds args :
  every_statement binds_every_placeholder (create_student args).
Proof. unfold create_student. binds. Qed.

End Placeholders.

(** ** Resources *)

Section Resources.

Context `{JsEngine}.
Variable pool : SqlProxy.
Variables (store : option string) (net : oracle).

(** X1: reading a URI that [resources/list] does not advertise throws
    an [McpError] with the code InvalidRequest and the message "Unknown
    resource: " followed by the URI, and nothing is sent to the proxy. *)
Theorem read_resource_unknown_uri (uri : string) :
  uri ∉ map resource_uri list_resources ->
  run store net (lower pool (read_resource uri)) =
  (Raised (McpError ErrorCode_InvalidRequest ("Unknown resource: " +:+ uri)), []).
Proof.
  intros Hnot. unfold read_resource, resource_query.
  destruct (String.eqb_spec uri "inquiries://list") as [-> | _].
  { destruct Hnot. apply list_elem_of_here. }
  destruct (String.eqb_spec uri "staff://list") as [-> | _].
  { destruct Hnot. apply list_elem_of_further, list_elem_of_here. }
  destruct (String.eqb_spec uri "students://list") as [-> | _]; [| done].
  destruct Hnot. do 2 apply list_elem_of_further. apply list_elem_of_here.
Qed.

Lemma run_read_resource uri query :
  resource_query (E := poolE) uri = Ret query ->
  let req := proxy_request pool store query [] in
  run store net (lower pool (read_resource uri)) =
  (match proxy_result (net [req]) with
   | Returned (rows, _) =>
       Returned {| contents_uri := uri;
                   contents_mimeType := "application/json";
                   contents_text := JSON_stringify rows |}
   | Raised e => Raised e
   end, [req]).
Proof.
  intros Hq req. subst req. unfold read_resource. rewrite Hq.
  change (Ret ?x ≫= ?f) with (f x). cbv beta.
  unfold run. rewrite run_from_pool_execute. cbv zeta. cbn [app].
  by destruct (proxy_result _) as [[rows fields] | e].
Qed.

(** X2: every resource that [resources/list] advertises can be read:
    the read sends exactly one statement, "SELECT * FROM t LIMIT 100"
    for one of the tables enquiry, staff and student, with no value
    bound; it returns the rows rendered as text under the URI and the
    media type the resource was advertised with; and when the proxy
    fails the error is thrown to the caller, not turned into a
    result. *)
Theorem read_resource_advertised (r : resource) :
  r ∈ list_resources ->
  exists table, table ∈ resource_tables /\ reads_table pool store net r table.
Proof.
  unfold list_resources, resource_tables, reads_table. intros Hin.
  apply elem_of_cons in Hin as [-> | Hin].
  { exists "enquiry". split; [apply list_elem_of_here |].
    by apply run_read_resource. }
  apply elem_of_cons in Hin as [-> | Hin].
  { exists "staff". split; [apply list_elem_of_further, list_elem_of_here |].
    by apply run_read_resource. }
  apply elem_of_cons in Hin as [-> | Hin]; [| by apply elem_of_nil in Hin].
  exists "student". split; [do 2 apply list_elem_of_further; apply list_elem_of_here |].
  by apply run_read_resource.
Qed.

End Resources.

(** ** Deleting inquiries *)

Lemma concat_imap_nil {A B : Type} (f : nat -> A -> list B) (l : list A) :
  (forall i x, x ∈ l -> f i x = []) -> concat (imap f l) = [].
Proof.
  revert f. induction l as [| x l IH]; intros f Hf; [done |].
  cbn [imap concat]. rewrite Hf by apply list_elem_of_here.
  apply IH. intros i y Hy. apply Hf. by apply list_elem_of_further.
Qed.

Lemma ids_shape_issues o (ids : list Z) :
  fld o "ids" = JArr (map JNum ids) ->
  shape_issues [("ids", ZRequired (ZArray ZNumber))] o = [].
Proof.
  intros Hids. unfold shape_issues. cbn [map concat fst snd check_field].
  rewrite Hids. cbn [check_type]. rewrite app_nil_r.
  apply concat_imap_nil. intros i x Hx.
  apply list_elem_of_fmap in Hx as [n [-> _]]. done.
Qed.

Section DeletingInquiries.

Context `{JsEngine}.
Variable pool : SqlProxy.
Variables (store : option string) (net : oracle).

(** X3: [bulk_delete_inquiries] called with an empty list of ids sends
    nothing and answers "No IDs provided for deletion.", which is not an
    error result. *)
Theorem bulk_delete_inquiries_no_ids (o : gmap string json) :
  fld o "ids" = JArr [] ->
  run store net (lower pool (bulk_delete_inquiries (JObj o))) =
  (Returned (text_result "No IDs provided for deletion."), []).
Proof.
  intros Hids. unfold bulk_delete_inquiries, z_object_parse.
  rewrite (ids_shape_issues o [] Hids).
  change (Ret ?x ≫= ?f) with (f x). cbv beta zeta.
  change (fld (shape_output _ o) "ids") with (fld o "ids").
  by rewrite Hids.
Qed.

(** X4: [bulk_delete_inquiries] called with ids [n1, ..., nk], k > 0,
    sends "DELETE FROM enquiry_follow_up WHERE enquiry_id IN (?,...,?)"
    and then "DELETE FROM enquiry WHERE id IN (?,...,?)", each with k
    placeholders and the ids as values.  The follow-ups go first; when
    that statement fails the inquiries are not touched, and when the
    second fails the follow-ups stay deleted.  The text of the result
    reports the affected rows of the second statement. *)
Theorem bulk_delete_inquiries_statements (o : gmap string json) (ids : list Z) :
  fld o "ids" = JArr (map JNum ids) ->
  ids <> [] ->
  count_placeholders (placeholders (map JNum ids)) = length ids /\
  run store net (lower pool (bulk_delete_inquiries (JObj o))) =
  bulk_delete_outcome pool store net (map JNum ids).
Proof.
  intros Hids Hne. split.
  { by rewrite count_placeholders_placeholders, length_map. }
  unfold bulk_delete_inquiries, z_object_parse, bulk_delete_outcome.
  rewrite (ids_shape_issues o ids Hids).
  change (Ret ?x ≫= ?f) with (f x). cbv beta zeta.
  change (fld (shape_output _ o) "ids") with (fld o "ids").
  rewrite Hids. cbn [array_items].
  replace (length (map JNum ids) =? 0)%nat with false
    by (destruct ids; [done | reflexivity]).
  unfold run. rewrite run_from_pool_execute. cbv zeta. cbn [app fst snd].
  unfold delete_follow_ups_in, delete_inquiries_in. cbn [fst snd].
  destruct (proxy_result _) as [v | e]; [| done].
  rewrite run_from_pool_execute. cbv zeta. cbn [app].
  destruct (proxy_result _) as [[result fields] | e] eqn:Hsecond; [| done].
  by rewrite (get_prop_prop result) by (by eapply proxy_result_not_nullish).
Qed.

(** X5: a [tools/call] of [delete_inquiry] for the id [n], a safe
    integer, sends "DELETE FROM enquiry_follow_up WHERE enquiry_id = ?"
    and then "DELETE FROM enquiry WHERE id = ?", both with the id.  When
    the second statement reports no affected row the call answers the
    error result "Error: MCP error -32600: Inquiry with ID n not found";
    the follow-up statement has been sent all the same.  A failure of
    the proxy comes back as an error result too, and nothing is sent
    after it. *)
Theorem delete_inquiry_outcomes
    (rest : string -> option (json -> free poolE CallToolResult))
    (o : gmap string json) (n : Z) :
  fld o "id" = JNum n ->
  safe_integer (JNum n) = true ->
  run store net
    (handle pool (with_more_cases rest)
       {| name := "delete_inquiry"; arguments := JObj o |}) =
  delete_inquiry_outcome pool store net n.
Proof.
  intros Hid _. rewrite run_handle. cbn [name arguments].
  change (dispatch (with_more_cases rest) "delete_inquiry" (JObj o))
    with (delete_inquiry (JObj o)).
  unfold delete_inquiry, z_object_parse, delete_inquiry_outcome.
  replace (shape_issues [("id", ZRequired ZNumber)] o) with (@nil json)
    by (unfold shape_issues; cbn [map concat fst snd check_field]; by rewrite Hid).
  change (Ret ?x ≫= ?f) with (f x). cbv beta zeta.
  change (fld (shape_output _ o) "id") with (fld o "id"). rewrite Hid.
  cbn [js_String].
  unfold run. rewrite run_from_pool_execute. cbv zeta. cbn [app].
  destruct (proxy_result _) as [v | e]; [| done].
  rewrite run_from_pool_execute. cbv zeta. cbn [app].
  destruct (proxy_result _) as [[result fields] | e] eqn:Hsecond; [| done].
  rewrite (get_prop_prop result) by (by eapply proxy_result_not_nullish).
  change (Ret ?x ≫= ?f) with (f x). cbv beta.
  by destruct (is_number _ 0).
Qed.

(** X6: [list_inquiry_sources] and [list_inquiry_statuses] called
    without [branch_id], or with the branch 0, ask for the rows of
    branch 1; called with any other branch they ask for that branch. *)
Theorem inquiry_lookups_default_branch (o : gmap string json) :
  (o !! "branch_id" = None \/ o !! "branch_id" = Some (JNum 0) ->
   lookups_ask_for pool store net o 1) /\
  (forall n, o !! "branch_id" = Some (JNum n) -> n <> 0 ->
   lookups_ask_for pool store net o n).
Proof.
  assert (forall branch,
            shape_issues [("branch_id", ZOptional ZNumber)] o = [] ->
            js_or (fld o "branch_id") (JNum 1) = JNum branch ->
            lookups_ask_for pool store net o branch) as Hsent.
  { intros branch Hvalid Hor. unfold lookups_ask_for.
    unfold list_inquiry_sources, list_inquiry_statuses, z_object_parse.
    rewrite Hvalid. change (Ret ?x ≫= ?f) with (f x). cbv beta.
    change (fld (shape_output _ o) "branch_id") with (fld o "branch_id").
    rewrite Hor. split; apply sends_one; by intros [rows fields] log. }
  split.
  - intros Hbranch. apply Hsent.
    + unfold shape_issues, fld. cbn [map concat fst snd check_field].
      by destruct Hbranch as [-> | ->].
    + unfold fld. by destruct Hbranch as [-> | ->].
  - intros n Hn Hne. apply Hsent.
    + unfold shape_issues, fld. cbn [map concat fst snd check_field].
      by rewrite Hn.
    + unfold fld, js_or. rewrite Hn. cbn [default from_option id truthy].
      by destruct (Z.eqb_spec n 0).
Qed.

End DeletingInquiries.

(** ** The text of a list query *)

Lemma string_app_nil_r s : s +:+ EmptyString = s.
Proof.
  induction s as [| c s IH]; [done |].
  change (String c (s +:+ EmptyString) = String c s). by f_equal.
Qed.

Lemma string_app_assoc a b c : (a +:+ b) +:+ c = a +:+ (b +:+ c).
Proof.
  induction a as [| x a IH]; [done |].
  change (String x ((a +:+ b) +:+ c) = String x (a +:+ (b +:+ c))). by f_equal.
Qed.

Lemma join_snoc pieces piece : join (pieces ++ [piece]) = join pieces +:+ piece.
Proof.
  unfold join. induction pieces as [| p pieces IH]; cbn [app foldr].
  - apply string_app_nil_r.
  - by rewrite IH, string_app_assoc.
Qed.

Lemma foldl_filter_if_set_picked (filters : list (json * string * list json)) acc :
  exists picked,
    picked `sublist_of` map (fun f => f.1.2) filters /\
    (foldl (fun acc f => filter_if_set f.1.1 f.1.2 f.2 acc) acc filters).1 =
    acc.1 +:+ join picked.
Proof.
  revert acc. induction filters as [| [[v clause] vals] rest IH]; intros acc.
  - exists []. split; [apply sublist_nil |].
    unfold join. cbn [foldl foldr]. by rewrite string_app_nil_r.
  - cbn [foldl map fst snd].
    destruct (IH (filter_if_set v clause vals acc)) as [picked [Hsub ->]].
    unfold filter_if_set. destruct (truthy v).
    + exists (clause :: picked). split; [by apply sublist_skip |].
      cbn [fst]. apply string_app_assoc.
    + exists picked. split; [by apply sublist_cons | done].
Qed.

Lemma list_inquiries_query_built parsed :
  built_from list_inquiries_base list_inquiries_clauses list_inquiries_order
    (list_inquiries_query parsed).
Proof.
  set (search := like_pattern (fld parsed "search")).
  change (list_inquiries_query parsed)
    with (let acc :=
            foldl (fun acc f => filter_if_set f.1.1 f.1.2 f.2 acc)
              (list_inquiries_base, [])
              [(fld parsed "branch_id", " AND e.branch_id = ?", [fld parsed "branch_id"]);
               (fld parsed "search",
                " AND (e.name LIKE ? OR e.mobile_no LIKE ? OR e.father_name LIKE ?)",
                [search; search; search]);
               (fld parsed "status", " AND e.status = ?", [fld parsed "status"]);
               (fld parsed "source_id", " AND e.reference_id = ?", [fld parsed "source_id"]);
               (fld parsed "class_id", " AND e.class_id = ?", [fld parsed "class_id"]);
               (fld parsed "start_date", " AND e.date >= ?", [fld parsed "start_date"]);
               (fld parsed "end_date", " AND e.date <= ?", [fld parsed "end_date"]);
               (fld parsed "created_by", " AND e.created_by = ?", [fld parsed "created_by"])] in
          (acc.1 +:+ list_inquiries_order,
           acc.2 ++ [fld parsed "limit"; fld parsed "offset"])).
  cbv zeta.
  match goal with
  | |- built_from _ _ _ ((foldl ?step ?acc ?filters).1 +:+ _, _) =>
      destruct (foldl_filter_if_set_picked filters acc) as [picked [Hsub Htext]]
  end.
  exists picked. split; [exact Hsub |]. cbn [fst].
  rewrite Htext. apply string_app_assoc.
Qed.

Lemma foldl_filter_if_set_binds (filters : list (json * string * list json)) acc :
  Forall (fun f => count_placeholders f.1.2 = length f.2) filters ->
  binds_every_placeholder acc ->
  binds_every_placeholder
    (foldl (fun acc f => filter_if_set f.1.1 f.1.2 f.2 acc) acc filters).
Proof.
  revert acc. induction filters as [| f rest IH]; intros acc Hall Hacc; [done |].
  apply Forall_cons_1 in Hall as [Hf Hall]. cbn [foldl].
  apply IH; [done |]. by apply filter_if_set_binds.
Qed.

(** The query of [list_transactions]: a body that does not depend on
    [limit], then the limit. *)
Lemma list_transactions_query_limit parsed :
  exists body values,
    built_from list_transactions_base list_transactions_clauses
      list_transactions_order (body, values) /\
    count_placeholders body = length values /\
    list_transactions_query parsed =
    if truthy (fld parsed "limit")
    then (body +:+ " LIMIT ?", values ++ [fld parsed "limit"])
    else (body +:+ " LIMIT 50", values).
Proof.
  set (filters :=
         [(fld parsed "type", " AND t.type = ?", [fld parsed "type"]);
          (fld parsed "start_date", " AND t.date >= ?", [fld parsed "start_date"]);
          (fld parsed "end_date", " AND t.date <= ?", [fld parsed "end_date"])]).
  set (acc := foldl (fun acc f => filter_if_set f.1.1 f.1.2 f.2 acc)
                (list_transactions_base, []) filters).
  exists (acc.1 +:+ list_transactions_order), acc.2.
  split; [| split].
  - destruct (foldl_filter_if_set_picked filters (list_transactions_base, []))
      as [picked [Hsub Htext]].
    exists picked. split; [exact Hsub |]. cbn [fst]. subst acc.
    rewrite Htext. apply string_app_assoc.
  - assert (binds_every_placeholder acc) as Hacc.
    { apply foldl_filter_if_set_binds; [| reflexivity].
      subst filters. repeat apply Forall_cons_2; [.. | apply Forall_nil_2]; reflexivity. }
    unfold binds_every_placeholder in Hacc.
    rewrite count_placeholders_app, Hacc. simpl. lia.
  - reflexivity.
Qed.

Section ListQueries.

Context `{JsEngine}.

(** X7: whatever the arguments, the text of the query [list_inquiries]
    sends is the fixed SELECT, followed by some of its eight fixed
    predicates in their fixed order, followed by "ORDER BY e.date DESC,
    e.id DESC LIMIT ? OFFSET ?".  The search string and every other
    argument travel as bound values only; none of them is ever part of
    the text. *)
Theorem list_inquiries_text_is_fixed :
  sends_only
    (built_from list_inquiries_base list_inquiries_clauses list_inquiries_order)
    list_inquiries.
Proof.
  apply sends_only_intro. intros args. unfold list_inquiries.
  apply every_statement_bind; [apply every_statement_parse | intros parsed].
  pose proof (list_inquiries_query_built parsed) as Hq.
  destruct (list_inquiries_query parsed) as [query params].
  apply every_statement_bind; [by apply every_statement_execute |].
  by intros [rows fields].
Qed.

(** X8: [list_transactions] sends one query.  Its text up to the
    ordering is the fixed SELECT and some of its three fixed predicates,
    with a value bound for each placeholder.  Called without [limit], or
    with the limit 0, the text ends in "LIMIT 50" and no value is bound
    for the limit: 0 is treated as no limit given.  Called with a limit
    [n] other than 0 the text ends in "LIMIT ?" and [n] itself is the
    last value bound. *)
Theorem list_transactions_row_limited (pool : SqlProxy) (store : option string)
    (net : oracle) (o : gmap string json) :
  shape_issues list_transactions_shape o = [] ->
  row_limited pool store net o.
Proof.
  intros Hvalid. unfold row_limited. cbv zeta.
  unfold list_transactions, z_object_parse. rewrite Hvalid.
  change (Ret ?x ≫= ?f) with (f x). cbv beta.
  set (parsed := shape_output list_transactions_shape o).
  assert (fld parsed "limit" = fld o "limit") as Hl
    by by (subst parsed; read_parsed list_transactions_shape).
  destruct (list_transactions_query_limit parsed)
    as (body & values & Hbuilt & Hbinds & ->).
  exists body, values. split; [exact Hbuilt |]. split; [exact Hbinds |].
  rewrite Hl. unfold fld. split.
  - intros [-> | ->]; cbn [default from_option id truthy Z.eqb negb];
      (rewrite sends_one; [reflexivity | by intros [rows fields] log]).
  - intros n -> Hn. cbn [default from_option id truthy].
    replace (n =? 0) with false by (symmetry; by apply Z.eqb_neq).
    cbn [negb]. rewrite sends_one; [reflexivity | by intros [rows fields] log].
Qed.

End ListQueries.

(** ** Updating a fee payment *)

Lemma sublists_app {A : Type} (l1 l2 w1 w2 : list A) :
  w1 ∈ sublists l1 -> w2 ∈ sublists l2 -> w1 ++ w2 ∈ sublists (l1 ++ l2).
Proof.
  revert w1. induction l1 as [| x l1 IH]; intros w1 H1 H2.
  - by apply list_elem_of_singleton in H1 as ->.
  - cbn [sublists app] in *. apply elem_of_app.
    apply elem_of_app in H1 as [H1 | H1].
    + apply list_elem_of_fmap in H1 as [w [-> Hw]]. left.
      apply list_elem_of_fmap. exists (w ++ w2). split; [done | by apply IH].
    + right. by apply IH.
Qed.

(** Whichever columns it writes, the text of the UPDATE of a payment is
    read as their assignments. *)
Lemma update_fee_payment_sql_read w :
  w ∈ sublists payment_fields -> w <> [] ->
  set_list "fee_payment_history" (update_fee_payment_sql (map set_clause w)) =
  Some (map Bound w).
Proof.
  revert w.
  apply (Forall_forall
           (fun w => w <> [] ->
                     set_list "fee_payment_history"
                       (update_fee_payment_sql (map set_clause w)) =
                     Some (map Bound w))).
  apply (bool_decide_unpack _). by vm_compute.
Qed.

Lemma update_row_update_fee_payment now o id row :
  payment_fields_written o <> [] ->
  update_row "fee_payment_history" now
    (update_fee_payment_sql (map set_clause (payment_fields_written o)))
    (map (fld o) (payment_fields_written o) ++ [id]) row =
  Some (foldl (fun r f => <[f := fld o f]> r) row (payment_fields_written o)).
Proof.
  intros Hw. unfold update_row.
  rewrite update_fee_payment_sql_read;
    [| apply (sublists_app ["amount"; "discount"; "fine"] ["date"; "remarks"]);
       apply filter_sublists
     | done].
  cbn [mbind option_bind].
  rewrite <- (app_nil_r (map Bound _)), assign_all_bound. done.
Qed.

Lemma fld_parsed_payment o f :
  f ∈ payment_fields -> fld (shape_output update_fee_payment_shape o) f = fld o f.
Proof.
  unfold payment_fields. intros Hin.
  repeat (apply elem_of_cons in Hin as [-> | Hin];
          [by read_parsed update_fee_payment_shape |]).
  by apply elem_of_nil in Hin.
Qed.

Lemma payment_fields_written_parsed o :
  payment_fields_written (shape_output update_fee_payment_shape o) =
  payment_fields_written o.
Proof.
  unfold payment_fields_written. f_equal; apply List.filter_ext_in; intros f Hin;
    rewrite fld_parsed_payment; try done;
    apply list_elem_of_In; unfold payment_fields; simpl in *; tauto.
Qed.

Section UpdateFeePayment.

Context `{JsEngine}.
Variable pool : SqlProxy.
Variables (store : option string) (net : oracle).

(** X9: [update_fee_payment] writes [amount], [discount] and [fine]
    whenever they are given, 0 included, and [date] and [remarks] when
    they are given and not empty.  With none of them it sends nothing and
    answers "No updates provided.".  Otherwise it sends one UPDATE of
    fee_payment_history after which the row it applies to holds exactly
    the given values in these columns and, in every other column, what it
    held; when the proxy accepts it the call answers "Payment record n
    updated." ([n] the id, a safe integer), whether or not a row has that
    id. *)
Theorem update_fee_payment_partial_update (o : gmap string json) :
  shape_issues update_fee_payment_shape o = [] ->
  safe_integer (fld o "id") = true ->
  payment_update pool store net o.
Proof.
  intros Hvalid _. unfold payment_update. cbv zeta.
  set (w := payment_fields_written o).
  assert (update_fee_payment (JObj o) =
          if (0 <? length (map set_clause w))%nat then
            _ ← pool_execute (update_fee_payment_sql (map set_clause w))
                  (map (fld o) w ++ [fld o "id"]);
            Ret (text_result ("Payment record " +:+ js_String (fld o "id") +:+ " updated."))
          else Ret (text_result "No updates provided.")) as ->.
  { unfold update_fee_payment, z_object_parse. rewrite Hvalid.
    change (Ret ?x ≫= ?f) with (f x). cbv beta.
    rewrite update_fee_payment_clauses_written, payment_fields_written_parsed.
    fold w.
    assert (fld (shape_output update_fee_payment_shape o) "id" = fld o "id") as ->
      by by read_parsed update_fee_payment_shape.
    assert (map (fld (shape_output update_fee_payment_shape o)) w = map (fld o) w) as ->.
    { apply map_ext_in. intros f Hin. apply fld_parsed_payment.
      apply list_elem_of_In in Hin. by eapply payment_fields_written_fields. }
    done. }
  split; [| split].
  - intros f Hin Hzero. subst w. unfold payment_fields_written.
    apply elem_of_app. left. apply list_elem_of_In, List.filter_In.
    split; [by apply list_elem_of_In | by rewrite Hzero].
  - intros ->. done.
  - intros Hw. split.
    + destruct w as [| f rest]; [done |]. cbn [map length Nat.ltb Nat.leb].
      unfold run. rewrite run_from_pool_execute. cbv zeta. cbn [app].
      by destruct (proxy_result _).
    + intros now row. eexists. split.
      * unfold proxy_request. cbn [sql params].
        by apply update_row_update_fee_payment.
      * intros column. apply foldl_insert_lookup.
Qed.

End UpdateFeePayment.

(** ** Issuing products *)

Section ProductIssue.

Context `{JsEngine}.
Variable pool : SqlProxy.
Variables (store : option string) (net : oracle).

Lemma get_prop_null_read {A : Type} v k (f : json -> free poolE A) log :
  nullish v = true ->
  run_from store net (lower pool (get_prop v k ≫= f)) log =
  (Raised (null_read v k), log).
Proof. by destruct v. Qed.

Lemma run_from_issue_details issueId good tail log :
  Forall (fun item => nullish item = false) good ->
  match tail with [] => True | bad :: _ => nullish bad = true end ->
  run_from store net (lower pool (issue_details issueId (good ++ tail))) log =
  match send_in_order pool store net
          (flat_map (issue_item_statements issueId) good) log with
  | (Some e, log') => (Raised e, log')
  | (None, log') =>
      match tail with
      | [] => (Returned (), log')
      | bad :: _ => (Raised (null_read bad "product_id"), log')
      end
  end.
Proof.
  intros Hgood Htail. revert log.
  induction good as [| item rest IH]; intros log.
  - cbn [app flat_map send_in_order]. destruct tail as [| bad tail]; [done |].
    cbn [issue_details]. by apply get_prop_null_read.
  - apply Forall_cons_1 in Hgood as [Hitem Hgood].
    cbn [app issue_details flat_map issue_item_statements send_in_order fst snd].
    rewrite !get_prop_prop by done.
    repeat (progress change (Ret ?x ≫= ?f) with (f x); cbv beta).
    rewrite run_from_lower_bind, run_from_lower_execute.
    destruct (proxy_result _) as [v | e]; [| done].
    cbv beta.
    rewrite run_from_lower_bind, run_from_lower_execute.
    destruct (proxy_result _) as [v' | e]; [| done].
    by apply IH.
Qed.

Lemma run_create_product_issue (o : gmap string json) (good tail : list json) :
  shape_issues create_product_issue_shape o = [] ->
  array_items (fld o "items") = good ++ tail ->
  Forall (fun item => nullish item = false) good ->
  match tail with [] => True | bad :: _ => nullish bad = true end ->
  issue_sequence pool store net o good tail.
Proof.
  intros Hvalid Hitems Hgood Htail. unfold issue_sequence. cbv zeta.
  unfold create_product_issue, z_object_parse. rewrite Hvalid.
  change (Ret ?x ≫= ?f) with (f x). cbv beta zeta.
  read_shape create_product_issue_shape.
  rewrite Hitems.
  unfold run. rewrite run_from_lower_bind, run_from_lower_execute.
  change ([] ++ ?l) with l. unfold issue_statement. cbn [fst snd].
  destruct (proxy_result _) as [[issueResult fields] | e] eqn:Hfirst; [| done].
  rewrite (get_prop_prop issueResult) by (by eapply proxy_result_not_nullish).
  change (Ret ?x ≫= ?f) with (f x). cbv beta zeta.
  rewrite run_from_lower_bind, run_from_issue_details by done.
  destruct (send_in_order _ _ _ _ _) as [[e |] log]; [done |].
  by destruct tail.
Qed.

(** X10: [create_product_issue] sends the product_issues insert, and
    then for each item, in the order given, the product_issues_details
    insert carrying the generated issue id and the decrement of that
    product's stock by the same quantity; it stops at the first statement
    that fails, and nothing is undone.  An item that is [null] makes the
    call throw when the loop reaches it: the issue and the rows of the
    items before it have been sent by then. *)
Theorem create_product_issue_sequence (o : gmap string json)
    (good tail : list json) :
  shape_issues create_product_issue_shape o = [] ->
  array_items (fld o "items") = good ++ tail ->
  Forall (fun item => nullish item = false) good ->
  match tail with [] => True | bad :: _ => nullish bad = true end ->
  issue_sequence pool store net o good tail.
Proof. apply run_create_product_issue. Qed.

End ProductIssue.

(** ** The routes *)





(** ** The credential and the address of the requests of one call *)

Section OneCall.

Context `{JsEngine}.
Variable pool : SqlProxy.

Lemma lower_requests {A : Type} store net (p : free poolE A) log :
  Forall (fun req => exists sql params, req = proxy_request pool store sql params) log ->
  Forall (fun req => exists sql params, req = proxy_request pool store sql params)
         (run_from store net (lower pool p) log).2.
Proof.
  revert log. induction p as [a | e | X ev k IH]; intros log Hlog; [done | done |].
  destruct ev. cbn [lower]. rewrite run_from_attempt, run_from_execute.
  cbn [fst snd]. apply IH, Forall_app. split; [done |].
  apply Forall_singleton. eauto.
Qed.

(** X12: whatever a handler does ([p] is any code that reaches the
    proxy through [pool.execute]), every request of one call is posted
    to the configured URL and carries one and the same key: the
    [api_key] the message came with or, when the message came with none
    or with an empty one, the key the server itself was configured
    with. *)
Theorem one_call_one_credential {A : Type} (store : option string) (net : oracle)
    (p : free poolE A) :
  let log := (run store net (lower pool p)).2 in
  Forall (fun req => url req = apiUrl pool /\
                     x_api_key req = resolve_api_key store (defaultApiKey pool)) log /\
  (store = None \/ store = Some EmptyString ->
   Forall (fun req => x_api_key req = defaultApiKey pool) log) /\
  (forall key, store = Some key -> key <> EmptyString ->
   Forall (fun req => x_api_key req = key) log).
Proof.
  intros log. subst log.
  pose proof (lower_requests store net p [] (Forall_nil_2 _)) as Hall.
  fold (run store net (lower pool p)) in Hall.
  split; [| split].
  - eapply Forall_impl; [exact Hall |]. by intros req (sql & params & ->).
  - intros Hstore. eapply Forall_impl; [exact Hall |].
    intros req (sql & params & ->). by destruct Hstore as [-> | ->].
  - intros key -> Hkey. eapply Forall_impl; [exact Hall |].
    intros req (sql & params & ->). cbn [proxy_request x_api_key resolve_api_key truthy].
    destruct (String.eqb_spec key EmptyString); done.
Qed.

End OneCall.

(** ** Stock statements: an issue and a purchase *)

Lemma send_in_order_all pool store net statements log log' :
  send_in_order pool store net statements log = (None, log') ->
  log' = log ++ map (fun s => proxy_request pool store s.1 s.2) statements.
Proof.
  revert log. induction statements as [| s rest IH]; intros log.
  - cbn [send_in_order map]. intros [= <-]. by rewrite app_nil_r.
  - cbn [send_in_order map]. destruct (proxy_result _); [| done].
    intros Hrest. apply IH in Hrest as ->. by rewrite <- app_assoc.
Qed.

Lemma bound_by_app text log1 log2 :
  bound_by text (log1 ++ log2) = bound_by text log1 ++ bound_by text log2.
Proof. unfold bound_by. by rewrite List.filter_app, map_app. Qed.

Lemma bound_by_statements pool store text (l : list statement) :
  bound_by text (map (fun s => proxy_request pool store s.1 s.2) l) =
  map snd (List.filter (fun s => String.eqb s.1 text) l).
Proof.
  unfold bound_by. induction l as [| [t values] l IH]; [done |].
  cbn [map List.filter fst snd proxy_request sql].
  destruct (String.eqb t text); cbn [map params]; by rewrite IH.
Qed.

(** The values the statements of the items bind under [text], when each
    item binds [pick] under it. *)
Lemma bound_by_items pool store text (per_item : json -> list statement)
    (pick : json -> list (list json)) items :
  (forall item,
     map snd (List.filter (fun s => String.eqb s.1 text) (per_item item)) = pick item) ->
  bound_by text
    (map (fun s => proxy_request pool store s.1 s.2) (flat_map per_item items)) =
  flat_map pick items.
Proof.
  intros Hpick. induction items as [| item rest IH]; [done |].
  change (flat_map per_item (item :: rest))
    with (per_item item ++ flat_map per_item rest).
  change (flat_map pick (item :: rest)) with (pick item ++ flat_map pick rest).
  rewrite map_app, bound_by_app. f_equal; [| exact IH].
  by rewrite bound_by_statements.
Qed.

Lemma flat_map_singleton {A B : Type} (f : A -> B) (l : list A) :
  flat_map (fun x => [f x]) l = map f l.
Proof.
  induction l as [| x l IH]; [done |].
  change (flat_map (fun x => [f x]) (x :: l))
    with (f x :: flat_map (fun x => [f x]) l).
  cbn [map]. by f_equal.
Qed.

Lemma flat_map_nil {A B : Type} (l : list A) :
  flat_map (fun _ : A => @nil B) l = [].
Proof. by induction l. Qed.

Section StockStatements.

Context `{JsEngine}.
Variable pool : SqlProxy.
Variable store : option string.

Lemma purchase_stock_statements net o :
  shape_issues create_purchase_shape o = [] ->
  Forall (fun item => nullish item = false) (array_items (fld o "items")) ->
  let bought := run store net (lower pool (create_purchase (JObj o))) in
  (exists result, bought.1 = Returned result) ->
  bound_by stock_increment_sql bought.2 = stock_changes (array_items (fld o "items")) /\
  bound_by stock_decrement_sql bought.2 = [].
Proof.
  intros Hvalid Hitems bought [result Hok]. subst bought.
  rewrite (run_create_purchase pool store net o Hvalid Hitems) in Hok |- *.
  cbv zeta in Hok |- *.
  destruct (proxy_result _) as [[billResult fields] | e]; [| done].
  destruct (send_in_order _ _ _ _ _) as [[e |] log] eqn:Hsent; [done |].
  apply send_in_order_all in Hsent as ->. cbn [snd].
  rewrite !bound_by_app. split.
  - rewrite (bound_by_items pool store stock_increment_sql _
               (fun item => [[prop item "quantity"; prop item "product_id"]]))
      by reflexivity.
    unfold stock_changes. by rewrite flat_map_singleton.
  - rewrite (bound_by_items pool store stock_decrement_sql _ (fun _ => []))
      by reflexivity.
    by rewrite flat_map_nil.
Qed.

Lemma issue_stock_statements net o :
  shape_issues create_product_issue_shape o = [] ->
  Forall (fun item => nullish item = false) (array_items (fld o "items")) ->
  let issued := run store net (lower pool (create_product_issue (JObj o))) in
  (exists result, issued.1 = Returned result) ->
  bound_by stock_decrement_sql issued.2 = stock_changes (array_items (fld o "items")) /\
  bound_by stock_increment_sql issued.2 = [].
Proof.
  intros Hvalid Hitems issued [result Hok]. subst issued.
  pose proof (run_create_product_issue pool store net o
                (array_items (fld o "items")) [] Hvalid
                (eq_sym (app_nil_r _)) Hitems I) as Hrun.
  unfold issue_sequence in Hrun. cbv zeta in Hrun.
  destruct (proxy_result _) as [[issueResult fields] | e];
    [| by rewrite Hrun in Hok].
  destruct (send_in_order _ _ _ _ _) as [[e |] log] eqn:Hsent;
    [by rewrite Hrun in Hok |].
  rewrite Hrun. apply send_in_order_all in Hsent as ->. cbn [snd].
  rewrite !bound_by_app. split.
  - rewrite (bound_by_items pool store stock_decrement_sql _
               (fun item => [[prop item "quantity"; prop item "product_id"]]))
      by reflexivity.
    unfold stock_changes. by rewrite flat_map_singleton.
  - rewrite (bound_by_items pool store stock_increment_sql _ (fun _ => []))
      by reflexivity.
    by rewrite flat_map_nil.
Qed.

(** X13: a purchase that succeeds sends one stock increment for each
    of its items, in the order of the items, and binds to it the
    quantity and the product of the item; it sends no decrement.  An
    issue that succeeds sends one stock decrement for each of its items
    with the quantity and the product of the item, and no increment.  So
    an issue of the very items of a purchase sends, decrement for
    increment, the same quantities for the same products.  (The two
    calls may meet different answers of the proxy; what the statements
    do to the stored stock is the database's.) *)
Theorem issue_mirrors_purchase_stock (purchase issue : gmap string json)
    (net net' : oracle) :
  shape_issues create_purchase_shape purchase = [] ->
  shape_issues create_product_issue_shape issue = [] ->
  fld issue "items" = fld purchase "items" ->
  Forall (fun item => nullish item = false) (array_items (fld purchase "items")) ->
  let bought := run store net (lower pool (create_purchase (JObj purchase))) in
  let issued := run store net' (lower pool (create_product_issue (JObj issue))) in
  (exists result, bought.1 = Returned result) ->
  (exists result, issued.1 = Returned result) ->
  bound_by stock_increment_sql bought.2 =
    stock_changes (array_items (fld purchase "items")) /\
  bound_by stock_decrement_sql issued.2 =
    stock_changes (array_items (fld purchase "items")) /\
  bound_by stock_decrement_sql bought.2 = [] /\
  bound_by stock_increment_sql issued.2 = [].
Proof.
  intros Hpurchase Hissue Hsame Hitems bought issued Hbought Hissued.
  destruct (purchase_stock_statements net purchase Hpurchase Hitems Hbought)
    as [Hinc Hnodec].
  assert (Forall (fun item => nullish item = false) (array_items (fld issue "items")))
    as Hitems' by by rewrite Hsame.
  destruct (issue_stock_statements net' issue Hissue Hitems' Hissued)
    as [Hdec Hnoinc].
  rewrite Hsame in Hdec. done.
Qed.

End StockStatements.

(** ** Creating a student *)

Section CreateStudent.

Context `{JsEngine}.
Variable pool : SqlProxy.
Variables (store : option string) (net : oracle).

(** X14: [create_student] sends the student insert, then the
    enrolment of the generated id in the session 4, then the insert of a
    login for that id, and stops at the first statement that fails
    without undoing the ones before.  The user name of the login is the
    email or, when none or an empty one is given, "student" followed by
    the id; its password is no value of the call but the constant
    'password' of the statement text, with the role 6 and active. *)
Theorem create_student_sequence (o : gmap string json) :
  shape_issues create_student_shape o = [] ->
  student_sequence pool store net o.
Proof.
  intros Hvalid. unfold student_sequence. cbv zeta.
  unfold create_student, z_object_parse. rewrite Hvalid.
  change (Ret ?x ≫= ?f) with (f x). cbv beta zeta.
  read_shape create_student_shape.
  unfold run. rewrite run_from_lower_bind, run_from_lower_execute.
  change ([] ++ ?l) with l. unfold student_statement. cbn [fst snd].
  destruct (proxy_result _) as [[result fields] | e] eqn:Hfirst; [| done].
  rewrite (get_prop_prop result) by (by eapply proxy_result_not_nullish).
  change (Ret ?x ≫= ?f) with (f x). cbv beta zeta.
  unfold student_followers, enroll_sql, student_login_sql, js_or.
  cbn [send_in_order fst snd]. cbv zeta.
  rewrite run_from_lower_bind, run_from_lower_execute. cbn [app].
  set (second := proxy_result (net [_; _])).
  destruct second as [v | e]; [| done].
  rewrite run_from_lower_bind, run_from_lower_execute. cbn [app].
  set (third := proxy_result (net [_; _; _])).
  by destruct third as [v' | e].
Qed.

(** X15: the declaration of [create_student] lists [admission_date]
    among its properties and not among its required keys, yet the handler
    requires it: a call without [admission_date] is rejected by
    validation with an issue whose path names the key, whatever else it
    holds, and nothing is sent. *)
Theorem create_student_requires_admission_date (o : gmap string json) :
  o !! "admission_date" = None ->
  let res := run store net (lower pool (create_student (JObj o))) in
  declared_optional create_student_tool "admission_date" /\
  res.2 = [] /\
  exists issues issue,
    res.1 = Raised (ZodError issues) /\ issue ∈ issues /\
    issue_path issue = JArr [JStr "admission_date"].
Proof.
  intros Hnone res. subst res. split.
  { split.
    - cbn [create_student_tool properties map fst].
      repeat first [apply list_elem_of_here | apply list_elem_of_further].
    - cbn [create_student_tool required]. intros Hin.
      repeat (apply elem_of_cons in Hin as [Hin | Hin]; [discriminate |]).
      by apply elem_of_nil in Hin. }
  destruct (validator_rejects (E := poolE) create_student_shape o
              "admission_date" (ZRequired ZString))
    as (issues & issue & Hparse & Hin & Hpath).
  { unfold create_student_shape.
    repeat first [apply list_elem_of_here | apply list_elem_of_further]. }
  { left. exists ZString. split; [done |]. unfold fld. by rewrite Hnone. }
  unfold create_student.
  rewrite (rejected_before_any_request pool store net _ _ _ _ Hparse).
  split; [done |]. eauto.
Qed.

End CreateStudent.

(** ** Updating a student *)

Lemma foldl_push_column p columns updates values :
  foldl (fun acc c => push_column p c acc) (updates, values) columns =
  (updates ++ map column_clause (List.filter (supplied p) columns),
   values ++ map (fun c => fld p c.1.1) (List.filter (supplied p) columns)).
Proof.
  revert updates values. induction columns as [| c rest IH]; intros updates values.
  - simpl. by rewrite !app_nil_r.
  - cbn [foldl List.filter]. unfold push_column at 2.
    destruct (supplied p c); cbn [fst snd]; rewrite IH; [| done].
    cbn [map]. by rewrite <- !app_assoc.
Qed.

Lemma push_if_set_column p f acc :
  push_if_set p f acc = push_column p (f, f, false) acc.
Proof. reflexivity. Qed.

Lemma push_column_if_set_column p f column acc :
  push_column_if_set p f column acc = push_column p (f, column, false) acc.
Proof. reflexivity. Qed.

Lemma push_if_defined_column p f acc :
  push_if_defined p f acc = push_column p (f, f, true) acc.
Proof. reflexivity. Qed.

Lemma update_student_clauses_written p :
  update_student_clauses p =
  (map column_clause (student_written p),
   map (fun c => fld p c.1.1) (student_written p)).
Proof.
  unfold update_student_clauses. cbv zeta.
  rewrite !push_if_set_column, !push_column_if_set_column, push_if_defined_column.
  apply (foldl_push_column p student_columns [] []).
Qed.

Lemma update_enroll_clauses_written p :
  update_enroll_clauses p =
  (map set_clause (enroll_written p), map (fld p) (enroll_written p)).
Proof.
  change (update_enroll_clauses p)
    with (foldl (fun acc f => push_if_set p f acc) ([], []) ["class_id"; "section_id"]).
  apply foldl_push_if_set.
Qed.

Lemma fld_parsed_student o c :
  c ∈ student_columns ->
  fld (shape_output update_student_shape o) c.1.1 = fld o c.1.1.
Proof.
  unfold student_columns. intros Hin.
  repeat (apply elem_of_cons in Hin as [-> | Hin];
          [cbn [fst snd]; by read_shape update_student_shape |]).
  by apply elem_of_nil in Hin.
Qed.

Lemma student_written_parsed o :
  student_written (shape_output update_student_shape o) = student_written o.
Proof.
  unfold student_written. apply List.filter_ext_in. intros c Hin.
  unfold supplied. by rewrite fld_parsed_student by by apply list_elem_of_In.
Qed.

Lemma enroll_written_parsed o :
  enroll_written (shape_output update_student_shape o) = enroll_written o.
Proof.
  unfold enroll_written. cbn [List.filter].
  by read_shape update_student_shape.
Qed.

Lemma student_written_columns p c : c ∈ student_written p -> c ∈ student_columns.
Proof.
  unfold student_written. rewrite !list_elem_of_In. intros Hin.
  by apply List.filter_In in Hin as [Hin _].
Qed.

Lemma count_placeholders_column_clauses columns rest :
  Forall (fun c => count_placeholders c.1.2 = 0%nat) columns ->
  foldr (fun s n => (count_placeholders s + n)%nat) 0%nat
        (map column_clause columns ++ rest) =
  (length columns +
   foldr (fun s n => (count_placeholders s + n)%nat) 0%nat rest)%nat.
Proof.
  induction columns as [| c columns IH]; intros Hall; [done |].
  apply Forall_cons_1 in Hall as [Hc Hall]. cbn [map app foldr length].
  rewrite IH by done. unfold column_clause. rewrite count_placeholders_app, Hc.
  simpl. lia.
Qed.

Lemma student_written_no_placeholder p :
  Forall (fun c => count_placeholders c.1.2 = 0%nat) (student_written p).
Proof.
  apply List.Forall_forall. intros c Hin. apply list_elem_of_In in Hin.
  apply student_written_columns in Hin. unfold student_columns in Hin.
  repeat (apply elem_of_cons in Hin as [-> | Hin]; [reflexivity |]).
  by apply elem_of_nil in Hin.
Qed.

Lemma enroll_written_no_placeholder p :
  Forall (fun f => count_placeholders f = 0%nat) (enroll_written p).
Proof.
  unfold enroll_written. cbn [List.filter].
  destruct (truthy _), (truthy _); repeat constructor.
Qed.

Lemma truthy_js_or a b : truthy (js_or a b) = truthy a || truthy b.
Proof. unfold js_or. by destruct (truthy a) eqn:Ha; [rewrite Ha |]. Qed.

Lemma enroll_written_nil o :
  enroll_written o = [] <->
  truthy (js_or (fld o "class_id") (fld o "section_id")) = false.
Proof.
  rewrite truthy_js_or. unfold enroll_written. cbn [List.filter].
  destruct (truthy (fld o "class_id")), (truthy (fld o "section_id")); done.
Qed.

Section UpdateStudent.

Context `{JsEngine}.
Variable pool : SqlProxy.
Variables (store : option string) (net : oracle).

Lemma update_student_valid o :
  shape_issues update_student_shape o = [] ->
  update_student (JObj o) =
  (_ ← (if (0 <? length (map column_clause (student_written o)))%nat then
          _ ← pool_execute (update_student_sql (map column_clause (student_written o)))
                (map (fun c => fld o c.1.1) (student_written o) ++ [fld o "id"]);
          Ret ()
        else Ret ());
   _ ← (if truthy (js_or (fld o "class_id") (fld o "section_id")) then
          _ ← pool_execute (update_enroll_sql (map set_clause (enroll_written o)))
                (map (fld o) (enroll_written o) ++ [fld o "id"]);
          Ret ()
        else Ret ());
   Ret (text_result ("Student " +:+ js_String (fld o "id") +:+ " updated."))).
Proof.
  intros Hvalid. unfold update_student, z_object_parse. rewrite Hvalid.
  change (Ret ?x ≫= ?f) with (f x). cbv beta.
  rewrite update_student_clauses_written, update_enroll_clauses_written.
  rewrite student_written_parsed, enroll_written_parsed.
  assert (map (fun c => fld (shape_output update_student_shape o) c.1.1)
              (student_written o) =
          map (fun c => fld o c.1.1) (student_written o)) as ->.
  { apply map_ext_in. intros c Hin. apply fld_parsed_student.
    apply list_elem_of_In in Hin. by eapply student_written_columns. }
  assert (map (fld (shape_output update_student_shape o)) (enroll_written o) =
          map (fld o) (enroll_written o)) as ->.
  { apply map_ext_in. intros f Hin. unfold enroll_written in Hin.
    apply List.filter_In in Hin as [Hin _]. simpl in Hin.
    destruct Hin as [<- | [<- | []]]; by read_shape update_student_shape. }
  by read_shape update_student_shape.
Qed.

Lemma run_update_student o :
  shape_issues update_student_shape o = [] ->
  run store net (lower pool (update_student (JObj o))) =
  match send_in_order pool store net (student_updates o) [] with
  | (None, log) =>
      (Returned (text_result ("Student " +:+ js_String (fld o "id") +:+ " updated.")),
       log)
  | (Some e, log) => (Raised e, log)
  end.
Proof.
  intros Hvalid. rewrite (update_student_valid o Hvalid). unfold student_updates.
  assert (match enroll_written o with
          | [] => truthy (js_or (fld o "class_id") (fld o "section_id")) = false
          | _ => truthy (js_or (fld o "class_id") (fld o "section_id")) = true
          end) as Henroll.
  { pose proof (enroll_written_nil o) as Hnil.
    destruct (enroll_written o); [by apply Hnil |].
    destruct (truthy (js_or _ _)); [done |]. by pose proof (proj2 Hnil eq_refl). }
  unfold run. rewrite run_from_lower_bind.
  destruct (student_written o) as [| c w] eqn:Hw.
  - cbn [map length Nat.ltb Nat.leb app]. cbn [lower run_from].
    rewrite run_from_lower_bind.
    destruct (enroll_written o) as [| f e] eqn:He; rewrite Henroll; [done |].
    rewrite run_from_lower_bind, run_from_lower_execute.
    cbn [send_in_order fst snd]. cbv zeta. cbn [app].
    by destruct (proxy_result _).
  - replace (0 <? length (map column_clause (c :: w)))%nat with true by done.
    rewrite run_from_lower_bind, run_from_lower_execute.
    cbn [app send_in_order fst snd]. cbv zeta. cbn [app].
    set (first := proxy_result (net [_])).
    destruct first as [v | err]; [| done]. cbn [lower run_from].
    rewrite run_from_lower_bind.
    destruct (enroll_written o) as [| f e] eqn:He; rewrite Henroll; [done |].
    rewrite run_from_lower_bind, run_from_lower_execute.
    cbn [send_in_order fst snd]. cbv zeta. cbn [app].
    set (second := proxy_result (net [_; _])).
    by destruct second.
Qed.

(** X16: [update_student] sends an UPDATE of student when one of its
    columns is given (0 counts for [category_id] only, an empty text or a
    0 otherwise does not), and then, when [class_id] or [section_id] is
    given, an UPDATE of the student's enrolment in the session 4 with the
    same values; it stops at the first that fails.  A call that gives
    nothing to write sends nothing and still answers "Student n
    updated." ([n] the id, a safe integer); a change of class is written
    to both tables. *)
Theorem update_student_statements (o : gmap string json) :
  shape_issues update_student_shape o = [] ->
  safe_integer (fld o "id") = true ->
  student_update pool store net o.
Proof.
  intros Hvalid _. unfold student_update. cbv zeta.
  rewrite (run_update_student o Hvalid). split; [done |]. split.
  - intros Hnone. unfold student_updates.
    assert (student_written o = []) as ->.
    { unfold student_written. apply filter_nil. exact Hnone. }
    assert (enroll_written o = []) as ->.
    { unfold enroll_written. apply filter_nil. intros f Hin.
      apply elem_of_cons in Hin as [-> | Hin].
      - apply (Hnone ("class_id", "class", false)). unfold student_columns.
        repeat first [apply list_elem_of_here | apply list_elem_of_further].
      - apply elem_of_cons in Hin as [-> | Hin]; [| by apply elem_of_nil in Hin].
        apply (Hnone ("section_id", "section", false)). unfold student_columns.
        repeat first [apply list_elem_of_here | apply list_elem_of_further]. }
    done.
  - intros Hclass. exists (student_written o), (enroll_written o).
    assert (("class_id", "class", false) ∈ student_written o) as Hw.
    { unfold student_written. apply list_elem_of_In, List.filter_In.
      split; [| exact Hclass]. apply list_elem_of_In. unfold student_columns.
      repeat first [apply list_elem_of_here | apply list_elem_of_further]. }
    assert ("class_id" ∈ enroll_written o) as He.
    { unfold enroll_written. apply list_elem_of_In, List.filter_In.
      split; [by left | exact Hclass]. }
    split; [| done]. unfold student_updates.
    destruct (student_written o); [by apply elem_of_nil in Hw |].
    destruct (enroll_written o); [by apply elem_of_nil in He |]. done.
Qed.

End UpdateStudent.

(** ** Placeholders and bound values: the cases *)

Section PlaceholdersOfCases.

Context `{JsEngine}.

Lemma update_student_binds args :
  every_statement binds_every_placeholder (update_student args).
Proof.
  unfold update_student. apply every_statement_bind; [binds | intros parsed].
  rewrite update_student_clauses_written, update_enroll_clauses_written.
  apply every_statement_bind; [| intros _; apply every_statement_bind; [| done]].
  - destruct (0 <? _)%nat; [| done].
    apply every_statement_bind; [| done]. apply every_statement_execute.
    unfold binds_every_placeholder, update_student_sql. cbn [fst snd].
    rewrite !count_placeholders_app, count_placeholders_concat by done.
    rewrite <- (app_nil_r (map column_clause _)).
    rewrite count_placeholders_column_clauses by apply student_written_no_placeholder.
    rewrite length_app, length_map. simpl. lia.
  - destruct (truthy _); [| done].
    apply every_statement_bind; [| done]. apply every_statement_execute.
    unfold binds_every_placeholder, update_enroll_sql. cbn [fst snd].
    rewrite !count_placeholders_app, count_placeholders_concat by done.
    rewrite <- (app_nil_r (map set_clause _)).
    rewrite count_placeholders_set_clauses by apply enroll_written_no_placeholder.
    rewrite length_app, length_map. simpl. lia.
Qed.

(** X17: every statement sent by one of the cases of [cases] (the
    inquiry, inventory and reception-configuration cases the properties
    C1 to C10 are about) has exactly as many [?] in its text as values
    bound to it, whatever the arguments and the answers of the proxy:
    also where the text is put together from the arguments given, as
    the SET list of [update_inquiry] and the filters of
    [list_inquiries] are. *)
Theorem cases_bind_every_placeholder :
  Forall (fun c => sends_only binds_every_placeholder c.2) cases.
Proof.
  unfold cases. repeat apply Forall_cons_2; [.. | apply Forall_nil_2];
    apply sends_only_intro; intros args; cbn [snd].
  - apply create_inquiry_binds.
  - apply update_inquiry_binds.
  - apply list_inquiries_binds.
  - apply create_product_category_binds.
  - apply create_product_unit_binds.
  - apply create_purchase_binds.
  - apply list_reception_configs_binds.
  - apply create_reception_config_binds.
  - apply delete_reception_config_binds.
Qed.

(** X18: the same for the cases of [more_cases]: the [IN (...)] list
    of [bulk_delete_inquiries] has one [?] per id, the SET lists of
    [update_fee_payment] and [update_student] one per value pushed, and
    the optional [LIMIT ?] of [list_transactions] comes with its
    value. *)
Theorem more_cases_bind_every_placeholder :
  Forall (fun c => sends_only binds_every_placeholder c.2) more_cases.
Proof.
  unfold more_cases. repeat apply Forall_cons_2; [.. | apply Forall_nil_2];
    apply sends_only_intro; intros args; cbn [snd].
  - apply bulk_delete_inquiries_binds.
  - apply list_inquiry_sources_binds.
  - apply list_inquiry_statuses_binds.
  - apply delete_inquiry_binds.
  - apply create_inquiry_follow_up_binds.
  - apply list_inquiry_follow_ups_binds.
  - apply list_transactions_binds.
  - apply delete_call_log_binds.
  - apply create_product_issue_binds.
  - apply update_fee_payment_binds.
  - apply create_student_binds.
  - apply update_student_binds.
Qed.

End PlaceholdersOfCases.

(** ** Updating an inquiry: the answer *)

Section UpdateInquiryAnswer.

Context `{JsEngine}.
Variable pool : SqlProxy.
Variable other_cases : string -> option (json -> free poolE CallToolResult).
Variables (store : option string) (net : oracle).

(** X19: a [tools/call] of [update_inquiry] that gives a field to
    write, for an id [n] that is a safe integer, sends its one UPDATE
    and then answers by the row count the proxy reports: with
    [affectedRows] 0 the error result "Error: MCP error -32600: Inquiry
    with ID n not found", with anything else "Inquiry n updated
    successfully."; a failure of the proxy comes back as an error
    result.  Whether the inquiry exists is not looked up before the
    UPDATE is sent. *)
Theorem update_inquiry_outcomes (o : gmap string json) :
  shape_issues update_inquiry_shape o = [] ->
  safe_integer (fld o "id") = true ->
  written o <> [] ->
  run store net
    (handle pool other_cases {| name := "update_inquiry"; arguments := JObj o |}) =
  update_inquiry_outcome pool store net o.
Proof.
  intros Hvalid _ Hwritten. rewrite run_handle. cbn [name arguments].
  change (dispatch other_cases "update_inquiry" (JObj o))
    with (update_inquiry (JObj o)).
  rewrite (update_inquiry_valid o Hvalid).
  unfold update_inquiry_outcome, update_inquiry_request.
  destruct (written o) as [| f rest] eqn:Hw; [done |].
  unfold run. rewrite run_from_pool_execute. cbv zeta. cbn [app].
  destruct (proxy_result _) as [[result fields] | e] eqn:Hanswer; [| done].
  rewrite (get_prop_prop result) by (by eapply proxy_result_not_nullish).
  change (Ret ?x ≫= ?f) with (f x). cbv beta.
  by destruct (is_number _ 0).
Qed.

End UpdateInquiryAnswer.

(** * The properties at concrete inputs *)

(** Two requests for the same tool under the keys "key-a" and "key-b",
    the second resumed first: the call sent for the first carries
    "key-a". *)
Lemma credential_isolation_witness :
  "key-a" <> EmptyString /\ "key-b" <> EmptyString /\ "key-a" <> "key-b" /\
  (0%nat, demo_insert "key-a")
    ∈ outbox (serve [(1%nat, Rejected "unused"); (0%nat, Rejected "unused")]
                (two_requests demo_pool no_other_cases (Some "key-a") (Some "key-b")
                   demo_request demo_request)) /\
  ((0%nat = 0%nat /\ x_api_key (demo_insert "key-a") = "key-a" /\
    x_api_key (demo_insert "key-a") <> "key-b") \/
   (0%nat = 1%nat /\ x_api_key (demo_insert "key-a") = "key-b" /\
    x_api_key (demo_insert "key-a") <> "key-a")).
Proof.
  assert (H1 : "key-a" <> EmptyString) by discriminate.
  assert (H2 : "key-b" <> EmptyString) by discriminate.
  assert (H3 : "key-a" <> "key-b") by discriminate.
  assert (H4 : (0%nat, demo_insert "key-a")
                 ∈ outbox (serve [(1%nat, Rejected "unused"); (0%nat, Rejected "unused")]
                             (two_requests demo_pool no_other_cases
                                (Some "key-a") (Some "key-b")
                                demo_request demo_request))).
  { replace (outbox _) with [(1%nat, demo_insert "key-b"); (0%nat, demo_insert "key-a")]
      by (vm_compute; reflexivity).
    apply list_elem_of_further, list_elem_of_here. }
  exact (conj H1 (conj H2 (conj H3 (conj H4
           (credential_isolation demo_pool no_other_cases "key-a" "key-b"
              demo_request demo_request _ 0%nat (demo_insert "key-a")
              H1 H2 H3 H4))))).
Defined.

(** An update of [name] and [email] against a backend that accepts every
    statement. *)
Lemma update_inquiry_partial_update_witness :
  shape_issues update_inquiry_shape demo_update = [] /\
  partial_update demo_pool None demo_net demo_update.
Proof.
  assert (H1 : shape_issues update_inquiry_shape demo_update = [])
    by (vm_compute; reflexivity).
  exact (conj H1 (update_inquiry_partial_update demo_pool None demo_net demo_update H1)).
Defined.


(** ** The further properties at concrete inputs *)

(** A URI that is not advertised. *)
Lemma read_resource_unknown_uri_witness :
  ("teachers://list" ∉ map resource_uri list_resources) /\
  run None demo_net (lower demo_pool (read_resource "teachers://list")) =
  (Raised (McpError ErrorCode_InvalidRequest
             ("Unknown resource: " +:+ "teachers://list")), []).
Proof.
  assert (H1 : "teachers://list" ∉ map resource_uri list_resources)
    by (intros Hin; vm_compute in Hin;
        repeat (apply elem_of_cons in Hin as [Hin | Hin]; [discriminate |]);
        by apply elem_of_nil in Hin).
  exact (conj H1 (read_resource_unknown_uri demo_pool None demo_net
                    "teachers://list" H1)).
Defined.

(** The first of the advertised resources. *)
Lemma read_resource_advertised_witness :
  {| resource_uri := "inquiries://list";
     resource_name := "Admission Inquiries";
     resource_description := "List of all admission inquiries";
     resource_mimeType := "application/json" |} ∈ list_resources /\
  exists table, table ∈ resource_tables /\
    reads_table demo_pool None demo_net
      {| resource_uri := "inquiries://list";
         resource_name := "Admission Inquiries";
         resource_description := "List of all admission inquiries";
         resource_mimeType := "application/json" |} table.
Proof.
  assert (H1 : {| resource_uri := "inquiries://list";
                  resource_name := "Admission Inquiries";
                  resource_description := "List of all admission inquiries";
                  resource_mimeType := "application/json" |} ∈ list_resources)
    by apply list_elem_of_here.
  exact (conj H1 (read_resource_advertised demo_pool None demo_net _ H1)).
Defined.

(** No ids. *)
Lemma bulk_delete_inquiries_no_ids_witness :
  fld demo_no_ids "ids" = JArr [] /\
  run None demo_net (lower demo_pool (bulk_delete_inquiries (JObj demo_no_ids))) =
  (Returned (text_result "No IDs provided for deletion."), []).
Proof.
  assert (H1 : fld demo_no_ids "ids" = JArr []) by (vm_compute; reflexivity).
  exact (conj H1 (bulk_delete_inquiries_no_ids demo_pool None demo_net demo_no_ids H1)).
Defined.

(** The inquiries 3 and 4. *)
Lemma bulk_delete_inquiries_statements_witness :
  fld demo_ids "ids" = JArr (map JNum [3; 4]) /\
  [3; 4] <> [] /\
  count_placeholders (placeholders (map JNum [3; 4])) = length [3; 4] /\
  run None demo_net (lower demo_pool (bulk_delete_inquiries (JObj demo_ids))) =
  bulk_delete_outcome demo_pool None demo_net (map JNum [3; 4]).
Proof.
  assert (H1 : fld demo_ids "ids" = JArr (map JNum [3; 4])) by (vm_compute; reflexivity).
  assert (H2 : [3; 4] <> @nil Z) by discriminate.
  exact (conj H1 (conj H2
           (bulk_delete_inquiries_statements demo_pool None demo_net demo_ids [3; 4]
              H1 H2))).
Defined.

(** The inquiry 9, against a backend that reports one affected row. *)
Lemma delete_inquiry_outcomes_witness :
  fld demo_inquiry "id" = JNum 9 /\
  safe_integer (JNum 9) = true /\
  run None demo_net
    (handle demo_pool (with_more_cases no_other_cases)
       {| name := "delete_inquiry"; arguments := JObj demo_inquiry |}) =
  delete_inquiry_outcome demo_pool None demo_net 9.
Proof.
  assert (H1 : fld demo_inquiry "id" = JNum 9) by (vm_compute; reflexivity).
  assert (H2 : safe_integer (JNum 9) = true) by reflexivity.
  exact (conj H1 (conj H2
           (delete_inquiry_outcomes demo_pool None demo_net no_other_cases
              demo_inquiry 9 H1 H2))).
Defined.

(** The income transactions with the limit 0: "LIMIT 50". *)
Lemma list_transactions_row_limited_witness :
  shape_issues list_transactions_shape demo_transactions = [] /\
  row_limited demo_pool None demo_net demo_transactions.
Proof.
  assert (H1 : shape_issues list_transactions_shape demo_transactions = [])
    by (vm_compute; reflexivity).
  exact (conj H1 (list_transactions_row_limited demo_pool None demo_net
                    demo_transactions H1)).
Defined.

(** An amount of 0 and empty remarks. *)
Lemma update_fee_payment_partial_update_witness :
  shape_issues update_fee_payment_shape demo_payment = [] /\
  safe_integer (fld demo_payment "id") = true /\
  payment_update demo_pool None demo_net demo_payment.
Proof.
  assert (H1 : shape_issues update_fee_payment_shape demo_payment = [])
    by (vm_compute; reflexivity).
  assert (H2 : safe_integer (fld demo_payment "id") = true)
    by (vm_compute; reflexivity).
  exact (conj H1 (conj H2
           (update_fee_payment_partial_update demo_pool None demo_net
              demo_payment H1 H2))).
Defined.

(** The two items of [demo_purchase], issued. *)
Lemma create_product_issue_sequence_witness :
  shape_issues create_product_issue_shape demo_issue = [] /\
  array_items (fld demo_issue "items") = array_items (fld demo_issue "items") ++ [] /\
  Forall (fun item => nullish item = false) (array_items (fld demo_issue "items")) /\
  True /\
  issue_sequence demo_pool None demo_net demo_issue
    (array_items (fld demo_issue "items")) [].
Proof.
  assert (H1 : shape_issues create_product_issue_shape demo_issue = [])
    by (vm_compute; reflexivity).
  assert (H2 : array_items (fld demo_issue "items") =
               array_items (fld demo_issue "items") ++ [])
    by (symmetry; apply app_nil_r).
  assert (H3 : Forall (fun item => nullish item = false)
                 (array_items (fld demo_issue "items")))
    by (apply Forall_forall; intros item Hin; vm_compute in Hin;
        repeat (apply elem_of_cons in Hin as [-> | Hin]; [reflexivity |]);
        by apply elem_of_nil in Hin).
  exact (conj H1 (conj H2 (conj H3 (conj I
           (create_product_issue_sequence demo_pool None demo_net demo_issue
              _ [] H1 H2 H3 I))))).
Defined.

(** [demo_purchase] and then [demo_issue]. *)
Lemma issue_mirrors_purchase_stock_witness :
  shape_issues create_purchase_shape demo_purchase = [] /\
  shape_issues create_product_issue_shape demo_issue = [] /\
  fld demo_issue "items" = fld demo_purchase "items" /\
  Forall (fun item => nullish item = false) (array_items (fld demo_purchase "items")) /\
  (exists result,
     (run None demo_net (lower demo_pool (create_purchase (JObj demo_purchase)))).1 =
     Returned result) /\
  (exists result,
     (run None demo_net (lower demo_pool (create_product_issue (JObj demo_issue)))).1 =
     Returned result) /\
  bound_by stock_increment_sql
    (run None demo_net (lower demo_pool (create_purchase (JObj demo_purchase)))).2 =
    stock_changes (array_items (fld demo_purchase "items")) /\
  bound_by stock_decrement_sql
    (run None demo_net (lower demo_pool (create_product_issue (JObj demo_issue)))).2 =
    stock_changes (array_items (fld demo_purchase "items")) /\
  bound_by stock_decrement_sql
    (run None demo_net (lower demo_pool (create_purchase (JObj demo_purchase)))).2 = [] /\
  bound_by stock_increment_sql
    (run None demo_net (lower demo_pool (create_product_issue (JObj demo_issue)))).2 = [].
Proof.
  assert (H1 : shape_issues create_purchase_shape demo_purchase = [])
    by (vm_compute; reflexivity).
  assert (H2 : shape_issues create_product_issue_shape demo_issue = [])
    by (vm_compute; reflexivity).
  assert (H3 : fld demo_issue "items" = fld demo_purchase "items")
    by (vm_compute; reflexivity).
  assert (H4 : Forall (fun item => nullish item = false)
                 (array_items (fld demo_purchase "items")))
    by (apply Forall_forall; intros item Hin; vm_compute in Hin;
        repeat (apply elem_of_cons in Hin as [-> | Hin]; [reflexivity |]);
        by apply elem_of_nil in Hin).
  assert (H5 : exists result,
            (run None demo_net (lower demo_pool (create_purchase (JObj demo_purchase)))).1 =
            Returned result)
    by (eexists; vm_compute; reflexivity).
  assert (H6 : exists result,
            (run None demo_net (lower demo_pool (create_product_issue (JObj demo_issue)))).1 =
            Returned result)
    by (eexists; vm_compute; reflexivity).
  exact (conj H1 (conj H2 (conj H3 (conj H4 (conj H5 (conj H6
           (issue_mirrors_purchase_stock demo_pool None demo_purchase demo_issue
              demo_net demo_net H1 H2 H3 H4 H5 H6))))))).
Defined.

(** A student without an email. *)
Lemma create_student_sequence_witness :
  shape_issues create_student_shape demo_student = [] /\
  student_sequence demo_pool None demo_net demo_student.
Proof.
  assert (H1 : shape_issues create_student_shape demo_student = [])
    by (vm_compute; reflexivity).
  exact (conj H1 (create_student_sequence demo_pool None demo_net demo_student H1)).
Defined.

(** The same student with every key the declaration requires and no
    [admission_date]. *)
Lemma create_student_requires_admission_date_witness :
  delete "admission_date" demo_student !! "admission_date" = None /\
  declared_optional create_student_tool "admission_date" /\
  (run None demo_net
     (lower demo_pool
        (create_student (JObj (delete "admission_date" demo_student))))).2 = [] /\
  exists issues issue,
    (run None demo_net
       (lower demo_pool
          (create_student (JObj (delete "admission_date" demo_student))))).1 =
    Raised (ZodError issues) /\
    issue ∈ issues /\ issue_path issue = JArr [JStr "admission_date"].
Proof.
  assert (H1 : delete "admission_date" demo_student !! "admission_date" = None)
    by apply lookup_delete_eq.
  exact (conj H1 (create_student_requires_admission_date demo_pool None demo_net
                    (delete "admission_date" demo_student) H1)).
Defined.

(** The student 4 moves to the class 6. *)
Lemma update_student_statements_witness :
  shape_issues update_student_shape demo_student_move = [] /\
  safe_integer (fld demo_student_move "id") = true /\
  student_update demo_pool None demo_net demo_student_move.
Proof.
  assert (H1 : shape_issues update_student_shape demo_student_move = [])
    by (vm_compute; reflexivity).
  assert (H2 : safe_integer (fld demo_student_move "id") = true)
    by (vm_compute; reflexivity).
  exact (conj H1 (conj H2
           (update_student_statements demo_pool None demo_net
              demo_student_move H1 H2))).
Defined.

(** An update of [name] and [email] against a backend that reports one
    affected row. *)
Lemma update_inquiry_outcomes_witness :
  shape_issues update_inquiry_shape demo_update = [] /\
  safe_integer (fld demo_update "id") = true /\
  written demo_update <> [] /\
  run None demo_net
    (handle demo_pool no_other_cases
       {| name := "update_inquiry"; arguments := JObj demo_update |}) =
  update_inquiry_outcome demo_pool None demo_net demo_update.
Proof.
  assert (H1 : shape_issues update_inquiry_shape demo_update = [])
    by (vm_compute; reflexivity).
  assert (H2 : safe_integer (fld demo_update "id") = true)
    by (vm_compute; reflexivity).
  assert (H3 : written demo_update <> [])
    by (vm_compute; discriminate).
  exact (conj H1 (conj H2 (conj H3
           (update_inquiry_outcomes demo_pool no_other_cases None demo_net
              demo_update H1 H2 H3)))).
Defined.

(** ** Single calls, evaluated *)

(** The end-to-end scenario of the spec: creating a record answers with
    the generated identifier. *)
Example create_inquiry_jane :
  run (Some "key-a") demo_net
    (handle demo_pool no_other_cases
       {| name := "create_inquiry";
          arguments := obj [("name", JStr "Jane"); ("mobile_no", JStr "123");
                            ("date", JStr "2026-02-01")] |}) =
  (Returned (text_result "Inquiry created successfully. ID: 1"),
   [{| url := apiUrl demo_pool;
       x_api_key := "key-a";
       sql := create_inquiry_sql;
       params := [JStr "Jane"; JStr "123"; JStr "2026-02-01"; JNull; JNull; JNull;
                  JNull; JNull; JNull; JNull; JNull; JStr "active"; JNum 1;
                  JNum 1] |}]).
Proof. vm_compute. reflexivity. Qed.

(** A missing required key is reported at its path, before anything is
    sent. *)
Example create_inquiry_without_name :
  z_object_parse (E := poolE) create_inquiry_shape
    (obj [("mobile_no", JStr "123"); ("date", JStr "2026-02-01")]) =
  Throw (ZodError [invalid_type "string" JUndefined [JStr "name"]]).
Proof. vm_compute. reflexivity. Qed.

Example unknown_tool :
  run None demo_net
    (handle demo_pool no_other_cases {| name := "drop_tables"; arguments := obj [] |}) =
  (Returned {| text := "Error: MCP error -32601: Unknown tool: drop_tables";
               isError := true |}, []).
Proof. vm_compute. reflexivity. Qed.

(** Two fields supplied: two assignments, in the order of the handler's
    [if]s, then the timestamp. *)
Example update_inquiry_name_and_email :
  (run None demo_net (lower demo_pool (update_inquiry (JObj demo_update)))).2 =
  [{| url := apiUrl demo_pool;
      x_api_key := "env-key";
      sql := "UPDATE enquiry SET name = ?, email = ?, updated_at = NOW() WHERE id = ?";
      params := [JStr "Jane"; JStr "jane@example.org"; JNum 1] |}].
Proof. vm_compute. reflexivity. Qed.

(** [items] is validated as an array of anything: a [null] item passes
    validation and fails in the first loop, before the bill insert. *)
Example create_purchase_null_item :
  run None demo_net
    (handle demo_pool no_other_cases
       {| name := "create_purchase";
          arguments := obj [("bill_no", JStr "B-1"); ("supplier_id", JNum 2);
                            ("store_id", JNum 3); ("date", JStr "2026-02-01");
                            ("items", JArr [JNull])] |}) =
  (Returned {| text := "Error: Cannot read properties of null (reading 'quantity')";
               isError := true |}, []).
Proof. vm_compute. reflexivity. Qed.

(** A purchase of two items, every statement accepted: the bill, then
    detail and stock for each item, all under the identifier the bill
    insert returned. *)
Example demo_purchase_statements :
  map statement_of
    (run None demo_net (lower demo_pool (create_purchase (JObj demo_purchase)))).2 =
  purchase_statements demo_purchase (JNum 1).
Proof. vm_compute. reflexivity. Qed.

(** The total of [demo_purchase]: (2 * 10 - 1) + (1 * 5 - 0). *)
Example demo_purchase_total :
  total_of (array_items (fld demo_purchase "items")) = JNum 24.
Proof. vm_compute. reflexivity. Qed.

(** A request without a key of its own is sent under the key of the
    process. *)
Example no_key_falls_back :
  resolve_api_key (Some EmptyString) "env-key" = "env-key" /\
  resolve_api_key None "env-key" = "env-key" /\
  resolve_api_key (Some "key-a") "env-key" = "key-a".
Proof. repeat split. Qed.

(** [bulk_delete_inquiries] for the inquiries 3 and 4: the follow-ups
    first, one placeholder per id. *)
Example demo_bulk_delete_statements :
  map statement_of
    (run None demo_net (lower demo_pool (bulk_delete_inquiries (JObj demo_ids)))).2 =
  [("DELETE FROM enquiry_follow_up WHERE enquiry_id IN (?,?)", [JNum 3; JNum 4]);
   ("DELETE FROM enquiry WHERE id IN (?,?)", [JNum 3; JNum 4])].
Proof. vm_compute. reflexivity. Qed.

(** The sources of the branch 0 are those of the branch 1. *)
Example demo_sources_of_branch_0 :
  map statement_of
    (run None demo_net
       (lower demo_pool (list_inquiry_sources (obj [("branch_id", JNum 0)])))).2 =
  [("SELECT * FROM enquiry_reference WHERE branch_id = ?", [JNum 1])].
Proof. vm_compute. reflexivity. Qed.

(** An amount of 0 is written, empty remarks are not. *)
Example demo_payment_statement :
  map statement_of
    (run None demo_net (lower demo_pool (update_fee_payment (JObj demo_payment)))).2 =
  [("UPDATE fee_payment_history SET amount = ? WHERE id = ?", [JNum 0; JNum 7])].
Proof. vm_compute. reflexivity. Qed.

(** A student without an email gets the login "student1", 1 being the
    id the backend generated. *)
Example demo_student_login :
  last (map statement_of
          (run None demo_net (lower demo_pool (create_student (JObj demo_student)))).2) =
  Some ("INSERT INTO login_credential (user_id, username, password, role, active) VALUES (?, ?, 'password', 6, 1)",
        [JNum 1; JStr "student1"]).
Proof. vm_compute. reflexivity. Qed.

(** A change of class goes to student and to enroll. *)
Example demo_student_move_statements :
  map statement_of
    (run None demo_net (lower demo_pool (update_student (JObj demo_student_move)))).2 =
  [("UPDATE student SET class = ? WHERE id = ?", [JNum 6; JNum 4]);
   ("UPDATE enroll SET class_id = ? WHERE student_id = ? AND session_id = 4",
    [JNum 6; JNum 4])].
Proof. vm_compute. reflexivity. Qed.

(** An issue whose second item is [null]: the issue and the rows of the
    first item are sent, then the call fails. *)
Example create_product_issue_null_item :
  let items := JArr [obj [("product_id", JNum 7); ("quantity", JNum 2)]; JNull] in
  let res := run None demo_net
               (handle demo_pool (with_more_cases no_other_cases)
                  {| name := "create_product_issue";
                     arguments := JObj (<["items" := items]> demo_issue) |}) in
  res.1 = Returned {| text := "Error: Cannot read properties of null (reading 'product_id')";
                      isError := true |} /\
  map sql res.2 = [product_issue_sql; product_issue_detail_sql; stock_decrement_sql].
Proof. vm_compute. split; reflexivity. Qed.

(** A message before any connection, and one after a connection opened
    without a key. *)
Example demo_routes :
  (app_run
     [PostMessages (Some "key-a"); GetHealth; GetSse None;
      PostMessages (Some "key-a")]).2 =
  [no_active_transport;
   JsonReply 200 (obj [("status", JStr "ok")]);
   Connect "/messages?api_key=";
   HandlePostMessage "/messages?api_key=" (Some "key-a")].
Proof. reflexivity. Qed.

(** The text of an UPDATE is read whole: an assignment of [status] is
    seen wherever it stands, and a clause that is not of the two forms
    leaves the statement without a reading. *)
Example update_text_is_read_whole :
  assigned_columns "enquiry"
    "UPDATE enquiry SET name = ?, status = ?, updated_at = NOW() WHERE id = ?" =
  Some ["name"; "status"; "updated_at"] /\
  mentions "status"
    "UPDATE enquiry SET name = ?, status = ?, updated_at = NOW() WHERE id = ?" = true /\
  update_row "enquiry" (JStr "now")
    "UPDATE enquiry SET name = ?, note = NULL, updated_at = NOW() WHERE id = ?"
    [JStr "Jane"; JNum 1] ∅ = None /\
  update_row "enquiry" (JStr "now")
    "UPDATE enquiry SET name = ?, updated_at = NOW() WHERE id = ?"
    [JStr "Jane"; JNum 1] (list_to_map [("name", JStr "J."); ("status", JStr "open")]) =
  Some (list_to_map [("name", JStr "Jane"); ("status", JStr "open");
                     ("updated_at", JStr "now")]).
Proof. vm_compute. repeat split; reflexivity. Qed.

(** [list_transactions] with the limit 0 and with the limit 20. *)
Example demo_transactions_limits :
  map statement_of
    (run None demo_net (lower demo_pool (list_transactions (JObj demo_transactions)))).2 =
  [(list_transactions_base +:+ " AND t.type = ? ORDER BY t.date DESC, t.id DESC LIMIT 50",
    [JStr "income"])] /\
  map statement_of
    (run None demo_net
       (lower demo_pool
          (list_transactions (JObj (<["limit" := JNum 20]> demo_transactions))))).2 =
  [(list_transactions_base +:+ " AND t.type = ? ORDER BY t.date DESC, t.id DESC LIMIT ?",
    [JStr "income"; JNum 20])].
Proof. vm_compute. split; reflexivity. Qed.
